(** * The tracer loop of the APM agent (tracer.go)

    A shallow embedding of [Tracer.loop], of the goroutine that performs
    the blocking sends, of [Tracer.gatherMetrics] and of the exported
    methods [Close], [Flush], [SendMetrics], [Stats], [Active] and
    [sendConfigCommand].

    One iteration of the loop is a function from the loop's local
    variables and the [select] case that fired to the new local
    variables and the list of effects the iteration has on the other
    goroutines (channel sends, the stats merge, log lines).  The
    goroutines are then composed in a labelled transition system. *)

From Stdlib Require Import ZArith List Bool Lia.
Import ListNotations.
Local Open Scope Z_scope.

(** ** Machine integers *)

(** [uint64] counters: addition wraps at [2^64]. *)
Definition u64_mod : Z := 2 ^ 64.

Definition u64_add (a b : Z) : Z := (a + b) mod u64_mod.

Definition is_u64 (a : Z) : Prop := 0 <= a < u64_mod.

(** [int] and [time.Duration] (64-bit signed): two's complement wrap. *)
Definition wrap_int (z : Z) : Z := (z + 2 ^ 63) mod 2 ^ 64 - 2 ^ 63.

Definition int_add (a b : Z) : Z := wrap_int (a + b).
Definition int_sub (a b : Z) : Z := wrap_int (a - b).

Definition is_int (a : Z) : Prop := - 2 ^ 63 <= a < 2 ^ 63.

(** [time.Duration], in nanoseconds. *)
Definition Duration := Z.

(** An instant.  The zero [time.Time] is [None] where the code asks
    [IsZero]. *)
Definition Time := Z.

(** Identity of a channel made by a caller ([make(chan struct{}, 1)]). *)
Definition Chan := nat.

(** ** Statistics *)

(** Modelled from the spec: the declaration of [TracerStats] and its
    methods [isZero] and [accumulate] (stats.go is not among the sources):
    sent and dropped counts per category and the send-error count, merged
    by addition.  The fields are the ones tracer.go updates; they are
    [uint64], as [stats.TransactionsSent += requestBufTransactions]
    shows. *)
Record TracerStatsErrors := { SendStream : Z }.

Record TracerStats := {
  Errors : TracerStatsErrors;
  ErrorsSent : Z;
  ErrorsDropped : Z;
  TransactionsSent : Z;
  TransactionsDropped : Z;
  SpansSent : Z;
  SpansDropped : Z
}.

Definition zeroStats : TracerStats :=
  {| Errors := {| SendStream := 0 |};
     ErrorsSent := 0; ErrorsDropped := 0;
     TransactionsSent := 0; TransactionsDropped := 0;
     SpansSent := 0; SpansDropped := 0 |}.

Definition isZero (s : TracerStats) : bool :=
  (SendStream (Errors s) =? 0) && (ErrorsSent s =? 0) && (ErrorsDropped s =? 0)
  && (TransactionsSent s =? 0) && (TransactionsDropped s =? 0)
  && (SpansSent s =? 0) && (SpansDropped s =? 0).

Definition accumulate (s rhs : TracerStats) : TracerStats :=
  {| Errors := {| SendStream := u64_add (SendStream (Errors s)) (SendStream (Errors rhs)) |};
     ErrorsSent := u64_add (ErrorsSent s) (ErrorsSent rhs);
     ErrorsDropped := u64_add (ErrorsDropped s) (ErrorsDropped rhs);
     TransactionsSent := u64_add (TransactionsSent s) (TransactionsSent rhs);
     TransactionsDropped := u64_add (TransactionsDropped s) (TransactionsDropped rhs);
     SpansSent := u64_add (SpansSent s) (SpansSent rhs);
     SpansDropped := u64_add (SpansDropped s) (SpansDropped rhs) |}.

(** Componentwise order on snapshots. *)
Definition stats_le (a b : TracerStats) : Prop :=
  SendStream (Errors a) <= SendStream (Errors b)
  /\ ErrorsSent a <= ErrorsSent b
  /\ ErrorsDropped a <= ErrorsDropped b
  /\ TransactionsSent a <= TransactionsSent b
  /\ TransactionsDropped a <= TransactionsDropped b
  /\ SpansSent a <= SpansSent b
  /\ SpansDropped a <= SpansDropped b.

Definition stats_wf (a : TracerStats) : Prop :=
  is_u64 (SendStream (Errors a))
  /\ is_u64 (ErrorsSent a) /\ is_u64 (ErrorsDropped a)
  /\ is_u64 (TransactionsSent a) /\ is_u64 (TransactionsDropped a)
  /\ is_u64 (SpansSent a) /\ is_u64 (SpansDropped a).

(** The single-field updates the loop makes on its local accumulator. *)
Definition incSendStream (s : TracerStats) : TracerStats :=
  {| Errors := {| SendStream := u64_add (SendStream (Errors s)) 1 |};
     ErrorsSent := ErrorsSent s; ErrorsDropped := ErrorsDropped s;
     TransactionsSent := TransactionsSent s;
     TransactionsDropped := TransactionsDropped s;
     SpansSent := SpansSent s; SpansDropped := SpansDropped s |}.

Definition addSent (s : TracerStats) (transactions spans errors : Z) : TracerStats :=
  {| Errors := Errors s;
     ErrorsSent := u64_add (ErrorsSent s) errors;
     ErrorsDropped := ErrorsDropped s;
     TransactionsSent := u64_add (TransactionsSent s) transactions;
     TransactionsDropped := TransactionsDropped s;
     SpansSent := u64_add (SpansSent s) spans;
     SpansDropped := SpansDropped s |}.

(** ** Blocks and the ring buffer *)

Inductive BlockTag := transactionBlockTag | spanBlockTag | errorBlockTag | metricsBlockTag.

(** A block: its tag and the length of its encoding.  The bytes are
    opaque to the loop; an encoded record is never empty. *)
Record Block := { blockTag : BlockTag; blockLen : positive }.

Module ringbuffer.

(** Modelled from the spec: the ring buffer (internal/ringbuffer is not
    among the sources): a store of blocks of fixed capacity, oldest
    first; [Len] is the number of occupied bytes; an insertion evicts
    the oldest blocks until the new one fits and reports each evicted
    block to the [Evicted] callback; [WriteBlockTo] removes the oldest
    block and hands it to the sink, or reports the buffer empty. *)
Record Buffer := { capacity : Z; blocks : list Block }.

Definition New (size : Z) : Buffer := {| capacity := size; blocks := [] |}.

Fixpoint bytes (bs : list Block) : Z :=
  match bs with
  | [] => 0
  | b :: bs' => Z.pos (blockLen b) + bytes bs'
  end.

Definition Len (b : Buffer) : Z := bytes (blocks b).

(** Evict from the front until [need] more bytes fit in [cap]. *)
Fixpoint evict (cap need : Z) (bs : list Block) : list Block * list Block :=
  match bs with
  | [] => ([], [])
  | b :: bs' =>
      if bytes bs + need <=? cap then (bs, [])
      else let '(kept, out) := evict cap need bs' in (kept, b :: out)
  end.

(** The buffer after the insertion and the evicted blocks, oldest
    first.  A block larger than the whole buffer is left out. *)
Definition Insert (b : Buffer) (blk : Block) : Buffer * list Block :=
  if Z.pos (blockLen blk) <=? capacity b then
    let r := evict (capacity b) (Z.pos (blockLen blk)) (blocks b) in
    ({| capacity := capacity b; blocks := fst r ++ [blk] |}, snd r)
  else (b, []).

Definition WriteBlockTo (b : Buffer) : option (Block * Buffer) :=
  match blocks b with
  | [] => None
  | blk :: rest => Some (blk, {| capacity := capacity b; blocks := rest |})
  end.

End ringbuffer.

(** The [Evicted] callback the loop installs on the trace buffer. *)
Definition Evicted (stats : TracerStats) (h : Block) : TracerStats :=
  match blockTag h with
  | errorBlockTag =>
      {| Errors := Errors stats; ErrorsSent := ErrorsSent stats;
         ErrorsDropped := u64_add (ErrorsDropped stats) 1;
         TransactionsSent := TransactionsSent stats;
         TransactionsDropped := TransactionsDropped stats;
         SpansSent := SpansSent stats; SpansDropped := SpansDropped stats |}
  | spanBlockTag =>
      {| Errors := Errors stats; ErrorsSent := ErrorsSent stats;
         ErrorsDropped := ErrorsDropped stats;
         TransactionsSent := TransactionsSent stats;
         TransactionsDropped := TransactionsDropped stats;
         SpansSent := SpansSent stats;
         SpansDropped := u64_add (SpansDropped stats) 1 |}
  | transactionBlockTag =>
      {| Errors := Errors stats; ErrorsSent := ErrorsSent stats;
         ErrorsDropped := ErrorsDropped stats;
         TransactionsSent := TransactionsSent stats;
         TransactionsDropped := u64_add (TransactionsDropped stats) 1;
         SpansSent := SpansSent stats; SpansDropped := SpansDropped stats |}
  | metricsBlockTag => stats
  end.

(** ** Events, metrics and configuration *)

Inductive tracerEventType := transactionEvent | spanEvent | errorEvent.

(** A finished record handed to the loop; its payload is opaque, only
    the length of its encoding matters to the buffers. *)
Record tracerEvent := { eventType : tracerEventType; encodedLen : positive }.

(** A metrics gatherer is known to the loop by identity only. *)
Definition MetricsGatherer := nat.

(** One entry of the metrics snapshot. *)
Record Metric := { metricLen : positive; Timestamp : Time }.

Record Metrics := { m_disabled : list nat; m_metrics : list Metric }.

Inductive Logger := logger (id : nat).

Record tracerConfig := {
  requestSize : Z;
  requestDuration : Duration;
  metricsInterval : Duration;
  cfg_logger : option Logger;
  metricsGatherers : list MetricsGatherer;
  preContext : Z;
  postContext : Z;
  sanitizedFieldNames : list nat;
  disabledMetrics : list nat
}.

Definition tracerConfigCommand := tracerConfig -> tracerConfig.

Definition zeroConfig : tracerConfig :=
  {| requestSize := 0; requestDuration := 0; metricsInterval := 0;
     cfg_logger := None; metricsGatherers := [];
     preContext := 0; postContext := 0;
     sanitizedFieldNames := []; disabledMetrics := [] |}.

(** ** The compressor, the request buffer and the timers *)

(** [compress/zlib] belongs to the Go library, so the writer is an
    interface here: each operation yields the new writer and the number
    of bytes it appended to the buffer it writes to ([requestBuf]). *)
Class ZlibWriter (W : Type) := {
  zlib_NewWriterLevel : W;
  zlib_Reset : W -> W;
  zlib_Write : W -> Z -> W * N;
  zlib_Flush : W -> W * N;
  zlib_Close : W -> W * N
}.

(** [bytes.Buffer.Read] on a buffer holding [len] unread bytes into a
    slice of length [cap]: the bytes copied, whether [io.EOF] is
    returned, and the unread bytes left. *)
Record ReadResult := { read_n : Z; read_EOF : bool; read_rest : Z }.

Definition buffer_Read (len cap : Z) : ReadResult :=
  if len =? 0
  then {| read_n := 0; read_EOF := negb (cap =? 0); read_rest := 0 |}
  else {| read_n := Z.min cap len; read_EOF := false;
          read_rest := len - Z.min cap len |}.

(** A [time.Timer]: running with a duration or not, and whether a value
    sits in its channel [C] (of capacity one). *)
Record Timer := { armed : option Duration; pending : bool }.

Definition idleTimer : Timer := {| armed := None; pending := false |}.

Definition timer_Reset (d : Duration) (t : Timer) : Timer :=
  {| armed := Some d; pending := pending t |}.

(** [Stop] reports whether the timer was running. *)
Definition timer_Stop (t : Timer) : bool * Timer :=
  (match armed t with Some _ => true | None => false end,
   {| armed := None; pending := pending t |}).

(** [<-t.C]: [None] when the channel is empty (the receive blocks). *)
Definition timer_recv (t : Timer) : option Timer :=
  if pending t then Some {| armed := armed t; pending := false |} else None.

(** The timer expires: its value goes to [C], or is dropped when [C] is
    full. *)
Definition timer_fire (t : Timer) : option Timer :=
  match armed t with
  | Some _ => Some {| armed := None; pending := true |}
  | None => None
  end.

(** [if !t.Stop() { <-t.C }] *)
Definition timer_stopDrain (t : Timer) : option Timer :=
  let '(was, t') := timer_Stop t in
  if was then Some t' else timer_recv t'.

(** ** What an iteration does to the other goroutines *)

Inductive SendError := HTTPError (statusCode : Z) | otherError.

Inductive Severity := Debugf | Errorf.

Inductive LogLine :=
| requestFailedLine (err : SendError) (next : Duration)
| sentRequestLine (transactions spans errors metricsets : Z)
| gatheringMetricsLine.

Inductive Effect :=
| cancelContext
| CloseRead
| NewReader
| Ack (c : Chan)
| Accumulate (s : TracerStats)
| Logf (sev : Severity) (line : LogLine)
| gatherMetricsCall (timestamp : Time) (gatherers : list MetricsGatherer)
| sendStreamRequest (gracePeriod : Duration)
| Respond (n : Z) (eof : bool)
| closeSendStreamRequest
| storeInactive
| closeClosed.

(** The [select] cases of the loop, each with what it receives. *)
Inductive SelectCase :=
| caseClosing
| caseConfigCommand (cmd : tracerConfigCommand)
| caseEvent (event : tracerEvent)
| caseRequestTimer
| caseMetricsTimer
| caseForceSendMetrics (sent : Chan)
| caseGatheredMetrics
| caseForceFlush (c : Chan) (queued : list tracerEvent)
| caseReadRequest (bufLen : Z)
| caseRequestResult (err : option SendError).

(** The fields of [Tracer] the loop reads, and the length of the
    metadata line [jsonRequestMetadata] encodes. *)
Record TracerParams := {
  bufferSize : Z;
  metricsBufferSize : Z;
  metadataLen : Z
}.

Section LoopVariables.

Context {W : Type}.

(** The loop's local variables. *)
Record LoopState := mkLoop {
  req : option Z;
  requestBuf : Z;
  metadata : option Z;
  gracePeriod : Duration;
  flushed : option Chan;
  requestBufTransactions : Z;
  requestBufSpans : Z;
  requestBufErrors : Z;
  requestBufMetricsets : Z;
  zlibWriter : W;
  zlibFlushed : bool;
  zlibClosed : bool;
  requestBytesRead : Z;
  requestActive : bool;
  closeRequest : bool;
  flushRequest : bool;
  requestTimer : Timer;
  requestTimerActive : bool;
  stats : TracerStats;
  metrics : Metrics;
  sentMetrics : option Chan;
  gatheringMetrics : bool;
  metricsTimerStart : option Time;
  metricsBuffer : ringbuffer.Buffer;
  metricsTimer : Timer;
  cfg : tracerConfig;
  buffer : ringbuffer.Buffer
}.

Definition set_req (v : option Z) (s : LoopState) : LoopState :=
  let 'mkLoop _ x2 x3 x4 x5 x6 x7 x8 x9 x10 x11 x12 x13 x14 x15 x16 x17 x18
      x19 x20 x21 x22 x23 x24 x25 x26 x27 := s in
  mkLoop v x2 x3 x4 x5 x6 x7 x8 x9 x10 x11 x12 x13 x14 x15 x16 x17 x18 x19
    x20 x21 x22 x23 x24 x25 x26 x27.
Definition set_requestBuf (v : Z) (s : LoopState) : LoopState :=
  let 'mkLoop x1 _ x3 x4 x5 x6 x7 x8 x9 x10 x11 x12 x13 x14 x15 x16 x17 x18
      x19 x20 x21 x22 x23 x24 x25 x26 x27 := s in
  mkLoop x1 v x3 x4 x5 x6 x7 x8 x9 x10 x11 x12 x13 x14 x15 x16 x17 x18 x19
    x20 x21 x22 x23 x24 x25 x26 x27.
Definition set_metadata (v : option Z) (s : LoopState) : LoopState :=
  let 'mkLoop x1 x2 _ x4 x5 x6 x7 x8 x9 x10 x11 x12 x13 x14 x15 x16 x17 x18
      x19 x20 x21 x22 x23 x24 x25 x26 x27 := s in
  mkLoop x1 x2 v x4 x5 x6 x7 x8 x9 x10 x11 x12 x13 x14 x15 x16 x17 x18 x19
    x20 x21 x22 x23 x24 x25 x26 x27.
Definition set_gracePeriod (v : Duration) (s : LoopState) : LoopState :=
  let 'mkLoop x1 x2 x3 _ x5 x6 x7 x8 x9 x10 x11 x12 x13 x14 x15 x16 x17 x18
      x19 x20 x21 x22 x23 x24 x25 x26 x27 := s in
  mkLoop x1 x2 x3 v x5 x6 x7 x8 x9 x10 x11 x12 x13 x14 x15 x16 x17 x18 x19
    x20 x21 x22 x23 x24 x25 x26 x27.
Definition set_flushed (v : option Chan) (s : LoopState) : LoopState :=
  let 'mkLoop x1 x2 x3 x4 _ x6 x7 x8 x9 x10 x11 x12 x13 x14 x15 x16 x17 x18
      x19 x20 x21 x22 x23 x24 x25 x26 x27 := s in
  mkLoop x1 x2 x3 x4 v x6 x7 x8 x9 x10 x11 x12 x13 x14 x15 x16 x17 x18 x19
    x20 x21 x22 x23 x24 x25 x26 x27.
Definition set_requestBufTransactions (v : Z) (s : LoopState) : LoopState :=
  let 'mkLoop x1 x2 x3 x4 x5 _ x7 x8 x9 x10 x11 x12 x13 x14 x15 x16 x17 x18
      x19 x20 x21 x22 x23 x24 x25 x26 x27 := s in
  mkLoop x1 x2 x3 x4 x5 v x7 x8 x9 x10 x11 x12 x13 x14 x15 x16 x17 x18 x19
    x20 x21 x22 x23 x24 x25 x26 x27.
Definition set_requestBufSpans (v : Z) (s : LoopState) : LoopState :=
  let 'mkLoop x1 x2 x3 x4 x5 x6 _ x8 x9 x10 x11 x12 x13 x14 x15 x16 x17 x18
      x19 x20 x21 x22 x23 x24 x25 x26 x27 := s in
  mkLoop x1 x2 x3 x4 x5 x6 v x8 x9 x10 x11 x12 x13 x14 x15 x16 x17 x18 x19
    x20 x21 x22 x23 x24 x25 x26 x27.
Definition set_requestBufErrors (v : Z) (s : LoopState) : LoopState :=
  let 'mkLoop x1 x2 x3 x4 x5 x6 x7 _ x9 x10 x11 x12 x13 x14 x15 x16 x17 x18
      x19 x20 x21 x22 x23 x24 x25 x26 x27 := s in
  mkLoop x1 x2 x3 x4 x5 x6 x7 v x9 x10 x11 x12 x13 x14 x15 x16 x17 x18 x19
    x20 x21 x22 x23 x24 x25 x26 x27.
Definition set_requestBufMetricsets (v : Z) (s : LoopState) : LoopState :=
  let 'mkLoop x1 x2 x3 x4 x5 x6 x7 x8 _ x10 x11 x12 x13 x14 x15 x16 x17 x18
      x19 x20 x21 x22 x23 x24 x25 x26 x27 := s in
  mkLoop x1 x2 x3 x4 x5 x6 x7 x8 v x10 x11 x12 x13 x14 x15 x16 x17 x18 x19
    x20 x21 x22 x23 x24 x25 x26 x27.
Definition set_zlibWriter (v : W) (s : LoopState) : LoopState :=
  let 'mkLoop x1 x2 x3 x4 x5 x6 x7 x8 x9 _ x11 x12 x13 x14 x15 x16 x17 x18
      x19 x20 x21 x22 x23 x24 x25 x26 x27 := s in
  mkLoop x1 x2 x3 x4 x5 x6 x7 x8 x9 v x11 x12 x13 x14 x15 x16 x17 x18 x19
    x20 x21 x22 x23 x24 x25 x26 x27.
Definition set_zlibFlushed (v : bool) (s : LoopState) : LoopState :=
  let 'mkLoop x1 x2 x3 x4 x5 x6 x7 x8 x9 x10 _ x12 x13 x14 x15 x16 x17 x18
      x19 x20 x21 x22 x23 x24 x25 x26 x27 := s in
  mkLoop x1 x2 x3 x4 x5 x6 x7 x8 x9 x10 v x12 x13 x14 x15 x16 x17 x18 x19
    x20 x21 x22 x23 x24 x25 x26 x27.
Definition set_zlibClosed (v : bool) (s : LoopState) : LoopState :=
  let 'mkLoop x1 x2 x3 x4 x5 x6 x7 x8 x9 x10 x11 _ x13 x14 x15 x16 x17 x18
      x19 x20 x21 x22 x23 x24 x25 x26 x27 := s in
  mkLoop x1 x2 x3 x4 x5 x6 x7 x8 x9 x10 x11 v x13 x14 x15 x16 x17 x18 x19
    x20 x21 x22 x23 x24 x25 x26 x27.
Definition set_requestBytesRead (v : Z) (s : LoopState) : LoopState :=
  let 'mkLoop x1 x2 x3 x4 x5 x6 x7 x8 x9 x10 x11 x12 _ x14 x15 x16 x17 x18
      x19 x20 x21 x22 x23 x24 x25 x26 x27 := s in
  mkLoop x1 x2 x3 x4 x5 x6 x7 x8 x9 x10 x11 x12 v x14 x15 x16 x17 x18 x19
    x20 x21 x22 x23 x24 x25 x26 x27.
Definition set_requestActive (v : bool) (s : LoopState) : LoopState :=
  let 'mkLoop x1 x2 x3 x4 x5 x6 x7 x8 x9 x10 x11 x12 x13 _ x15 x16 x17 x18
      x19 x20 x21 x22 x23 x24 x25 x26 x27 := s in
  mkLoop x1 x2 x3 x4 x5 x6 x7 x8 x9 x10 x11 x12 x13 v x15 x16 x17 x18 x19
    x20 x21 x22 x23 x24 x25 x26 x27.
Definition set_closeRequest (v : bool) (s : LoopState) : LoopState :=
  let 'mkLoop x1 x2 x3 x4 x5 x6 x7 x8 x9 x10 x11 x12 x13 x14 _ x16 x17 x18
      x19 x20 x21 x22 x23 x24 x25 x26 x27 := s in
  mkLoop x1 x2 x3 x4 x5 x6 x7 x8 x9 x10 x11 x12 x13 x14 v x16 x17 x18 x19
    x20 x21 x22 x23 x24 x25 x26 x27.
Definition set_flushRequest (v : bool) (s : LoopState) : LoopState :=
  let 'mkLoop x1 x2 x3 x4 x5 x6 x7 x8 x9 x10 x11 x12 x13 x14 x15 _ x17 x18
      x19 x20 x21 x22 x23 x24 x25 x26 x27 := s in
  mkLoop x1 x2 x3 x4 x5 x6 x7 x8 x9 x10 x11 x12 x13 x14 x15 v x17 x18 x19
    x20 x21 x22 x23 x24 x25 x26 x27.
Definition set_requestTimer (v : Timer) (s : LoopState) : LoopState :=
  let 'mkLoop x1 x2 x3 x4 x5 x6 x7 x8 x9 x10 x11 x12 x13 x14 x15 x16 _ x18
      x19 x20 x21 x22 x23 x24 x25 x26 x27 := s in
  mkLoop x1 x2 x3 x4 x5 x6 x7 x8 x9 x10 x11 x12 x13 x14 x15 x16 v x18 x19
    x20 x21 x22 x23 x24 x25 x26 x27.
Definition set_requestTimerActive (v : bool) (s : LoopState) : LoopState :=
  let 'mkLoop x1 x2 x3 x4 x5 x6 x7 x8 x9 x10 x11 x12 x13 x14 x15 x16 x17 _
      x19 x20 x21 x22 x23 x24 x25 x26 x27 := s in
  mkLoop x1 x2 x3 x4 x5 x6 x7 x8 x9 x10 x11 x12 x13 x14 x15 x16 x17 v x19
    x20 x21 x22 x23 x24 x25 x26 x27.
Definition set_stats (v : TracerStats) (s : LoopState) : LoopState :=
  let 'mkLoop x1 x2 x3 x4 x5 x6 x7 x8 x9 x10 x11 x12 x13 x14 x15 x16 x17 x18
      _ x20 x21 x22 x23 x24 x25 x26 x27 := s in
  mkLoop x1 x2 x3 x4 x5 x6 x7 x8 x9 x10 x11 x12 x13 x14 x15 x16 x17 x18 v
    x20 x21 x22 x23 x24 x25 x26 x27.
Definition set_metrics (v : Metrics) (s : LoopState) : LoopState :=
  let 'mkLoop x1 x2 x3 x4 x5 x6 x7 x8 x9 x10 x11 x12 x13 x14 x15 x16 x17 x18
      x19 _ x21 x22 x23 x24 x25 x26 x27 := s in
  mkLoop x1 x2 x3 x4 x5 x6 x7 x8 x9 x10 x11 x12 x13 x14 x15 x16 x17 x18 x19
    v x21 x22 x23 x24 x25 x26 x27.
Definition set_sentMetrics (v : option Chan) (s : LoopState) : LoopState :=
  let 'mkLoop x1 x2 x3 x4 x5 x6 x7 x8 x9 x10 x11 x12 x13 x14 x15 x16 x17 x18
      x19 x20 _ x22 x23 x24 x25 x26 x27 := s in
  mkLoop x1 x2 x3 x4 x5 x6 x7 x8 x9 x10 x11 x12 x13 x14 x15 x16 x17 x18 x19
    x20 v x22 x23 x24 x25 x26 x27.
Definition set_gatheringMetrics (v : bool) (s : LoopState) : LoopState :=
  let 'mkLoop x1 x2 x3 x4 x5 x6 x7 x8 x9 x10 x11 x12 x13 x14 x15 x16 x17 x18
      x19 x20 x21 _ x23 x24 x25 x26 x27 := s in
  mkLoop x1 x2 x3 x4 x5 x6 x7 x8 x9 x10 x11 x12 x13 x14 x15 x16 x17 x18 x19
    x20 x21 v x23 x24 x25 x26 x27.
Definition set_metricsTimerStart (v : option Time) (s : LoopState) : LoopState :=
  let 'mkLoop x1 x2 x3 x4 x5 x6 x7 x8 x9 x10 x11 x12 x13 x14 x15 x16 x17 x18
      x19 x20 x21 x22 _ x24 x25 x26 x27 := s in
  mkLoop x1 x2 x3 x4 x5 x6 x7 x8 x9 x10 x11 x12 x13 x14 x15 x16 x17 x18 x19
    x20 x21 x22 v x24 x25 x26 x27.
Definition set_metricsBuffer (v : ringbuffer.Buffer) (s : LoopState) : LoopState :=
  let 'mkLoop x1 x2 x3 x4 x5 x6 x7 x8 x9 x10 x11 x12 x13 x14 x15 x16 x17 x18
      x19 x20 x21 x22 x23 _ x25 x26 x27 := s in
  mkLoop x1 x2 x3 x4 x5 x6 x7 x8 x9 x10 x11 x12 x13 x14 x15 x16 x17 x18 x19
    x20 x21 x22 x23 v x25 x26 x27.
Definition set_metricsTimer (v : Timer) (s : LoopState) : LoopState :=
  let 'mkLoop x1 x2 x3 x4 x5 x6 x7 x8 x9 x10 x11 x12 x13 x14 x15 x16 x17 x18
      x19 x20 x21 x22 x23 x24 _ x26 x27 := s in
  mkLoop x1 x2 x3 x4 x5 x6 x7 x8 x9 x10 x11 x12 x13 x14 x15 x16 x17 x18 x19
    x20 x21 x22 x23 x24 v x26 x27.
Definition set_cfg (v : tracerConfig) (s : LoopState) : LoopState :=
  let 'mkLoop x1 x2 x3 x4 x5 x6 x7 x8 x9 x10 x11 x12 x13 x14 x15 x16 x17 x18
      x19 x20 x21 x22 x23 x24 x25 _ x27 := s in
  mkLoop x1 x2 x3 x4 x5 x6 x7 x8 x9 x10 x11 x12 x13 x14 x15 x16 x17 x18 x19
    x20 x21 x22 x23 x24 x25 v x27.
Definition set_buffer (v : ringbuffer.Buffer) (s : LoopState) : LoopState :=
  let 'mkLoop x1 x2 x3 x4 x5 x6 x7 x8 x9 x10 x11 x12 x13 x14 x15 x16 x17 x18
      x19 x20 x21 x22 x23 x24 x25 x26 _ := s in
  mkLoop x1 x2 x3 x4 x5 x6 x7 x8 x9 x10 x11 x12 x13 x14 x15 x16 x17 x18 x19
    x20 x21 x22 x23 x24 x25 x26 v.

End LoopVariables.

Arguments LoopState W : clear implicits.
Arguments set_req {W} v s /.
Arguments set_requestBuf {W} v s /.
Arguments set_metadata {W} v s /.
Arguments set_gracePeriod {W} v s /.
Arguments set_flushed {W} v s /.
Arguments set_requestBufTransactions {W} v s /.
Arguments set_requestBufSpans {W} v s /.
Arguments set_requestBufErrors {W} v s /.
Arguments set_requestBufMetricsets {W} v s /.
Arguments set_zlibWriter {W} v s /.
Arguments set_zlibFlushed {W} v s /.
Arguments set_zlibClosed {W} v s /.
Arguments set_requestBytesRead {W} v s /.
Arguments set_requestActive {W} v s /.
Arguments set_closeRequest {W} v s /.
Arguments set_flushRequest {W} v s /.
Arguments set_requestTimer {W} v s /.
Arguments set_requestTimerActive {W} v s /.
Arguments set_stats {W} v s /.
Arguments set_metrics {W} v s /.
Arguments set_sentMetrics {W} v s /.
Arguments set_gatheringMetrics {W} v s /.
Arguments set_metricsTimerStart {W} v s /.
Arguments set_metricsBuffer {W} v s /.
Arguments set_metricsTimer {W} v s /.
Arguments set_cfg {W} v s /.
Arguments set_buffer {W} v s /.

Section Loop.

Context {W : Type} {ZW : ZlibWriter W}.

(** Modelled from the spec: [nextGracePeriod] (gracePeriod.go is not
    among the sources), the escalation of the retry grace period after a
    failed send.  It is a parameter of the loop; what the spec says of it
    is stated where a theorem needs it. *)
Variable nextGracePeriod : Duration -> Duration.

Variable t : TracerParams.


(** The loop's variables as [Tracer.loop] declares them, before its
    first iteration. *)
Definition initialLoop : LoopState W :=
  {| req := None; requestBuf := 0; metadata := None; gracePeriod := -1;
     flushed := None;
     requestBufTransactions := 0; requestBufSpans := 0;
     requestBufErrors := 0; requestBufMetricsets := 0;
     zlibWriter := zlib_NewWriterLevel;
     zlibFlushed := true; zlibClosed := false;
     requestBytesRead := 0;
     requestActive := false; closeRequest := false; flushRequest := false;
     requestTimer := idleTimer; requestTimerActive := false;
     stats := zeroStats;
     metrics := {| m_disabled := []; m_metrics := [] |};
     sentMetrics := None; gatheringMetrics := false;
     metricsTimerStart := None;
     metricsBuffer := ringbuffer.New (metricsBufferSize t);
     metricsTimer := idleTimer;
     cfg := zeroConfig;
     buffer := ringbuffer.New (bufferSize t) |}.

(** *** The model writer *)

Definition eventBlock (event : tracerEvent) : Block :=
  {| blockTag := match eventType event with
                 | transactionEvent => transactionBlockTag
                 | spanEvent => spanBlockTag
                 | errorEvent => errorBlockTag
                 end;
     blockLen := encodedLen event |}.

(** Modelled from the spec: [modelWriter.writeTransaction], [writeSpan]
    and [writeError] (modelwriter.go is not among the sources): the
    record is encoded as one block and inserted in the trace buffer, whose
    evictions go to the [Evicted] callback. *)
Definition writeEvent (event : tracerEvent) (s : LoopState W) : LoopState W :=
  let r := ringbuffer.Insert (buffer s) (eventBlock event) in
  set_stats (fold_left Evicted (snd r) (stats s)) (set_buffer (fst r) s).

(** Modelled from the spec: [modelWriter.writeMetrics]: every entry of
    the snapshot becomes one block of the metrics buffer (which has no
    eviction callback), and the snapshot is emptied. *)
Definition writeMetrics (s : LoopState W) : LoopState W :=
  let mb :=
    fold_left
      (fun b m => fst (ringbuffer.Insert b
                         {| blockTag := metricsBlockTag; blockLen := metricLen m |}))
      (m_metrics (metrics s)) (metricsBuffer s) in
  set_metrics {| m_disabled := m_disabled (metrics s); m_metrics := [] |}
    (set_metricsBuffer mb s).

(** The events [Flush] finds queued are written without asking for a
    flush of the compressor. *)
Definition drainEvents (queued : list tracerEvent) (s : LoopState W) : LoopState W :=
  fold_left (fun s event => writeEvent event s) queued s.

(** *** Writing to the compressor *)

Definition zlibWrite (n : Z) (s : LoopState W) : LoopState W :=
  let r := zlib_Write (zlibWriter s) n in
  set_requestBuf (requestBuf s + Z.of_N (snd r)) (set_zlibWriter (fst r) s).

Definition zlibFlush (s : LoopState W) : LoopState W :=
  let r := zlib_Flush (zlibWriter s) in
  set_requestBuf (requestBuf s + Z.of_N (snd r)) (set_zlibWriter (fst r) s).

Definition zlibClose (s : LoopState W) : LoopState W :=
  let r := zlib_Close (zlibWriter s) in
  set_requestBuf (requestBuf s + Z.of_N (snd r)) (set_zlibWriter (fst r) s).

(** The quantity the loop compares with [cfg.requestSize]:
    [requestBytesRead+requestBuf.Len()]. *)
Definition requestBytes (s : LoopState W) : Z :=
  int_add (requestBytesRead s) (requestBuf s).

(** *** The [select] statement *)

(** [time.Since], which saturates. *)
Definition time_Since (now start : Time) : Duration :=
  Z.max (- 2 ^ 63) (Z.min (2 ^ 63 - 1) (now - start)).

Inductive Flow := fallthrough (gatherMetrics : bool) | continueLoop.

Definition Step : Type := option (Flow * LoopState W * list Effect).

Definition onConfigCommand (now : Time) (cmd : tracerConfigCommand) (s : LoopState W) : Step :=
  let oldMetricsInterval := metricsInterval (cfg s) in
  let s := set_cfg (cmd (cfg s)) s in
  if negb (gatheringMetrics s) && negb (metricsInterval (cfg s) =? oldMetricsInterval) then
    match metricsTimerStart s with
    | None =>
        if 0 <? metricsInterval (cfg s) then
          Some (continueLoop,
                set_metricsTimerStart (Some now)
                  (set_metricsTimer (timer_Reset (metricsInterval (cfg s)) (metricsTimer s)) s),
                [])
        else Some (continueLoop, s, [])
    | Some start =>
        if metricsInterval (cfg s) <=? 0 then
          match timer_stopDrain (metricsTimer s) with
          | Some tm =>
              Some (continueLoop, set_metricsTimer tm (set_metricsTimerStart None s), [])
          | None => None
          end
        else
          let alreadyPassed := time_Since now start in
          if metricsInterval (cfg s) <=? alreadyPassed then
            Some (continueLoop, set_metricsTimer (timer_Reset 0 (metricsTimer s)) s, [])
          else
            Some (continueLoop,
                  set_metricsTimer
                    (timer_Reset (int_sub (metricsInterval (cfg s)) alreadyPassed)
                       (metricsTimer s)) s,
                  [])
    end
  else Some (continueLoop, s, []).

Definition onEvent (event : tracerEvent) (s : LoopState W) : Step :=
  match eventType event with
  | errorEvent =>
      (* Flush the buffer to transmit the error immediately. *)
      Some (fallthrough false, set_flushRequest true (writeEvent event s), [])
  | _ => Some (fallthrough false, writeEvent event s, [])
  end.

Definition onRequestTimer (s : LoopState W) : Step :=
  match timer_recv (requestTimer s) with
  | Some tm =>
      Some (fallthrough false,
            set_closeRequest true (set_requestTimerActive false (set_requestTimer tm s)),
            [])
  | None => None
  end.

Definition onMetricsTimer (s : LoopState W) : Step :=
  match timer_recv (metricsTimer s) with
  | Some tm =>
      let s := set_metricsTimerStart None (set_metricsTimer tm s) in
      Some (fallthrough (negb (gatheringMetrics s)), s, [])
  | None => None
  end.

Definition onForceSendMetrics (sent : Chan) (s : LoopState W) : Step :=
  let s := set_sentMetrics (Some sent) s in
  match metricsTimerStart s with
  | Some _ =>
      match timer_stopDrain (metricsTimer s) with
      | Some tm =>
          let s := set_metricsTimerStart None (set_metricsTimer tm s) in
          Some (fallthrough (negb (gatheringMetrics s)), s, [])
      | None => None
      end
  | None => Some (fallthrough (negb (gatheringMetrics s)), s, [])
  end.

Definition onGatheredMetrics (now : Time) (s : LoopState W) : Step :=
  let s := writeMetrics s in
  let s := set_gatheringMetrics false s in
  let s := set_flushRequest true s in
  if 0 <? metricsInterval (cfg s) then
    Some (fallthrough false,
          set_metricsTimer (timer_Reset (metricsInterval (cfg s)) (metricsTimer s))
            (set_metricsTimerStart (Some now) s),
          [])
  else Some (fallthrough false, s, []).

Definition onForceFlush (c : Chan) (queued : list tracerEvent) (s : LoopState W) : Step :=
  let s := set_flushed (Some c) s in
  (* Drain any objects buffered in the channels. *)
  let s := drainEvents queued s in
  if negb (requestActive s)
     && (ringbuffer.Len (buffer s) =? 0)
     && (ringbuffer.Len (metricsBuffer s) =? 0)
  then Some (continueLoop, s, [Ack c])
  else Some (fallthrough false, set_closeRequest true s, []).

Definition onReadRequest (bufLen : Z) (s : LoopState W) : Step :=
  Some (fallthrough false, set_req (Some bufLen) s, []).

(** [logf] of the failure branch: [Debugf], or [Errorf] for an
    [*transport.HTTPError] whose status is 404. *)
Definition failureLogf (err : SendError) : Severity :=
  match err with
  | HTTPError 404 => Errorf
  | _ => Debugf
  end.

(** [if !stats.isZero() { t.stats.accumulate(stats); stats = TracerStats{} }] *)
Definition mergeStats (s : LoopState W) : LoopState W * list Effect :=
  if negb (isZero (stats s))
  then (set_stats zeroStats s, [Accumulate (stats s)])
  else (s, []).

(** The two branches on [err]. *)
Definition requestOutcome (err : option SendError) (s : LoopState W)
    : LoopState W * list Effect :=
  match err with
  | Some e =>
      let s := set_stats (incSendStream (stats s)) s in
      let s := set_gracePeriod (nextGracePeriod (gracePeriod s)) s in
      (s, match cfg_logger (cfg s) with
          | Some _ => [Logf (failureLogf e) (requestFailedLine e (gracePeriod s))]
          | None => []
          end)
  | None =>
      (* Reset grace period after success. *)
      let s := set_gracePeriod (-1) s in
      let s := set_stats (addSent (stats s) (requestBufTransactions s)
                            (requestBufSpans s) (requestBufErrors s)) s in
      (s, match cfg_logger (cfg s) with
          | Some _ =>
              [Logf Debugf (sentRequestLine (requestBufTransactions s)
                              (requestBufSpans s) (requestBufErrors s)
                              (requestBufMetricsets s))]
          | None => []
          end)
  end.

(** [if sentMetrics != nil && requestBufMetricsets > 0 { ... }] *)
Definition ackSentMetrics (s : LoopState W) : LoopState W * list Effect :=
  match sentMetrics s with
  | Some c =>
      if 0 <? requestBufMetricsets s
      then (set_sentMetrics None s, [Ack c])
      else (s, [])
  | None => (s, [])
  end.

(** [if flushed != nil { ... }] *)
Definition ackFlushed (s : LoopState W) : LoopState W * list Effect :=
  match flushed s with
  | Some c => (set_flushed None s, [Ack c])
  | None => (s, [])
  end.

(** The request back to its initial state. *)
Definition resetRequest (s : LoopState W) : LoopState W :=
  let s := set_req None s in
  let s := set_flushRequest false s in
  let s := set_closeRequest false s in
  let s := set_requestActive false s in
  let s := set_requestBytesRead 0 s in
  let s := set_requestBuf 0 s in
  let s := set_requestBufTransactions 0 s in
  let s := set_requestBufSpans 0 s in
  let s := set_requestBufErrors 0 s in
  set_requestBufMetricsets 0 s.

Definition onRequestResult (err : option SendError) (s : LoopState W) : Step :=
  let r := requestOutcome err s in
  let logged := snd r in
  let r := mergeStats (fst r) in
  let merged := snd r in
  let r := ackSentMetrics (fst r) in
  let ackSent := snd r in
  let r := ackFlushed (fst r) in
  let acked := snd r in
  let s := resetRequest (fst r) in
  let effs := logged ++ merged ++ ackSent ++ acked ++ [CloseRead; NewReader] in
  if requestTimerActive s then
    match timer_stopDrain (requestTimer s) with
    | Some tm =>
        Some (fallthrough false,
              set_requestTimerActive false (set_requestTimer tm s), effs)
    | None => None
    end
  else Some (fallthrough false, s, effs).

Definition selectCase (now : Time) (c : SelectCase) (s : LoopState W) : Step :=
  match c with
  | caseClosing => None
  | caseConfigCommand cmd => onConfigCommand now cmd s
  | caseEvent event => onEvent event s
  | caseRequestTimer => onRequestTimer s
  | caseMetricsTimer => onMetricsTimer s
  | caseForceSendMetrics sent => onForceSendMetrics sent s
  | caseGatheredMetrics => onGatheredMetrics now s
  | caseForceFlush c queued => onForceFlush c queued s
  | caseReadRequest bufLen => onReadRequest bufLen s
  | caseRequestResult err => onRequestResult err s
  end.

(** *** After the [select] *)

(** [if gatherMetrics { ... }] *)
Definition startGather (now : Time) (s : LoopState W) : LoopState W * list Effect :=
  let s := set_gatheringMetrics true s in
  let s := set_metrics {| m_disabled := disabledMetrics (cfg s);
                          m_metrics := m_metrics (metrics s) |} s in
  (s, gatherMetricsCall now (metricsGatherers (cfg s))
        :: match cfg_logger (cfg s) with
           | Some _ => [Logf Debugf gatheringMetricsLine]
           | None => []
           end).

(** [if !requestActive { ... }]: [None] is the [continue] taken when
    both buffers are empty. *)
Definition openRequest (s : LoopState W) : option (LoopState W * list Effect) :=
  if requestActive s then Some (s, [])
  else if (ringbuffer.Len (buffer s) =? 0) && (ringbuffer.Len (metricsBuffer s) =? 0)
  then None
  else
    let signal := sendStreamRequest (gracePeriod s) in
    let s := match metadata s with
             | None => set_metadata (Some (metadataLen t)) s
             | Some _ => s
             end in
    let s := set_zlibWriter (zlib_Reset (zlibWriter s)) s in
    let s := zlibWrite (match metadata s with Some n => n | None => 0 end) s in
    let s := set_zlibFlushed false s in
    let s := set_zlibClosed false s in
    let s := set_requestActive true s in
    let s := set_requestTimer (timer_Reset (requestDuration (cfg s)) (requestTimer s)) s in
    let s := set_requestTimerActive true s in
    Some (s, [signal]).

(** One block taken from the metrics buffer and compressed. *)
Definition pullMetrics (blk : Block) (mb : ringbuffer.Buffer) (s : LoopState W) : LoopState W :=
  let s := zlibWrite (Z.pos (blockLen blk)) (set_metricsBuffer mb s) in
  let s := set_requestBufMetricsets (u64_add (requestBufMetricsets s) 1) s in
  let s := zlibWrite 1 s in
  let s := set_zlibFlushed false s in
  match sentMetrics s with
  | Some _ =>
      (* SendMetrics was called: close the request off so we can inform
         the user when the metrics have been processed. *)
      set_closeRequest true s
  | None => s
  end.

(** One block taken from the trace buffer and compressed. *)
Definition pullTrace (h : Block) (b : ringbuffer.Buffer) (s : LoopState W) : LoopState W :=
  let s := zlibWrite (Z.pos (blockLen h)) (set_buffer b s) in
  let s :=
    match blockTag h with
    | transactionBlockTag =>
        set_requestBufTransactions (u64_add (requestBufTransactions s) 1) s
    | spanBlockTag => set_requestBufSpans (u64_add (requestBufSpans s) 1) s
    | errorBlockTag => set_requestBufErrors (u64_add (requestBufErrors s) 1) s
    | metricsBlockTag => s
    end in
  let s := zlibWrite 1 s in
  set_zlibFlushed false s.

(** [for requestBytesRead+requestBuf.Len() < cfg.requestSize { ... }];
    [None] when the fuel does not reach the end of the [for]. *)
Fixpoint streamBlocks (fuel : nat) (s : LoopState W) : option (LoopState W) :=
  match fuel with
  | O => None
  | S fuel' =>
      if requestBytes s <? requestSize (cfg s) then
        if 0 <? ringbuffer.Len (metricsBuffer s) then
          match ringbuffer.WriteBlockTo (metricsBuffer s) with
          | Some (blk, mb) => streamBlocks fuel' (pullMetrics blk mb s)
          | None => streamBlocks fuel' s
          end
        else if ringbuffer.Len (buffer s) =? 0 then Some s
        else
          match ringbuffer.WriteBlockTo (buffer s) with
          | Some (h, b) => streamBlocks fuel' (pullTrace h b s)
          | None => streamBlocks fuel' s
          end
      else Some s
  end.

(** Fuel that lets [streamBlocks] end: every turn takes a block. *)
Definition streamFuel (s : LoopState W) : nat :=
  S (length (ringbuffer.blocks (metricsBuffer s))
     + length (ringbuffer.blocks (buffer s))).

(** [if !closeRequest || !zlibClosed { for ... ; if !closeRequest { ... } }] *)
Definition streaming (s : LoopState W) : option (LoopState W) :=
  if negb (closeRequest s) || negb (zlibClosed s) then
    match streamBlocks (streamFuel s) s with
    | Some s =>
        if negb (closeRequest s)
        then Some (set_closeRequest (requestSize (cfg s) <=? requestBytes s) s)
        else Some s
    | None => None
    end
  else Some s.

(** [if closeRequest { ... } else if flushRequest && !zlibFlushed { ... }] *)
Definition finishing (s : LoopState W) : LoopState W :=
  if closeRequest s then
    if negb (zlibClosed s) then set_zlibClosed true (zlibClose s) else s
  else if flushRequest s && negb (zlibFlushed s) then
    set_zlibFlushed true (set_flushRequest false (zlibFlush s))
  else s.

Definition zlibHeaderLen : Z := 2.

(** The answer to the transport's pending read. *)
Definition respond (s : LoopState W) : LoopState W * list Effect :=
  match req s with
  | None => (s, [])
  | Some bufLen =>
      if requestBuf s =? 0 then (s, [])
      else if zlibHeaderLen <? requestBytes s then
        let r := buffer_Read (requestBuf s) bufLen in
        let n := read_n r in
        let s := set_requestBuf (read_rest r) s in
        let eof := if closeRequest s && negb (read_EOF r) && (requestBuf s =? 0)
                   then true else read_EOF r in
        let s := set_req None s in
        let s := if 0 <? n
                 then set_requestBytesRead (int_add (requestBytesRead s) n) s
                 else s in
        (s, [Respond n eof])
      else (s, [])
  end.

Inductive IterResult :=
| exited (effs : list Effect)
| looping (s : LoopState W) (effs : list Effect).

(** What the loop does on [<-t.closing], with its deferred calls in the
    order they run. *)
Definition onClosing : list Effect :=
  [cancelContext; CloseRead;
   closeSendStreamRequest; storeInactive; closeClosed; cancelContext].

Definition afterSelect (now : Time) (gatherMetrics : bool) (s : LoopState W)
    (effs : list Effect) : option IterResult :=
  let r := mergeStats s in
  let merged := snd r in
  let r := if gatherMetrics then startGather now (fst r) else (fst r, []) in
  let gathering := snd r in
  match openRequest (fst r) with
  | None => Some (looping (fst r) (effs ++ merged ++ gathering))
  | Some (s, opened) =>
      match streaming s with
      | Some s =>
          let r := respond (finishing s) in
          Some (looping (fst r)
                  (effs ++ merged ++ gathering ++ opened ++ snd r))
      | None => None
      end
  end.

(** One iteration of the [for] of [Tracer.loop]; [None] when the
    iteration does not come to its end (a receive on an empty timer
    channel, or the inner [for] never leaving). *)
Definition loop_iter (now : Time) (c : SelectCase) (s : LoopState W) : option IterResult :=
  match c with
  | caseClosing => Some (exited onClosing)
  | _ =>
      match selectCase now c s with
      | Some (continueLoop, s, effs) => Some (looping s effs)
      | Some (fallthrough gatherMetrics, s, effs) => afterSelect now gatherMetrics s effs
      | None => None
      end
  end.

End Loop.

Arguments IterResult W : clear implicits.

(** ** The goroutines around the loop *)

(** Modelled from the spec: [jitterDuration] (gracePeriod.go is not among
    the sources): [d] plus or minus a random share of [d] of at most [j].
    The draw of [rng.Float64()] is the fraction [u_num/u_den] in [0,1);
    [j] is [j_num/j_den]; the product is cut to a whole number of
    nanoseconds. *)
Definition jitterDuration (d : Duration) (u_num u_den j_num j_den : Z) : Duration :=
  if (d =? 0) || (j_num =? 0) then d
  else d + Z.quot ((2 * u_num * j_num - j_num * u_den) * d) (u_den * j_den).

(** [gracePeriodJitter = 0.1], +/- 10%. *)
Definition gracePeriodJitter : Z * Z := (1, 10).

(** The goroutine that performs the blocking requests: where it stands
    in [for gracePeriod := range sendStreamRequest { ... }]. *)
Inductive SenderState :=
| senderIdle
| senderReceived (gracePeriod : Duration)
| senderGrace (delay : Duration)
| senderSending
| senderResult (err : option SendError)
| senderExited.

(** The delay the goroutine waits before the send it was signalled
    for. *)
Definition sendDelay (gracePeriod : Duration) (u_num u_den : Z) : Duration :=
  if 0 <? gracePeriod
  then jitterDuration gracePeriod u_num u_den (fst gracePeriodJitter) (snd gracePeriodJitter)
  else 0.

(** Modelled from the spec: the reader of internal/iochan (not among the
    sources), a one-slot rendezvous: a [Read] of the transport offers its
    buffer on [C], then waits for the loop's [Respond]; [CloseRead] makes
    every pending and later [Read] return its error. *)
Inductive ReadState :=
| notReading
| offering (bufLen : Z)
| awaiting (bufLen : Z).

(** A cycle started by [Tracer.gatherMetrics]: its timestamp and the
    gatherers that have not returned yet. *)
Record GatherCycle := { gc_timestamp : Time; gc_pending : list MetricsGatherer }.

(** A goroutine inside one of the exported methods. *)
Inductive Thread :=
| newTracerSend (cmd : tracerConfigCommand)
| closeSelect
| closeClosing
| closeWait
| flushSend (flushed : Chan)
| flushWait (flushed : Chan)
| sendMetricsSend (sent : Chan)
| sendMetricsWait (sent : Chan)
| configSend (cmd : tracerConfigCommand)
| returned.

Section SystemState.

Context {W : Type}.

Inductive LoopStatus :=
| loopAbsent
| loopRunning (s : LoopState W)
| loopExited.

Record Sys := mkSys {
  t_closing : bool;
  t_closed : bool;
  t_active : bool;
  t_stats : TracerStats;
  t_events : list tracerEvent;
  loopStatus : LoopStatus;
  ctxDone : bool;
  sendStreamRequestClosed : bool;
  sender : SenderState;
  requestResult : option (option SendError);
  readerClosed : bool;
  reading : ReadState;
  gathers : list GatherCycle;
  gatheredMetrics : bool;
  acks : list Chan;
  threads : list Thread;
  nextChan : Chan;
  panicked : bool
}.

Definition with_t_closing (v : bool) (y : Sys) : Sys :=
  let 'mkSys _ x2 x3 x4 x5 x6 x7 x8 x9 x10 x11 x12 x13 x14 x15 x16 x17 x18
      := y in
  mkSys v x2 x3 x4 x5 x6 x7 x8 x9 x10 x11 x12 x13 x14 x15 x16 x17 x18.
Definition with_t_closed (v : bool) (y : Sys) : Sys :=
  let 'mkSys x1 _ x3 x4 x5 x6 x7 x8 x9 x10 x11 x12 x13 x14 x15 x16 x17 x18
      := y in
  mkSys x1 v x3 x4 x5 x6 x7 x8 x9 x10 x11 x12 x13 x14 x15 x16 x17 x18.
Definition with_t_active (v : bool) (y : Sys) : Sys :=
  let 'mkSys x1 x2 _ x4 x5 x6 x7 x8 x9 x10 x11 x12 x13 x14 x15 x16 x17 x18
      := y in
  mkSys x1 x2 v x4 x5 x6 x7 x8 x9 x10 x11 x12 x13 x14 x15 x16 x17 x18.
Definition with_t_stats (v : TracerStats) (y : Sys) : Sys :=
  let 'mkSys x1 x2 x3 _ x5 x6 x7 x8 x9 x10 x11 x12 x13 x14 x15 x16 x17 x18
      := y in
  mkSys x1 x2 x3 v x5 x6 x7 x8 x9 x10 x11 x12 x13 x14 x15 x16 x17 x18.
Definition with_t_events (v : list tracerEvent) (y : Sys) : Sys :=
  let 'mkSys x1 x2 x3 x4 _ x6 x7 x8 x9 x10 x11 x12 x13 x14 x15 x16 x17 x18
      := y in
  mkSys x1 x2 x3 x4 v x6 x7 x8 x9 x10 x11 x12 x13 x14 x15 x16 x17 x18.
Definition with_loopStatus (v : LoopStatus) (y : Sys) : Sys :=
  let 'mkSys x1 x2 x3 x4 x5 _ x7 x8 x9 x10 x11 x12 x13 x14 x15 x16 x17 x18
      := y in
  mkSys x1 x2 x3 x4 x5 v x7 x8 x9 x10 x11 x12 x13 x14 x15 x16 x17 x18.
Definition with_ctxDone (v : bool) (y : Sys) : Sys :=
  let 'mkSys x1 x2 x3 x4 x5 x6 _ x8 x9 x10 x11 x12 x13 x14 x15 x16 x17 x18
      := y in
  mkSys x1 x2 x3 x4 x5 x6 v x8 x9 x10 x11 x12 x13 x14 x15 x16 x17 x18.
Definition with_sendStreamRequestClosed (v : bool) (y : Sys) : Sys :=
  let 'mkSys x1 x2 x3 x4 x5 x6 x7 _ x9 x10 x11 x12 x13 x14 x15 x16 x17 x18
      := y in
  mkSys x1 x2 x3 x4 x5 x6 x7 v x9 x10 x11 x12 x13 x14 x15 x16 x17 x18.
Definition with_sender (v : SenderState) (y : Sys) : Sys :=
  let 'mkSys x1 x2 x3 x4 x5 x6 x7 x8 _ x10 x11 x12 x13 x14 x15 x16 x17 x18
      := y in
  mkSys x1 x2 x3 x4 x5 x6 x7 x8 v x10 x11 x12 x13 x14 x15 x16 x17 x18.
Definition with_requestResult (v : option (option SendError)) (y : Sys) : Sys :=
  let 'mkSys x1 x2 x3 x4 x5 x6 x7 x8 x9 _ x11 x12 x13 x14 x15 x16 x17 x18 :=
      y in
  mkSys x1 x2 x3 x4 x5 x6 x7 x8 x9 v x11 x12 x13 x14 x15 x16 x17 x18.
Definition with_readerClosed (v : bool) (y : Sys) : Sys :=
  let 'mkSys x1 x2 x3 x4 x5 x6 x7 x8 x9 x10 _ x12 x13 x14 x15 x16 x17 x18 :=
      y in
  mkSys x1 x2 x3 x4 x5 x6 x7 x8 x9 x10 v x12 x13 x14 x15 x16 x17 x18.
Definition with_reading (v : ReadState) (y : Sys) : Sys :=
  let 'mkSys x1 x2 x3 x4 x5 x6 x7 x8 x9 x10 x11 _ x13 x14 x15 x16 x17 x18 :=
      y in
  mkSys x1 x2 x3 x4 x5 x6 x7 x8 x9 x10 x11 v x13 x14 x15 x16 x17 x18.
Definition with_gathers (v : list GatherCycle) (y : Sys) : Sys :=
  let 'mkSys x1 x2 x3 x4 x5 x6 x7 x8 x9 x10 x11 x12 _ x14 x15 x16 x17 x18 :=
      y in
  mkSys x1 x2 x3 x4 x5 x6 x7 x8 x9 x10 x11 x12 v x14 x15 x16 x17 x18.
Definition with_gatheredMetrics (v : bool) (y : Sys) : Sys :=
  let 'mkSys x1 x2 x3 x4 x5 x6 x7 x8 x9 x10 x11 x12 x13 _ x15 x16 x17 x18 :=
      y in
  mkSys x1 x2 x3 x4 x5 x6 x7 x8 x9 x10 x11 x12 x13 v x15 x16 x17 x18.
Definition with_acks (v : list Chan) (y : Sys) : Sys :=
  let 'mkSys x1 x2 x3 x4 x5 x6 x7 x8 x9 x10 x11 x12 x13 x14 _ x16 x17 x18 :=
      y in
  mkSys x1 x2 x3 x4 x5 x6 x7 x8 x9 x10 x11 x12 x13 x14 v x16 x17 x18.
Definition with_threads (v : list Thread) (y : Sys) : Sys :=
  let 'mkSys x1 x2 x3 x4 x5 x6 x7 x8 x9 x10 x11 x12 x13 x14 x15 _ x17 x18 :=
      y in
  mkSys x1 x2 x3 x4 x5 x6 x7 x8 x9 x10 x11 x12 x13 x14 x15 v x17 x18.
Definition with_nextChan (v : Chan) (y : Sys) : Sys :=
  let 'mkSys x1 x2 x3 x4 x5 x6 x7 x8 x9 x10 x11 x12 x13 x14 x15 x16 _ x18 :=
      y in
  mkSys x1 x2 x3 x4 x5 x6 x7 x8 x9 x10 x11 x12 x13 x14 x15 x16 v x18.
Definition with_panicked (v : bool) (y : Sys) : Sys :=
  let 'mkSys x1 x2 x3 x4 x5 x6 x7 x8 x9 x10 x11 x12 x13 x14 x15 x16 x17 _ :=
      y in
  mkSys x1 x2 x3 x4 x5 x6 x7 x8 x9 x10 x11 x12 x13 x14 x15 x16 x17 v.

End SystemState.

Arguments LoopStatus W : clear implicits.
Arguments Sys W : clear implicits.
Arguments with_t_closing {W} v y /.
Arguments with_t_closed {W} v y /.
Arguments with_t_active {W} v y /.
Arguments with_t_stats {W} v y /.
Arguments with_t_events {W} v y /.
Arguments with_loopStatus {W} v y /.
Arguments with_ctxDone {W} v y /.
Arguments with_sendStreamRequestClosed {W} v y /.
Arguments with_sender {W} v y /.
Arguments with_requestResult {W} v y /.
Arguments with_readerClosed {W} v y /.
Arguments with_reading {W} v y /.
Arguments with_gathers {W} v y /.
Arguments with_gatheredMetrics {W} v y /.
Arguments with_acks {W} v y /.
Arguments with_threads {W} v y /.
Arguments with_nextChan {W} v y /.
Arguments with_panicked {W} v y /.

Section System.

Context {W : Type} {ZW : ZlibWriter W}.

Variable nextGracePeriod : Duration -> Duration.

Variable t : TracerParams.


(** *** Effects of an iteration on the rest of the system

    [None]: the loop blocks in the middle of the iteration (a send on
    [sendStreamRequest] with nobody receiving, a send on a caller's
    channel whose one slot is taken). *)
Definition apply_effect (e : Effect) (y : Sys W) : option (Sys W) :=
  match e with
  | cancelContext => Some (with_ctxDone true y)
  | CloseRead => Some (with_reading notReading (with_readerClosed true y))
  | NewReader => Some (with_readerClosed false y)
  | Ack c =>
      if existsb (Nat.eqb c) (acks y) then None
      else Some (with_acks (c :: acks y) y)
  | Accumulate st => Some (with_t_stats (accumulate (t_stats y) st) y)
  | Logf _ _ => Some y
  | gatherMetricsCall ts gs =>
      Some (with_gathers
              (gathers y ++ [{| gc_timestamp := ts; gc_pending := gs |}]) y)
  | sendStreamRequest g =>
      match sender y with
      | senderIdle => Some (with_sender (senderReceived g) y)
      | _ => None
      end
  | Respond _ _ => Some (with_reading notReading y)
  | closeSendStreamRequest => Some (with_sendStreamRequestClosed true y)
  | storeInactive => Some (with_t_active false y)
  | closeClosed => Some (with_t_closed true y)
  end.

Fixpoint apply_effects (effs : list Effect) (y : Sys W) : option (Sys W) :=
  match effs with
  | [] => Some y
  | e :: effs' =>
      match apply_effect e y with
      | Some y' => apply_effects effs' y'
      | None => None
      end
  end.

Definition iter_effects (r : IterResult W) : list Effect :=
  match r with
  | exited effs => effs
  | looping _ effs => effs
  end.

Definition iter_status (r : IterResult W) : LoopStatus W :=
  match r with
  | exited _ => loopExited
  | looping s _ => loopRunning s
  end.

(** What the [select] case takes from the rest of the system. *)
Inductive receive : SelectCase -> Sys W -> Sys W -> Prop :=
| recv_closing : forall y,
    t_closing y = true ->
    receive caseClosing y y
| recv_newTracer : forall y cmd ts1 ts2,
    threads y = ts1 ++ newTracerSend cmd :: ts2 ->
    receive (caseConfigCommand cmd) y (with_threads (ts1 ++ returned :: ts2) y)
| recv_configCommand : forall y cmd ts1 ts2,
    threads y = ts1 ++ configSend cmd :: ts2 ->
    receive (caseConfigCommand cmd) y (with_threads (ts1 ++ returned :: ts2) y)
| recv_event : forall y event rest,
    t_events y = event :: rest ->
    receive (caseEvent event) y (with_t_events rest y)
| recv_requestTimer : forall y,
    receive caseRequestTimer y y
| recv_metricsTimer : forall y,
    receive caseMetricsTimer y y
| recv_forceSendMetrics : forall y c ts1 ts2,
    threads y = ts1 ++ sendMetricsSend c :: ts2 ->
    receive (caseForceSendMetrics c) y
      (with_threads (ts1 ++ sendMetricsWait c :: ts2) y)
| recv_gatheredMetrics : forall y,
    gatheredMetrics y = true ->
    receive caseGatheredMetrics y (with_gatheredMetrics false y)
| recv_forceFlush : forall y c ts1 ts2,
    threads y = ts1 ++ flushSend c :: ts2 ->
    receive (caseForceFlush c (t_events y)) y
      (with_t_events [] (with_threads (ts1 ++ flushWait c :: ts2) y))
| recv_readRequest : forall y bufLen,
    reading y = offering bufLen ->
    receive (caseReadRequest bufLen) y (with_reading (awaiting bufLen) y)
| recv_requestResult : forall y err,
    requestResult y = Some err ->
    receive (caseRequestResult err) y (with_requestResult None y).

Definition stamp (ts : Time) (m : Metrics) : Metrics :=
  {| m_disabled := m_disabled m;
     m_metrics := map (fun e => {| metricLen := metricLen e; Timestamp := ts |})
                      (m_metrics m) |}.

Definition appendMetrics (entries : list Metric) (m : Metrics) : Metrics :=
  {| m_disabled := m_disabled m; m_metrics := m_metrics m ++ entries |}.

(** The snapshot [metrics] is shared by the loop and the gathering
    goroutines. *)
Definition update_metrics (f : Metrics -> Metrics) (st : LoopStatus W) : LoopStatus W :=
  match st with
  | loopRunning s => loopRunning (set_metrics (f (metrics s)) s)
  | _ => st
  end.

Inductive Label :=
| L_enqueue (event : tracerEvent)
| L_loop (now : Time) (c : SelectCase) (effs : list Effect)
| L_requestTimer
| L_metricsTimer
| L_senderDelay (delay : Duration)
| L_SendStream
| L_SendStreamReturns (err : option SendError)
| L_senderResult
| L_senderExit
| L_Read (bufLen : Z)
| L_ReadReturnsEOF
| L_gatherer (g : MetricsGatherer) (entries : list Metric)
| L_gathered (timestamp : Time)
| L_call (th : Thread)
| L_closeSelect
| L_closeClosing
| L_closePanics
| L_return (th : Thread)
| L_Stats (stats : TracerStats)
| L_Active (active : bool).

Definition tracerEventChannelCap : nat := 1000.

(** The calls a goroutine may begin, with the channel it makes. *)
Inductive begins : Sys W -> Thread -> Sys W -> Prop :=
| begins_Close : forall y, begins y closeSelect y
| begins_Flush : forall y,
    begins y (flushSend (nextChan y)) (with_nextChan (S (nextChan y)) y)
| begins_SendMetrics : forall y,
    begins y (sendMetricsSend (nextChan y)) (with_nextChan (S (nextChan y)) y)
| begins_sendConfigCommand : forall y cmd, begins y (configSend cmd) y.

Inductive sys_step : Sys W -> Label -> Sys W -> Prop :=
(* an instrumented goroutine hands a finished record to [t.events] *)
| step_enqueue : forall y event,
    panicked y = false ->
    (length (t_events y) < tracerEventChannelCap)%nat ->
    sys_step y (L_enqueue event) (with_t_events (t_events y ++ [event]) y)
(* one iteration of the loop *)
| step_loop : forall y s now c y1 r y',
    panicked y = false ->
    loopStatus y = loopRunning s ->
    receive c y y1 ->
    loop_iter nextGracePeriod t now c s = Some r ->
    apply_effects (iter_effects r) (with_loopStatus (iter_status r) y1) = Some y' ->
    sys_step y (L_loop now c (iter_effects r)) y'
(* the timers expire *)
| step_requestTimer : forall y s tm,
    panicked y = false ->
    loopStatus y = loopRunning s ->
    timer_fire (requestTimer s) = Some tm ->
    sys_step y L_requestTimer (with_loopStatus (loopRunning (set_requestTimer tm s)) y)
| step_metricsTimer : forall y s tm,
    panicked y = false ->
    loopStatus y = loopRunning s ->
    timer_fire (metricsTimer s) = Some tm ->
    sys_step y L_metricsTimer (with_loopStatus (loopRunning (set_metricsTimer tm s)) y)
(* the sending goroutine *)
| step_senderDelay : forall y g u_num u_den,
    panicked y = false ->
    sender y = senderReceived g ->
    0 <= u_num < u_den ->
    sys_step y (L_senderDelay (sendDelay g u_num u_den))
      (with_sender (senderGrace (sendDelay g u_num u_den)) y)
| step_SendStream : forall y d,
    panicked y = false ->
    sender y = senderGrace d ->
    sys_step y L_SendStream (with_sender senderSending y)
| step_SendStreamReturns : forall y err,
    panicked y = false ->
    sender y = senderSending ->
    sys_step y (L_SendStreamReturns err) (with_sender (senderResult err) y)
| step_senderResult : forall y err,
    panicked y = false ->
    sender y = senderResult err ->
    requestResult y = None ->
    sys_step y L_senderResult
      (with_sender senderIdle (with_requestResult (Some err) y))
| step_senderExit : forall y,
    panicked y = false ->
    sender y = senderIdle ->
    sendStreamRequestClosed y = true ->
    sys_step y L_senderExit (with_sender senderExited y)
(* the transport reads the request body *)
| step_Read : forall y bufLen,
    panicked y = false ->
    reading y = notReading ->
    readerClosed y = false ->
    0 <= bufLen ->
    sys_step y (L_Read bufLen) (with_reading (offering bufLen) y)
| step_ReadReturnsEOF : forall y,
    panicked y = false ->
    readerClosed y = true ->
    sys_step y L_ReadReturnsEOF (with_reading notReading y)
(* the goroutines of a gathering cycle *)
| step_gatherer : forall y g1 cyc g2 p1 g p2 entries,
    panicked y = false ->
    gathers y = g1 ++ cyc :: g2 ->
    gc_pending cyc = p1 ++ g :: p2 ->
    sys_step y (L_gatherer g entries)
      (with_loopStatus (update_metrics (appendMetrics entries) (loopStatus y))
         (with_gathers
            (g1 ++ {| gc_timestamp := gc_timestamp cyc; gc_pending := p1 ++ p2 |} :: g2)
            y))
| step_gathered : forall y g1 cyc g2,
    panicked y = false ->
    gathers y = g1 ++ cyc :: g2 ->
    gc_pending cyc = [] ->
    gatheredMetrics y = false ->
    sys_step y (L_gathered (gc_timestamp cyc))
      (with_gatheredMetrics true
         (with_loopStatus (update_metrics (stamp (gc_timestamp cyc)) (loopStatus y))
            (with_gathers (g1 ++ g2) y)))
(* the exported methods *)
| step_call : forall y th y1,
    panicked y = false ->
    begins y th y1 ->
    sys_step y (L_call th) (with_threads (threads y1 ++ [th]) y1)
| step_closeSelect : forall y ts1 ts2,
    panicked y = false ->
    threads y = ts1 ++ closeSelect :: ts2 ->
    sys_step y L_closeSelect
      (with_threads
         (ts1 ++ (if t_closing y then closeWait else closeClosing) :: ts2) y)
| step_closeClosing : forall y ts1 ts2,
    panicked y = false ->
    threads y = ts1 ++ closeClosing :: ts2 ->
    t_closing y = false ->
    sys_step y L_closeClosing
      (with_t_closing true (with_threads (ts1 ++ closeWait :: ts2) y))
| step_closePanics : forall y ts1 ts2,
    panicked y = false ->
    threads y = ts1 ++ closeClosing :: ts2 ->
    t_closing y = true ->
    sys_step y L_closePanics (with_panicked true y)
| step_closeReturns : forall y ts1 ts2,
    panicked y = false ->
    threads y = ts1 ++ closeWait :: ts2 ->
    t_closed y = true ->
    sys_step y (L_return closeWait) (with_threads (ts1 ++ returned :: ts2) y)
| step_flushClosed : forall y c ts1 ts2,
    panicked y = false ->
    threads y = ts1 ++ flushSend c :: ts2 ->
    t_closed y = true ->
    sys_step y (L_return (flushSend c)) (with_threads (ts1 ++ returned :: ts2) y)
| step_flushFlushed : forall y c ts1 ts2 a1 a2,
    panicked y = false ->
    threads y = ts1 ++ flushWait c :: ts2 ->
    acks y = a1 ++ c :: a2 ->
    sys_step y (L_return (flushWait c))
      (with_acks (a1 ++ a2) (with_threads (ts1 ++ returned :: ts2) y))
(* [<-abort] or [<-t.closed] *)
| step_flushGivesUp : forall y c ts1 ts2,
    panicked y = false ->
    threads y = ts1 ++ flushWait c :: ts2 ->
    sys_step y (L_return (flushWait c)) (with_threads (ts1 ++ returned :: ts2) y)
| step_sendMetricsClosed : forall y c ts1 ts2,
    panicked y = false ->
    threads y = ts1 ++ sendMetricsSend c :: ts2 ->
    t_closed y = true ->
    sys_step y (L_return (sendMetricsSend c)) (with_threads (ts1 ++ returned :: ts2) y)
| step_sendMetricsSent : forall y c ts1 ts2 a1 a2,
    panicked y = false ->
    threads y = ts1 ++ sendMetricsWait c :: ts2 ->
    acks y = a1 ++ c :: a2 ->
    sys_step y (L_return (sendMetricsWait c))
      (with_acks (a1 ++ a2) (with_threads (ts1 ++ returned :: ts2) y))
| step_sendMetricsGivesUp : forall y c ts1 ts2,
    panicked y = false ->
    threads y = ts1 ++ sendMetricsWait c :: ts2 ->
    sys_step y (L_return (sendMetricsWait c)) (with_threads (ts1 ++ returned :: ts2) y)
| step_configClosed : forall y cmd ts1 ts2,
    panicked y = false ->
    threads y = ts1 ++ configSend cmd :: ts2 ->
    t_closing y = true \/ t_closed y = true ->
    sys_step y (L_return (configSend cmd)) (with_threads (ts1 ++ returned :: ts2) y)
| step_Stats : forall y,
    panicked y = false ->
    sys_step y (L_Stats (t_stats y)) y
| step_Active : forall y,
    panicked y = false ->
    sys_step y (L_Active (t_active y)) y.

(** [newTracer]: an inactive tracer has [closed] closed and no loop; an
    active one has the loop started and its first configuration command
    on the way. *)
Definition newTracer (active : bool) (cmd : tracerConfigCommand) : Sys W :=
  {| t_closing := false;
     t_closed := negb active;
     t_active := active;
     t_stats := zeroStats;
     t_events := [];
     loopStatus := if active then loopRunning (initialLoop t) else loopAbsent;
     ctxDone := false;
     sendStreamRequestClosed := false;
     sender := if active then senderIdle else senderExited;
     requestResult := None;
     readerClosed := false;
     reading := notReading;
     gathers := [];
     gatheredMetrics := false;
     acks := [];
     threads := if active then [newTracerSend cmd] else [];
     nextChan := O;
     panicked := false |}.

Inductive steps : Sys W -> list Label -> Sys W -> Prop :=
| steps_nil : forall y, steps y [] y
| steps_snoc : forall y ls y1 l y2,
    steps y ls y1 -> sys_step y1 l y2 -> steps y (ls ++ [l]) y2.

Definition reachable (y : Sys W) : Prop :=
  exists active cmd ls, steps (newTracer active cmd) ls y.

End System.

(** ** A sample compressor

    A writer in the manner of [compress/flate] on small inputs: the two
    header bytes go out with the first write, the data written is held
    back until [Flush] or [Close], which emit it as one stored block
    (five bytes of framing); [Close] adds the final block and the
    four-byte checksum. *)
Record HoldingWriter := { wroteHeader : bool; held : Z }.

Definition headerBytes (w : HoldingWriter) : N := if wroteHeader w then 0%N else 2%N.

#[export] Instance holdingWriter : ZlibWriter HoldingWriter := {
  zlib_NewWriterLevel := {| wroteHeader := false; held := 0 |};
  zlib_Reset := fun _ => {| wroteHeader := false; held := 0 |};
  zlib_Write := fun w n =>
    ({| wroteHeader := true; held := held w + n |}, headerBytes w);
  zlib_Flush := fun w =>
    ({| wroteHeader := true; held := 0 |},
     (headerBytes w + Z.to_N (held w) + 5)%N);
  zlib_Close := fun w =>
    ({| wroteHeader := true; held := 0 |},
     (headerBytes w + Z.to_N (held w) + 5 + 5 + 4)%N)
}.

(** Modelled from the spec: a doubling grace period, capped; the first
    failure after a success asks for one second. *)
Definition doublingGracePeriod (maxGracePeriod : Duration) (p : Duration) : Duration :=
  if p <=? 0 then Z.min 1000000000 maxGracePeriod
  else Z.min (2 * p) maxGracePeriod.

(** ** Runs of the loop alone *)

Section Runs.

Context {W : Type} {ZW : ZlibWriter W}.

Variable nextGracePeriod : Duration -> Duration.

Variable t : TracerParams.

(** The loop fed a list of [select] cases, with the effects of all the
    iterations; nothing is left of the list once the loop has
    returned. *)
Fixpoint run (cases : list (Time * SelectCase)) (s : LoopState W)
    : option (IterResult W) :=
  match cases with
  | [] => Some (looping s [])
  | (now, c) :: cases' =>
      match loop_iter nextGracePeriod t now c s with
      | Some (looping s' effs) =>
          match run cases' s' with
          | Some (looping s'' effs') => Some (looping s'' (effs ++ effs'))
          | Some (exited effs') => Some (exited (effs ++ effs'))
          | None => None
          end
      | Some (exited effs) => Some (exited effs)
      | None => None
      end
  end.

End Runs.

(** * Properties *)

(** Case analysis on the innermost condition the goal is stuck on. *)
Ltac inner_destruct :=
  match goal with
  | |- context [match ?x with _ => _ end] =>
      lazymatch x with
      | context [match _ with _ => _ end] => fail
      | _ => destruct x eqn:?
      end
  end.

Ltac split_ands :=
  repeat match goal with H : _ /\ _ |- _ => destruct H end.

(** ** Counters *)

Lemma u64_add_range (a b : Z) : is_u64 (u64_add a b).
Proof. unfold is_u64, u64_add, u64_mod. apply Z.mod_pos_bound. lia. Qed.

Lemma u64_add_0_r (a : Z) : is_u64 a -> u64_add a 0 = a.
Proof.
  unfold is_u64, u64_add, u64_mod. intros H.
  rewrite Z.add_0_r. apply Z.mod_small. exact H.
Qed.

Lemma u64_add_0_l (a : Z) : is_u64 a -> u64_add 0 a = a.
Proof.
  unfold is_u64, u64_add, u64_mod. intros H.
  rewrite Z.add_0_l. apply Z.mod_small. exact H.
Qed.

Lemma u64_add_small (a b : Z) :
  0 <= a -> 0 <= b -> a + b < u64_mod -> u64_add a b = a + b.
Proof. intros Ha Hb H. unfold u64_add. apply Z.mod_small. lia. Qed.

Lemma is_u64_0 : is_u64 0.
Proof. unfold is_u64, u64_mod. lia. Qed.

Lemma is_u64_1 : is_u64 1.
Proof. unfold is_u64, u64_mod. lia. Qed.

Lemma isZero_zeroStats (s : TracerStats) : isZero s = true -> s = zeroStats.
Proof.
  destruct s as [[e] a b c d f g]. unfold isZero, zeroStats. simpl.
  rewrite !andb_true_iff, !Z.eqb_eq. intros H.
  repeat match goal with H : _ /\ _ |- _ => destruct H end. subst. reflexivity.
Qed.

Lemma isZero_refl : isZero zeroStats = true.
Proof. reflexivity. Qed.

Lemma accumulate_zeroStats (a : TracerStats) :
  stats_wf a -> accumulate a zeroStats = a.
Proof.
  destruct a as [[e] a b c d f g]. unfold stats_wf, accumulate. simpl.
  intros H. repeat match goal with H : _ /\ _ |- _ => destruct H end.
  rewrite !u64_add_0_r by assumption. reflexivity.
Qed.

Lemma accumulate_wf (a b : TracerStats) : stats_wf (accumulate a b).
Proof. unfold stats_wf, accumulate. simpl. repeat split; apply u64_add_range. Qed.

Lemma stats_wf_zeroStats : stats_wf zeroStats.
Proof. unfold stats_wf. simpl. repeat split; apply is_u64_0. Qed.

(** ** What the effects of an iteration add to the shared statistics *)

Definition merge_effect (shared : TracerStats) (e : Effect) : TracerStats :=
  match e with
  | Accumulate st => accumulate shared st
  | _ => shared
  end.

Definition merge_effects (effs : list Effect) (shared : TracerStats) : TracerStats :=
  fold_left merge_effect effs shared.

Lemma merge_effects_app (e1 e2 : list Effect) (shared : TracerStats) :
  merge_effects (e1 ++ e2) shared = merge_effects e2 (merge_effects e1 shared).
Proof. unfold merge_effects. apply fold_left_app. Qed.

Definition no_Accumulate (effs : list Effect) : Prop :=
  forall st, ~ In (Accumulate st) effs.

Lemma merge_effects_none (effs : list Effect) (shared : TracerStats) :
  no_Accumulate effs -> merge_effects effs shared = shared.
Proof.
  unfold no_Accumulate. revert shared.
  induction effs as [|e effs IH]; intros shared H; [reflexivity|].
  simpl. destruct e; simpl;
    try (apply IH; intros st Hin; apply (H st); right; exact Hin).
  exfalso. apply (H s). left. reflexivity.
Qed.

Section LoopFacts.

Context {W : Type} {ZW : ZlibWriter W}.

Variable nextGracePeriod : Duration -> Duration.

Variable t : TracerParams.

Lemma merge_effects_mergeStats (s s' : LoopState W) (m : list Effect)
    (shared : TracerStats) :
  mergeStats s = (s', m) -> stats_wf shared ->
  merge_effects m shared = accumulate shared (stats s) /\ stats s' = zeroStats.
Proof.
  unfold mergeStats. intros H Hwf.
  destruct (isZero (stats s)) eqn:Hz; inversion H; subst; clear H.
  - apply isZero_zeroStats in Hz. split; [|exact Hz]. rewrite Hz.
    rewrite accumulate_zeroStats by assumption. reflexivity.
  - split; [reflexivity | destruct s; reflexivity].
Qed.


(** *** What holds of the loop's variables at the head of the [for] *)

Definition counters_ok (s : LoopState W) : Prop :=
  is_u64 (requestBufTransactions s) /\ is_u64 (requestBufSpans s)
  /\ is_u64 (requestBufErrors s) /\ is_u64 (requestBufMetricsets s).

(** The request timer runs or has a value waiting exactly while
    [requestTimerActive] is set. *)
Definition requestTimer_ok (s : LoopState W) : Prop :=
  if requestTimerActive s
  then (armed (requestTimer s) <> None /\ pending (requestTimer s) = false)
       \/ (armed (requestTimer s) = None /\ pending (requestTimer s) = true)
  else requestTimer s = idleTimer.

Definition metricsTimer_ok (s : LoopState W) : Prop :=
  metricsTimerStart s <> None ->
  armed (metricsTimer s) <> None \/ pending (metricsTimer s) = true.

(** What the [select] cases rely on and keep. *)
Definition select_ok (s : LoopState W) : Prop :=
  counters_ok s /\ requestTimer_ok s /\ metricsTimer_ok s
  /\ (requestActive s = false -> requestTimerActive s = false).

Definition loop_ok (s : LoopState W) : Prop :=
  stats s = zeroStats /\ select_ok s.

Lemma timer_stopDrain_requestTimer (s : LoopState W) :
  requestTimer_ok s -> requestTimerActive s = true ->
  timer_stopDrain (requestTimer s) = Some idleTimer.
Proof.
  unfold requestTimer_ok. intros H Ha. rewrite Ha in H.
  destruct (requestTimer s) as [a p]. simpl in H.
  unfold timer_stopDrain, timer_Stop, timer_recv. simpl.
  destruct H as [[Ha1 Hp]|[Ha1 Hp]]; subst.
  - destruct a; [reflexivity | congruence].
  - reflexivity.
Qed.


Lemma timer_stopDrain_metricsTimer (s : LoopState W) :
  metricsTimer_ok s -> metricsTimerStart s <> None ->
  exists tm, timer_stopDrain (metricsTimer s) = Some tm.
Proof.
  unfold metricsTimer_ok. intros H Hs. specialize (H Hs).
  destruct (metricsTimer s) as [a p]. simpl in H.
  unfold timer_stopDrain, timer_Stop, timer_recv. simpl.
  destruct a as [d|].
  - eexists. reflexivity.
  - destruct H as [H|H]; [congruence|]. subst. eexists. reflexivity.
Qed.

End LoopFacts.

Section Streaming.

Context {W : Type} {ZW : ZlibWriter W}.

(** ** The inner [for]: blocks to the compressor *)

(** The compressor fed a sequence of writes: the writer left and the
    number of bytes it appended to [requestBuf] in all. *)
Fixpoint zlib_Writes (w : W) (ns : list Z) : W * Z :=
  match ns with
  | [] => (w, 0)
  | n :: ns' =>
      let '(w1, out1) := zlib_Write w n in
      let '(w2, out2) := zlib_Writes w1 ns' in
      (w2, Z.of_N out1 + out2)
  end.

(** A block goes to the compressor followed by a newline. *)
Definition blockWrites (bs : list Block) : list Z :=
  flat_map (fun b => [Z.pos (blockLen b); 1]) bs.

(** The length of the blocks before compression. *)
Definition uncompressedLen (bs : list Block) : Z :=
  fold_right (fun b n => Z.pos (blockLen b) + 1 + n) 0 bs.

Lemma zlib_Writes_app (w : W) (l1 l2 : list Z) :
  zlib_Writes w (l1 ++ l2)
  = let '(w1, o1) := zlib_Writes w l1 in
    let '(w2, o2) := zlib_Writes w1 l2 in (w2, o1 + o2).
Proof.
  revert w. induction l1 as [|n l1 IH]; intros w; simpl.
  - destruct (zlib_Writes w l2). reflexivity.
  - destruct (zlib_Write w n) as [w1 o1]. rewrite IH.
    destruct (zlib_Writes w1 l1) as [w2 o2].
    destruct (zlib_Writes w2 l2) as [w3 o3]. f_equal. lia.
Qed.

(** What the variables the inner [for] does not touch keep. *)
Definition same_request (s s' : LoopState W) : Prop :=
  cfg s' = cfg s /\ requestBytesRead s' = requestBytesRead s
  /\ sentMetrics s' = sentMetrics s /\ requestActive s' = requestActive s
  /\ zlibClosed s' = zlibClosed s /\ flushRequest s' = flushRequest s
  /\ stats s' = stats s /\ gracePeriod s' = gracePeriod s
  /\ flushed s' = flushed s /\ req s' = req s
  /\ requestTimer s' = requestTimer s
  /\ requestTimerActive s' = requestTimerActive s
  /\ metricsTimer s' = metricsTimer s
  /\ metricsTimerStart s' = metricsTimerStart s
  /\ gatheringMetrics s' = gatheringMetrics s
  /\ metrics s' = metrics s /\ metadata s' = metadata s.

Lemma same_request_refl (s : LoopState W) : same_request s s.
Proof. unfold same_request. repeat split. Qed.

Lemma same_request_trans (s1 s2 s3 : LoopState W) :
  same_request s1 s2 -> same_request s2 s3 -> same_request s1 s3.
Proof.
  unfold same_request. intros H1 H2.
  repeat match goal with H : _ /\ _ |- _ => destruct H end.
  repeat split; congruence.
Qed.

Lemma pullMetrics_spec (blk : Block) (mb : ringbuffer.Buffer) (s : LoopState W) :
  let s' := pullMetrics blk mb s in
  same_request s s'
  /\ metricsBuffer s' = mb /\ buffer s' = buffer s
  /\ zlib_Writes (zlibWriter s) (blockWrites [blk])
     = (zlibWriter s', requestBuf s' - requestBuf s)
  /\ closeRequest s'
     = closeRequest s || match sentMetrics s with Some _ => true | None => false end
  /\ requestBufMetricsets s' = u64_add (requestBufMetricsets s) 1
  /\ requestBufTransactions s' = requestBufTransactions s
  /\ requestBufSpans s' = requestBufSpans s
  /\ requestBufErrors s' = requestBufErrors s.
Proof.
  unfold pullMetrics, zlibWrite, same_request. destruct s; cbn.
  match goal with
  | |- context [zlib_Write ?w ?n] => destruct (zlib_Write w n) as [w1 o1]
  end. cbn.
  destruct (zlib_Write w1 1) as [w2 o2]. cbn.
  match goal with
  | |- context [match ?o with Some _ => _ | None => _ end] => destruct o
  end; cbn; repeat split; try reflexivity; try (f_equal; lia);
    match goal with |- context [?b || _] => destruct b end; reflexivity.
Qed.

Lemma pullTrace_spec (h : Block) (b : ringbuffer.Buffer) (s : LoopState W) :
  let s' := pullTrace h b s in
  same_request s s'
  /\ metricsBuffer s' = metricsBuffer s /\ buffer s' = b
  /\ zlib_Writes (zlibWriter s) (blockWrites [h])
     = (zlibWriter s', requestBuf s' - requestBuf s)
  /\ closeRequest s' = closeRequest s
  /\ requestBufMetricsets s' = requestBufMetricsets s
  /\ requestBufTransactions s'
     = match blockTag h with
       | transactionBlockTag => u64_add (requestBufTransactions s) 1
       | _ => requestBufTransactions s
       end
  /\ requestBufSpans s'
     = match blockTag h with
       | spanBlockTag => u64_add (requestBufSpans s) 1
       | _ => requestBufSpans s
       end
  /\ requestBufErrors s'
     = match blockTag h with
       | errorBlockTag => u64_add (requestBufErrors s) 1
       | _ => requestBufErrors s
       end.
Proof.
  unfold pullTrace, zlibWrite, same_request. destruct s; cbn.
  match goal with
  | |- context [zlib_Write ?w ?n] => destruct (zlib_Write w n) as [w1 o1]
  end. cbn.
  destruct (blockTag h); cbn;
    destruct (zlib_Write w1 1) as [w2 o2]; cbn;
    repeat split; try reflexivity; f_equal; lia.
Qed.

Lemma Len_pos_blocks (b : ringbuffer.Buffer) :
  ringbuffer.Len b <> 0 -> ringbuffer.blocks b <> [].
Proof. unfold ringbuffer.Len. intros H Hb. rewrite Hb in H. apply H. reflexivity. Qed.

Lemma bytes_cons (b : Block) (bs : list Block) :
  ringbuffer.bytes (b :: bs) = Z.pos (blockLen b) + ringbuffer.bytes bs.
Proof. reflexivity. Qed.

Lemma bytes_nonneg (bs : list Block) : 0 <= ringbuffer.bytes bs.
Proof.
  induction bs as [|b bs IH]; [simpl; lia|]. rewrite bytes_cons. lia.
Qed.

Lemma Len_zero_blocks (b : ringbuffer.Buffer) :
  ringbuffer.Len b = 0 -> ringbuffer.blocks b = [].
Proof.
  unfold ringbuffer.Len. destruct (ringbuffer.blocks b) as [|x l]; [reflexivity|].
  rewrite bytes_cons. pose proof (bytes_nonneg l). lia.
Qed.

(** With a turn of fuel for every buffered block and one more, the
    inner [for] ends. *)
Lemma streamBlocks_total (fuel : nat) (s : LoopState W) :
  (length (ringbuffer.blocks (metricsBuffer s))
   + length (ringbuffer.blocks (buffer s)) < fuel)%nat ->
  exists s', streamBlocks fuel s = Some s'.
Proof.
  revert s. induction fuel as [|fuel IH]; intros s Hlt; [lia|].
  simpl.
  destruct (requestBytes s <? requestSize (cfg s)); [|eexists; reflexivity].
  destruct (0 <? ringbuffer.Len (metricsBuffer s)) eqn:Hm.
  - apply Z.ltb_lt in Hm.
    unfold ringbuffer.WriteBlockTo.
    destruct (ringbuffer.blocks (metricsBuffer s)) as [|blk rest] eqn:Hb.
    + exfalso. apply (Len_pos_blocks (metricsBuffer s)); [lia | exact Hb].
    + apply IH.
      destruct (pullMetrics_spec blk
                  {| ringbuffer.capacity := ringbuffer.capacity (metricsBuffer s);
                     ringbuffer.blocks := rest |} s) as [_ [Hmb [Hbb _]]].
      rewrite Hmb, Hbb. simpl in *. lia.
  - destruct (ringbuffer.Len (buffer s) =? 0) eqn:Hz; [eexists; reflexivity|].
    apply Z.eqb_neq in Hz.
    unfold ringbuffer.WriteBlockTo.
    destruct (ringbuffer.blocks (buffer s)) as [|h rest] eqn:Hb.
    + exfalso. apply (Len_pos_blocks (buffer s)); assumption.
    + apply IH.
      destruct (pullTrace_spec h
                  {| ringbuffer.capacity := ringbuffer.capacity (buffer s);
                     ringbuffer.blocks := rest |} s) as [_ [Hmb [Hbb _]]].
      rewrite Hmb, Hbb. simpl in *. lia.
Qed.


Definition isSome {A : Type} (o : option A) : bool :=
  match o with Some _ => true | None => false end.

Definition isNil {A : Type} (l : list A) : bool :=
  match l with [] => true | _ => false end.

(** The quantity compared with [cfg.requestSize] once the compressor
    has taken the blocks [done] of this turn of the loop. *)
Definition requestBytesAfter (s : LoopState W) (done : list Block) : Z :=
  int_add (requestBytesRead s)
    (requestBuf s + snd (zlib_Writes (zlibWriter s) (blockWrites done))).

Lemma requestBytesAfter_nil (s : LoopState W) :
  requestBytesAfter s [] = requestBytes s.
Proof.
  unfold requestBytesAfter, requestBytes. simpl. rewrite Z.add_0_r. reflexivity.
Qed.

Lemma zlib_Writes_cons_block (w : W) (b : Block) (bs : list Block) (w1 : W) (o1 : Z) :
  zlib_Writes w (blockWrites [b]) = (w1, o1) ->
  zlib_Writes w (blockWrites (b :: bs))
  = (fst (zlib_Writes w1 (blockWrites bs)),
     o1 + snd (zlib_Writes w1 (blockWrites bs))).
Proof.
  intros H.
  change (blockWrites (b :: bs)) with (blockWrites [b] ++ blockWrites bs).
  rewrite zlib_Writes_app, H.
  destruct (zlib_Writes w1 (blockWrites bs)). reflexivity.
Qed.

Lemma requestBytesAfter_cons (s s1 : LoopState W) (b : Block) (done : list Block) :
  zlib_Writes (zlibWriter s) (blockWrites [b])
  = (zlibWriter s1, requestBuf s1 - requestBuf s) ->
  requestBytesRead s1 = requestBytesRead s ->
  requestBytesAfter s (b :: done) = requestBytesAfter s1 done.
Proof.
  intros Hw Hr. unfold requestBytesAfter.
  rewrite (zlib_Writes_cons_block _ _ _ _ _ Hw), Hr. simpl. f_equal. lia.
Qed.

(** What the inner [for] has done when it ends: it took a prefix [pm]
    of the metrics buffer and, the metrics buffer empty, a prefix [pt] of
    the trace buffer, each block while the bytes the compressor had put
    out so far for the request were below [cfg.requestSize]. *)
Lemma streamBlocks_spec (fuel : nat) (s s' : LoopState W) :
  streamBlocks fuel s = Some s' ->
  exists pm pt,
    ringbuffer.blocks (metricsBuffer s) = pm ++ ringbuffer.blocks (metricsBuffer s')
    /\ ringbuffer.blocks (buffer s) = pt ++ ringbuffer.blocks (buffer s')
    /\ (pt <> [] -> ringbuffer.blocks (metricsBuffer s') = [])
    /\ zlib_Writes (zlibWriter s) (blockWrites (pm ++ pt))
       = (zlibWriter s', requestBuf s' - requestBuf s)
    /\ (requestSize (cfg s) <= requestBytes s'
        \/ (ringbuffer.blocks (metricsBuffer s') = []
            /\ ringbuffer.blocks (buffer s') = []))
    /\ (forall done b rest, pm ++ pt = done ++ b :: rest ->
          requestBytesAfter s done < requestSize (cfg s))
    /\ closeRequest s' = closeRequest s || (isSome (sentMetrics s) && negb (isNil pm))
    /\ same_request s s'.
Proof.
  revert s. induction fuel as [|fuel IH]; intros s Hs; [discriminate|].
  simpl in Hs.
  destruct (requestBytes s <? requestSize (cfg s)) eqn:Hlt.
  2:{ inversion Hs; subst. exists [], []. simpl.
      apply Z.ltb_ge in Hlt.
      rewrite Z.sub_diag, andb_false_r, orb_false_r.
      split; [reflexivity|]. split; [reflexivity|]. split; [tauto|].
      split; [reflexivity|]. split; [left; exact Hlt|].
      split; [intros done b rest H; destruct done; discriminate|].
      split; [reflexivity | apply same_request_refl]. }
  apply Z.ltb_lt in Hlt.
  destruct (0 <? ringbuffer.Len (metricsBuffer s)) eqn:Hm.
  - apply Z.ltb_lt in Hm. unfold ringbuffer.WriteBlockTo in Hs.
    destruct (ringbuffer.blocks (metricsBuffer s)) as [|blk rest] eqn:Hb.
    { exfalso. apply (Len_pos_blocks (metricsBuffer s)); [lia | exact Hb]. }
    destruct (pullMetrics_spec blk
                {| ringbuffer.capacity := ringbuffer.capacity (metricsBuffer s);
                   ringbuffer.blocks := rest |} s)
      as [Hsame [Hmb [Hbb [Hw [Hcl _]]]]].
    destruct (IH _ Hs) as [pm [pt [H1 [H2 [H3 [H4 [H5 [H6 [H7 H8]]]]]]]]].
    rewrite Hmb in H1. simpl in H1. rewrite Hbb in H2.
    exists (blk :: pm), pt.
    assert (Hcfg : cfg (pullMetrics blk
                {| ringbuffer.capacity := ringbuffer.capacity (metricsBuffer s);
                   ringbuffer.blocks := rest |} s) = cfg s) by apply Hsame.
    assert (Hread : requestBytesRead (pullMetrics blk
                {| ringbuffer.capacity := ringbuffer.capacity (metricsBuffer s);
                   ringbuffer.blocks := rest |} s) = requestBytesRead s)
      by apply Hsame.
    assert (Hsent : sentMetrics (pullMetrics blk
                {| ringbuffer.capacity := ringbuffer.capacity (metricsBuffer s);
                   ringbuffer.blocks := rest |} s) = sentMetrics s)
      by apply Hsame.
    split; [|split; [|split; [|split; [|split; [|split; [|split]]]]]].
    + simpl. rewrite H1. reflexivity.
    + exact H2.
    + exact H3.
    + change ((blk :: pm) ++ pt) with (blk :: (pm ++ pt)).
      rewrite (zlib_Writes_cons_block _ _ _ _ _ Hw), H4. simpl. f_equal. lia.
    + rewrite Hcfg in H5. exact H5.
    + intros done b rest' Heq. destruct done as [|d done].
      * rewrite requestBytesAfter_nil. exact Hlt.
      * simpl in Heq. injection Heq as Hd Hrest. subst d.
        specialize (H6 done b rest' Hrest). rewrite Hcfg in H6.
        rewrite (requestBytesAfter_cons _ _ _ _ Hw Hread). exact H6.
    + rewrite H7, Hcl, Hsent. simpl.
      destruct (closeRequest s), (sentMetrics s), pm; reflexivity.
    + eapply same_request_trans; eassumption.
  - apply Z.ltb_ge in Hm.
    assert (Hmnil : ringbuffer.blocks (metricsBuffer s) = []).
    { apply Len_zero_blocks. pose proof (bytes_nonneg (ringbuffer.blocks (metricsBuffer s))).
      unfold ringbuffer.Len in *. lia. }
    destruct (ringbuffer.Len (buffer s) =? 0) eqn:Hz.
    { inversion Hs; subst. apply Z.eqb_eq in Hz. exists [], []. simpl.
      rewrite Z.sub_diag, andb_false_r, orb_false_r.
      split; [reflexivity|]. split; [reflexivity|].
      split; [tauto|]. split; [reflexivity|].
      split; [right; split; [exact Hmnil | apply Len_zero_blocks; exact Hz]|].
      split; [intros done b rest H; destruct done; discriminate|].
      split; [reflexivity | apply same_request_refl]. }
    apply Z.eqb_neq in Hz. unfold ringbuffer.WriteBlockTo in Hs.
    destruct (ringbuffer.blocks (buffer s)) as [|h rest] eqn:Hb.
    { exfalso. apply (Len_pos_blocks (buffer s)); assumption. }
    destruct (pullTrace_spec h
                {| ringbuffer.capacity := ringbuffer.capacity (buffer s);
                   ringbuffer.blocks := rest |} s)
      as [Hsame [Hmb [Hbb [Hw [Hcl _]]]]].
    destruct (IH _ Hs) as [pm [pt [H1 [H2 [H3 [H4 [H5 [H6 [H7 H8]]]]]]]]].
    rewrite Hmb, Hmnil in H1. rewrite Hbb in H2. simpl in H2.
    assert (Hpm : pm = []).
    { destruct pm; [reflexivity | discriminate]. }
    subst pm. simpl in H1.
    exists [], (h :: pt).
    assert (Hcfg : cfg (pullTrace h
                {| ringbuffer.capacity := ringbuffer.capacity (buffer s);
                   ringbuffer.blocks := rest |} s) = cfg s) by apply Hsame.
    assert (Hread : requestBytesRead (pullTrace h
                {| ringbuffer.capacity := ringbuffer.capacity (buffer s);
                   ringbuffer.blocks := rest |} s) = requestBytesRead s)
      by apply Hsame.
    split; [|split; [|split; [|split; [|split; [|split; [|split]]]]]].
    + rewrite Hmnil. exact H1.
    + simpl. rewrite H2. reflexivity.
    + intros _. symmetry. exact H1.
    + simpl app in *.
      rewrite (zlib_Writes_cons_block _ _ _ _ _ Hw), H4. simpl. f_equal. lia.
    + rewrite Hcfg in H5. exact H5.
    + intros done b rest' Heq. destruct done as [|d done].
      * rewrite requestBytesAfter_nil. exact Hlt.
      * simpl in Heq. injection Heq as Hd Hrest. subst d.
        specialize (H6 done b rest' Hrest). rewrite Hcfg in H6.
        rewrite (requestBytesAfter_cons _ _ _ _ Hw Hread). exact H6.
    + rewrite H7, Hcl. simpl. rewrite !andb_false_r. reflexivity.
    + eapply same_request_trans; eassumption.
Qed.

End Streaming.

Section RequestResult.

Context {W : Type} {ZW : ZlibWriter W}.

Variable nextGracePeriod : Duration -> Duration.

Variable t : TracerParams.

(** ** The result of a send *)

(** The request lifecycle back at Idle. *)
Definition request_idle (s : LoopState W) : Prop :=
  requestActive s = false /\ requestBytesRead s = 0 /\ requestBuf s = 0
  /\ requestBufTransactions s = 0 /\ requestBufSpans s = 0
  /\ requestBufErrors s = 0 /\ requestBufMetricsets s = 0
  /\ closeRequest s = false /\ flushRequest s = false /\ req s = None
  /\ requestTimerActive s = false /\ requestTimer s = idleTimer.

(** The lines an iteration logs. *)
Fixpoint logged (effs : list Effect) : list (Severity * LogLine) :=
  match effs with
  | [] => []
  | Logf sev line :: effs' => (sev, line) :: logged effs'
  | _ :: effs' => logged effs'
  end.

Lemma addSent_accumulate (shared : TracerStats) (tx sp er : Z) :
  stats_wf shared -> is_u64 tx -> is_u64 sp -> is_u64 er ->
  accumulate shared (addSent zeroStats tx sp er) = addSent shared tx sp er.
Proof.
  intros Hwf Htx Hsp Her. destruct shared as [[e] a b c d f g].
  unfold stats_wf in Hwf. simpl in Hwf.
  repeat match goal with H : _ /\ _ |- _ => destruct H end.
  unfold accumulate, addSent. simpl.
  rewrite !u64_add_0_l, !u64_add_0_r by assumption. reflexivity.
Qed.

Lemma incSendStream_accumulate (shared : TracerStats) :
  stats_wf shared ->
  accumulate shared (incSendStream zeroStats) = incSendStream shared.
Proof.
  intros Hwf. destruct shared as [[e] a b c d f g].
  unfold stats_wf in Hwf. simpl in Hwf.
  repeat match goal with H : _ /\ _ |- _ => destruct H end.
  unfold accumulate, incSendStream. simpl.
  rewrite !u64_add_0_r by assumption.
  rewrite (u64_add_0_l 1) by apply is_u64_1. reflexivity.
Qed.

Lemma addSent_zero (shared : TracerStats) :
  stats_wf shared -> addSent shared 0 0 0 = shared.
Proof.
  intros Hwf. destruct shared as [[e] a b c d f g].
  unfold stats_wf in Hwf. simpl in Hwf.
  repeat match goal with H : _ /\ _ |- _ => destruct H end.
  unfold addSent. simpl. rewrite !u64_add_0_r by assumption. reflexivity.
Qed.


(** A failed send. *)
Lemma onRequestResult_failure (s : LoopState W) (shared : TracerStats)
    (e : SendError) :
  loop_ok s -> stats_wf shared ->
  exists s' effs,
    onRequestResult nextGracePeriod (Some e) s = Some (fallthrough false, s', effs)
    /\ merge_effects effs shared = incSendStream shared
    /\ stats s' = zeroStats
    /\ gracePeriod s' = nextGracePeriod (gracePeriod s)
    /\ logged effs
       = match cfg_logger (cfg s) with
         | Some _ =>
             [(failureLogf e,
               requestFailedLine e (nextGracePeriod (gracePeriod s)))]
         | None => []
         end
    /\ (forall c, flushed s = Some c -> In (Ack c) effs)
    /\ flushed s' = None
    /\ request_idle s'.
Proof.
  intros [Hst [Hc [Ht [Hm Hi]]]] Hwf.
  pose proof (timer_stopDrain_requestTimer s Ht) as Hd.
  pose proof (incSendStream_accumulate shared Hwf) as Hadd.
  unfold requestTimer_ok in Ht.
  unfold onRequestResult, requestOutcome, mergeStats, ackSentMetrics, ackFlushed,
    resetRequest, request_idle.
  destruct s; cbn -[timer_stopDrain] in *. subst.
  change (isZero (incSendStream zeroStats)) with false. cbn -[timer_stopDrain].
  repeat (inner_destruct; cbn -[timer_stopDrain]).
  all: try (specialize (Hd eq_refl));
    try discriminate Hd; try (injection Hd as Hd; subst);
    try subst.
  all: do 2 eexists; (split; [reflexivity|]); cbn;
    unfold merge_effects; cbn.
  all: repeat match goal with |- _ /\ _ => split end;
    try reflexivity; try assumption; try discriminate.
  all: intros c' Hcs; inversion Hcs; subst; cbn; tauto.
Qed.

End RequestResult.

Section Iteration.

Context {W : Type} {ZW : ZlibWriter W}.

Variable nextGracePeriod : Duration -> Duration.

Variable t : TracerParams.

(** ** The iteration comes to its end *)

Lemma streaming_total (s : LoopState W) : exists s', streaming s = Some s'.
Proof.
  unfold streaming.
  destruct (negb (closeRequest s) || negb (zlibClosed s)); [|eexists; reflexivity].
  destruct (streamBlocks_total (streamFuel s) s) as [s1 H1].
  { unfold streamFuel. lia. }
  rewrite H1. destruct (negb (closeRequest s1)); eexists; reflexivity.
Qed.

Lemma afterSelect_looping (now : Time) (g : bool) (s : LoopState W) (effs : list Effect) :
  exists s' effs', afterSelect t now g s effs = Some (looping s' effs').
Proof.
  unfold afterSelect.
  destruct (openRequest t _) as [[s1 opened]|]; [|do 2 eexists; reflexivity].
  destruct (streaming_total s1) as [s2 H2]. rewrite H2.
  do 2 eexists; reflexivity.
Qed.




End Iteration.

(** ** The effects of an iteration, by kind *)

(** The values sent on [sendStreamRequest]. *)
Fixpoint signals (effs : list Effect) : list Duration :=
  match effs with
  | [] => []
  | sendStreamRequest g :: effs' => g :: signals effs'
  | _ :: effs' => signals effs'
  end.

(** The gathering cycles started. *)
Fixpoint gatherCalls (effs : list Effect) : list GatherCycle :=
  match effs with
  | [] => []
  | gatherMetricsCall ts gs :: effs' =>
      {| gc_timestamp := ts; gc_pending := gs |} :: gatherCalls effs'
  | _ :: effs' => gatherCalls effs'
  end.

(** The callers' channels sent on. *)
Fixpoint acksOf (effs : list Effect) : list Chan :=
  match effs with
  | [] => []
  | Ack c :: effs' => c :: acksOf effs'
  | _ :: effs' => acksOf effs'
  end.

(** The effects of the loop's return are not among them. *)
Fixpoint returning (effs : list Effect) : bool :=
  match effs with
  | [] => false
  | (cancelContext | closeSendStreamRequest | storeInactive | closeClosed) :: _ => true
  | _ :: effs' => returning effs'
  end.

(** Whether the reader is closed, and whether a new one is made. *)
Fixpoint closesReader (effs : list Effect) : bool :=
  match effs with
  | [] => false
  | CloseRead :: _ => true
  | _ :: effs' => closesReader effs'
  end.

Lemma signals_app (e1 e2 : list Effect) : signals (e1 ++ e2) = signals e1 ++ signals e2.
Proof.
  induction e1 as [|e e1 IH]; [reflexivity|].
  destruct e; cbn; rewrite ?IH; reflexivity.
Qed.

Lemma gatherCalls_app (e1 e2 : list Effect) :
  gatherCalls (e1 ++ e2) = gatherCalls e1 ++ gatherCalls e2.
Proof.
  induction e1 as [|e e1 IH]; [reflexivity|].
  destruct e; cbn; rewrite ?IH; reflexivity.
Qed.

Lemma acksOf_app (e1 e2 : list Effect) : acksOf (e1 ++ e2) = acksOf e1 ++ acksOf e2.
Proof.
  induction e1 as [|e e1 IH]; [reflexivity|].
  destruct e; cbn; rewrite ?IH; reflexivity.
Qed.

Lemma returning_app (e1 e2 : list Effect) :
  returning (e1 ++ e2) = returning e1 || returning e2.
Proof.
  induction e1 as [|e e1 IH]; [reflexivity|].
  destruct e; cbn; rewrite ?IH; reflexivity.
Qed.

Lemma closesReader_app (e1 e2 : list Effect) :
  closesReader (e1 ++ e2) = closesReader e1 || closesReader e2.
Proof.
  induction e1 as [|e e1 IH]; [reflexivity|].
  destruct e; cbn; rewrite ?IH; reflexivity.
Qed.

Lemma logged_app (e1 e2 : list Effect) : logged (e1 ++ e2) = logged e1 ++ logged e2.
Proof.
  induction e1 as [|e e1 IH]; [reflexivity|].
  destruct e; cbn; rewrite ?IH; reflexivity.
Qed.

Lemma acksOf_In (effs : list Effect) (c : Chan) : In c (acksOf effs) <-> In (Ack c) effs.
Proof.
  induction effs as [|e effs IH]; [cbn; tauto|].
  destruct e; cbn; rewrite IH; split; intros H;
    try (destruct H as [H|H]; [discriminate H|]); try tauto;
    try (right; exact H).
  - destruct H as [H|H]; [left; congruence | right; exact H].
  - destruct H as [H|H]; [left; congruence | right; exact H].
Qed.

Ltac split_goal := repeat match goal with |- _ /\ _ => split end.

Lemma no_Accumulate_app (l1 l2 : list Effect) :
  no_Accumulate l1 -> no_Accumulate l2 -> no_Accumulate (l1 ++ l2).
Proof.
  unfold no_Accumulate. intros H1 H2 st Hin.
  apply in_app_or in Hin. destruct Hin as [Hin|Hin]; [exact (H1 st Hin) | exact (H2 st Hin)].
Qed.

Section Phases.

Context {W : Type} {ZW : ZlibWriter W}.

Variable nextGracePeriod : Duration -> Duration.

Variable t : TracerParams.

(** ** The variables the request and the metrics cycle are steered by *)

Record Control := {
  c_requestActive : bool;
  c_gracePeriod : Duration;
  c_gatheringMetrics : bool;
  c_flushed : option Chan;
  c_sentMetrics : option Chan;
  c_requestTimer : Timer;
  c_requestTimerActive : bool;
  c_metricsTimer : Timer;
  c_metricsTimerStart : option Time;
  c_cfg : tracerConfig
}.

Definition control (s : LoopState W) : Control :=
  {| c_requestActive := requestActive s;
     c_gracePeriod := gracePeriod s;
     c_gatheringMetrics := gatheringMetrics s;
     c_flushed := flushed s;
     c_sentMetrics := sentMetrics s;
     c_requestTimer := requestTimer s;
     c_requestTimerActive := requestTimerActive s;
     c_metricsTimer := metricsTimer s;
     c_metricsTimerStart := metricsTimerStart s;
     c_cfg := cfg s |}.

Lemma control_fields (s s' : LoopState W) :
  control s' = control s ->
  requestActive s' = requestActive s /\ gracePeriod s' = gracePeriod s
  /\ gatheringMetrics s' = gatheringMetrics s /\ flushed s' = flushed s
  /\ sentMetrics s' = sentMetrics s /\ requestTimer s' = requestTimer s
  /\ requestTimerActive s' = requestTimerActive s
  /\ metricsTimer s' = metricsTimer s
  /\ metricsTimerStart s' = metricsTimerStart s /\ cfg s' = cfg s.
Proof.
  unfold control. intros H. injection H as H1 H2 H3 H4 H5 H6 H7 H8 H9 H10.
  repeat split; assumption.
Qed.

Lemma control_fields_of (s : LoopState W) (c : Control) :
  control s = c ->
  requestActive s = c_requestActive c /\ gracePeriod s = c_gracePeriod c
  /\ gatheringMetrics s = c_gatheringMetrics c /\ flushed s = c_flushed c
  /\ sentMetrics s = c_sentMetrics c /\ requestTimer s = c_requestTimer c
  /\ requestTimerActive s = c_requestTimerActive c
  /\ metricsTimer s = c_metricsTimer c
  /\ metricsTimerStart s = c_metricsTimerStart c /\ cfg s = c_cfg c.
Proof. intros H. subst c. cbn. repeat split. Qed.

Lemma select_ok_control (s s' : LoopState W) :
  control s' = control s -> counters_ok s' -> select_ok s -> select_ok s'.
Proof.
  intros Hc Hcnt [_ [Ht [Hm Hi]]].
  apply control_fields in Hc.
  destruct Hc as [H1 [_ [_ [_ [_ [H6 [H7 [H8 [H9 _]]]]]]]]].
  unfold select_ok, requestTimer_ok, metricsTimer_ok in *.
  rewrite H1, H6, H7, H8, H9. auto.
Qed.

Definition buffers_empty (s : LoopState W) : bool :=
  (ringbuffer.Len (buffer s) =? 0) && (ringbuffer.Len (metricsBuffer s) =? 0).

(** *** [mergeStats] *)

Lemma mergeStats_spec (s : LoopState W) :
  let s' := fst (mergeStats s) in
  control s' = control s /\ stats s' = zeroStats
  /\ buffer s' = buffer s /\ metricsBuffer s' = metricsBuffer s
  /\ (counters_ok s -> counters_ok s')
  /\ snd (mergeStats s)
     = (if isZero (stats s) then [] else [Accumulate (stats s)]).
Proof.
  unfold mergeStats, control, counters_ok. destruct s; cbn.
  destruct (isZero _) eqn:Hz; cbn; repeat split; try reflexivity; try tauto.
  all: try (apply isZero_zeroStats; exact Hz).
  all: unfold is_u64 in *; tauto.
Qed.

(** *** [startGather] *)

Lemma startGather_spec (now : Time) (s : LoopState W) :
  let s' := fst (startGather now s) in
  control s'
  = {| c_requestActive := requestActive s; c_gracePeriod := gracePeriod s;
       c_gatheringMetrics := true; c_flushed := flushed s;
       c_sentMetrics := sentMetrics s; c_requestTimer := requestTimer s;
       c_requestTimerActive := requestTimerActive s;
       c_metricsTimer := metricsTimer s;
       c_metricsTimerStart := metricsTimerStart s; c_cfg := cfg s |}
  /\ stats s' = stats s
  /\ buffer s' = buffer s /\ metricsBuffer s' = metricsBuffer s
  /\ (counters_ok s -> counters_ok s')
  /\ (select_ok s -> select_ok s')
  /\ gatherCalls (snd (startGather now s))
     = [{| gc_timestamp := now; gc_pending := metricsGatherers (cfg s) |}]
  /\ signals (snd (startGather now s)) = []
  /\ acksOf (snd (startGather now s)) = []
  /\ returning (snd (startGather now s)) = false
  /\ closesReader (snd (startGather now s)) = false
  /\ no_Accumulate (snd (startGather now s)).
Proof.
  unfold startGather, control, counters_ok, select_ok, counters_ok,
    requestTimer_ok, metricsTimer_ok, no_Accumulate.
  destruct s; cbn.
  destruct (cfg_logger _); cbn; repeat split; try reflexivity;
    unfold is_u64 in *; try tauto;
    try (intros st Hin; cbn in Hin; intuition discriminate).
Qed.


(** *** [openRequest] *)

Lemma openRequest_None (s : LoopState W) :
  openRequest t s = None <-> requestActive s = false /\ buffers_empty s = true.
Proof.
  unfold openRequest, buffers_empty.
  destruct (requestActive s); [split; [discriminate | intros [H _]; discriminate]|].
  destruct (_ && _); split; try discriminate; try tauto.
  intros [_ H]. discriminate.
Qed.

Lemma openRequest_spec (s s' : LoopState W) (effs : list Effect) :
  openRequest t s = Some (s', effs) ->
  if requestActive s then s' = s /\ effs = []
  else
    buffers_empty s = false
    /\ effs = [sendStreamRequest (gracePeriod s)]
    /\ control s'
       = {| c_requestActive := true; c_gracePeriod := gracePeriod s;
            c_gatheringMetrics := gatheringMetrics s; c_flushed := flushed s;
            c_sentMetrics := sentMetrics s;
            c_requestTimer := timer_Reset (requestDuration (cfg s)) (requestTimer s);
            c_requestTimerActive := true;
            c_metricsTimer := metricsTimer s;
            c_metricsTimerStart := metricsTimerStart s; c_cfg := cfg s |}
    /\ stats s' = stats s
    /\ buffer s' = buffer s /\ metricsBuffer s' = metricsBuffer s
    /\ (counters_ok s -> counters_ok s')
    /\ closeRequest s' = closeRequest s /\ zlibClosed s' = false.
Proof.
  unfold openRequest, buffers_empty, zlibWrite, control, counters_ok.
  destruct s; cbn.
  repeat (inner_destruct; cbn); intros H; inversion H; subst; clear H; cbn;
    repeat split; try reflexivity; unfold is_u64 in *; tauto.
Qed.

(** *** The inner [for] *)

Lemma streamBlocks_counters_ok (fuel : nat) (s s' : LoopState W) :
  streamBlocks fuel s = Some s' -> counters_ok s -> counters_ok s'.
Proof.
  revert s. induction fuel as [|fuel IH]; intros s Hs Hc; [discriminate|].
  cbn in Hs.
  destruct (requestBytes s <? requestSize (cfg s)); [|inversion Hs; subst; exact Hc].
  destruct (0 <? ringbuffer.Len (metricsBuffer s)).
  - destruct (ringbuffer.WriteBlockTo (metricsBuffer s)) as [[blk mb]|];
      [|apply (IH _ Hs Hc)].
    apply (IH _ Hs).
    destruct (pullMetrics_spec blk mb s) as [_ [_ [_ [_ [_ [H1 [H2 [H3 H4]]]]]]]].
    unfold counters_ok in *. rewrite H1, H2, H3, H4.
    repeat split; try apply u64_add_range; apply Hc.
  - destruct (ringbuffer.Len (buffer s) =? 0); [inversion Hs; subst; exact Hc|].
    destruct (ringbuffer.WriteBlockTo (buffer s)) as [[h b]|];
      [|apply (IH _ Hs Hc)].
    apply (IH _ Hs).
    destruct (pullTrace_spec h b s) as [_ [_ [_ [_ [_ [H1 [H2 [H3 H4]]]]]]]].
    unfold counters_ok in *. rewrite H1, H2, H3, H4.
    destruct (blockTag h); repeat split; try apply u64_add_range; apply Hc.
Qed.

Lemma same_request_control (s s' : LoopState W) :
  same_request s s' -> control s' = control s.
Proof.
  unfold same_request, control. intros H. split_ands.
  repeat match goal with H : _ = _ |- _ => rewrite H; clear H end. reflexivity.
Qed.

Lemma set_closeRequest_same (b : bool) (s : LoopState W) :
  same_request s (set_closeRequest b s)
  /\ buffer (set_closeRequest b s) = buffer s
  /\ metricsBuffer (set_closeRequest b s) = metricsBuffer s
  /\ requestBuf (set_closeRequest b s) = requestBuf s
  /\ zlibWriter (set_closeRequest b s) = zlibWriter s
  /\ closeRequest (set_closeRequest b s) = b
  /\ (counters_ok s -> counters_ok (set_closeRequest b s)).
Proof.
  unfold same_request, counters_ok. destruct s; cbn.
  repeat split; try reflexivity; unfold is_u64 in *; tauto.
Qed.

Lemma streaming_spec (s s' : LoopState W) :
  streaming s = Some s' ->
  control s' = control s /\ stats s' = stats s
  /\ (counters_ok s -> counters_ok s').
Proof.
  unfold streaming.
  destruct (negb (closeRequest s) || negb (zlibClosed s));
    [|intros H; inversion H; subst;
     split; [reflexivity | split; [reflexivity | tauto]]].
  destruct (streamBlocks (streamFuel s) s) as [s1|] eqn:H1; [|discriminate].
  pose proof (streamBlocks_counters_ok _ _ _ H1) as Hc.
  destruct (streamBlocks_spec _ _ _ H1)
    as [pm [pt [_ [_ [_ [_ [_ [_ [_ Hsame]]]]]]]]].
  destruct (set_closeRequest_same (requestSize (cfg s1) <=? requestBytes s1) s1)
    as [Hs2 [_ [_ [_ [_ [_ Hc2]]]]]].
  destruct (negb (closeRequest s1)); intros H; inversion H; subst; clear H.
  - pose proof (same_request_trans _ _ _ Hsame Hs2) as Hs3.
    split; [apply same_request_control; exact Hs3|].
    split; [apply Hs3 | tauto].
  - split; [apply same_request_control; exact Hsame|].
    split; [apply Hsame | tauto].
Qed.

(** *** [finishing] and [respond] *)

Lemma finishing_spec (s : LoopState W) :
  control (finishing s) = control s /\ stats (finishing s) = stats s
  /\ (counters_ok s -> counters_ok (finishing s)).
Proof.
  unfold finishing, zlibClose, zlibFlush, control, counters_ok. destruct s; cbn.
  repeat (inner_destruct; cbn); repeat split; try reflexivity;
    unfold is_u64 in *; tauto.
Qed.

Lemma respond_spec (s : LoopState W) :
  let s' := fst (respond s) in
  control s' = control s /\ stats s' = stats s
  /\ (counters_ok s -> counters_ok s')
  /\ (snd (respond s) = [] \/ exists n eof, snd (respond s) = [Respond n eof]).
Proof.
  unfold respond, control, counters_ok. destruct s; cbn.
  repeat (inner_destruct; cbn); repeat split; try reflexivity;
    unfold is_u64 in *; try tauto;
    try (left; reflexivity); right; do 2 eexists; reflexivity.
Qed.


(** *** After the [select] *)

Definition opens (s : LoopState W) : bool :=
  negb (requestActive s) && negb (buffers_empty s).

Lemma afterSelect_spec (now : Time) (g : bool) (s s' : LoopState W)
    (effs0 effs : list Effect) :
  afterSelect t now g s effs0 = Some (looping s' effs) ->
  exists rest,
    effs = effs0
           ++ (if isZero (stats s) then [] else [Accumulate (stats s)]) ++ rest
    /\ no_Accumulate rest
    /\ gatherCalls rest
       = (if g then [{| gc_timestamp := now;
                        gc_pending := metricsGatherers (cfg s) |}] else [])
    /\ signals rest = (if opens s then [gracePeriod s] else [])
    /\ acksOf rest = [] /\ returning rest = false /\ closesReader rest = false
    /\ control s'
       = {| c_requestActive := requestActive s || opens s;
            c_gracePeriod := gracePeriod s;
            c_gatheringMetrics := g || gatheringMetrics s;
            c_flushed := flushed s; c_sentMetrics := sentMetrics s;
            c_requestTimer :=
              if opens s
              then timer_Reset (requestDuration (cfg s)) (requestTimer s)
              else requestTimer s;
            c_requestTimerActive := opens s || requestTimerActive s;
            c_metricsTimer := metricsTimer s;
            c_metricsTimerStart := metricsTimerStart s;
            c_cfg := cfg s |}
    /\ stats s' = zeroStats
    /\ (counters_ok s -> counters_ok s').
Proof.
  unfold afterSelect. cbv zeta.
  destruct (mergeStats_spec s) as [Hm1 [Hm2 [Hm3 [Hm4 [Hm5 Hm6]]]]].
  cbv zeta in *. rewrite Hm6. clear Hm6.
  set (s1 := fst (mergeStats s)) in *.
  assert (Hgath :
    let r := if g then startGather now s1 else (s1, []) in
    control (fst r)
    = {| c_requestActive := requestActive s; c_gracePeriod := gracePeriod s;
         c_gatheringMetrics := g || gatheringMetrics s; c_flushed := flushed s;
         c_sentMetrics := sentMetrics s; c_requestTimer := requestTimer s;
         c_requestTimerActive := requestTimerActive s;
         c_metricsTimer := metricsTimer s;
         c_metricsTimerStart := metricsTimerStart s; c_cfg := cfg s |}
    /\ stats (fst r) = zeroStats
    /\ buffer (fst r) = buffer s /\ metricsBuffer (fst r) = metricsBuffer s
    /\ (counters_ok s -> counters_ok (fst r))
    /\ gatherCalls (snd r)
       = (if g then [{| gc_timestamp := now;
                        gc_pending := metricsGatherers (cfg s) |}] else [])
    /\ signals (snd r) = [] /\ acksOf (snd r) = []
    /\ returning (snd r) = false /\ closesReader (snd r) = false
    /\ no_Accumulate (snd r)).
  { apply control_fields in Hm1.
    destruct Hm1 as [A1 [A2 [A3 [A4 [A5 [A6 [A7 [A8 [A9 A10]]]]]]]]].
    destruct g; cbv zeta.
    - destruct (startGather_spec now s1)
        as [G1 [G2 [G3 [G4 [G5 [_ [G7 [G8 [G9 [G10 [G11 G12]]]]]]]]]]].
      cbv zeta in *. rewrite G1, G2, G3, G4, G7, G8, G9, G10, G11.
      rewrite A1, A2, A4, A5, A6, A7, A8, A9, A10, Hm2, Hm3, Hm4.
      split; [reflexivity|]. split; [reflexivity|]. split; [reflexivity|].
      split; [reflexivity|]. split; [tauto|].
      repeat (split; [reflexivity|]). exact G12.
    - cbn. unfold control. rewrite A1, A2, A3, A4, A5, A6, A7, A8, A9, A10.
      split; [reflexivity|]. split; [assumption|]. split; [assumption|].
      split; [assumption|]. split; [assumption|].
      repeat (split; [reflexivity|]). intros st Hin. exact Hin. }
  cbv zeta in Hgath.
  set (r := if g then startGather now s1 else (s1, [])) in *.
  destruct Hgath as [Hc [Hst [Hb [Hmb [Hcnt [Hg [Hsig [Hack [Hret [Hcl Hna]]]]]]]]]].
  assert (Hbe : buffers_empty (fst r) = buffers_empty s).
  { unfold buffers_empty. rewrite Hb, Hmb. reflexivity. }
  pose proof (control_fields_of _ _ Hc) as Hf. cbn in Hf.
  destruct Hf as [F1 [F2 [F3 [F4 [F5 [F6 [F7 [F8 [F9 F10]]]]]]]]].
  destruct (openRequest t (fst r)) as [[s3 opened]|] eqn:Hopen.
  - (* the request is active or opened *)
    pose proof (openRequest_spec _ _ _ Hopen) as Ho. rewrite F1, F2 in Ho.
    destruct (streaming s3) as [s4|] eqn:Hs4; [|discriminate].
    intros H. inversion H; subst s' effs; clear H.
    destruct (streaming_spec _ _ Hs4) as [S1 [S2 S3]].
    destruct (finishing_spec s4) as [N1 [N2 N3]].
    destruct (respond_spec (finishing s4)) as [R1 [R2 [R3 R4]]].
    cbv zeta in *.
    exists (snd r ++ opened ++ snd (respond (finishing s4))).
    rewrite R1, N1, S1, R2, N2, S2.
    rewrite !gatherCalls_app, !signals_app, !acksOf_app, !returning_app,
      !closesReader_app.
    rewrite Hg, Hsig, Hack, Hret, Hcl.
    unfold opens.
    destruct (requestActive s) eqn:Hact.
    + destruct Ho as [Ho1 Ho2]. subst s3 opened. cbn [app andb negb orb].
      rewrite Hc, Hst.
      assert (Hna' : no_Accumulate (snd r ++ [] ++ snd (respond (finishing s4)))).
      { apply no_Accumulate_app; [exact Hna|].
        destruct R4 as [R4|[n [eof R4]]]; rewrite R4;
          intros st Hin; cbn in Hin; intuition discriminate. }
      destruct R4 as [R4|[n [eof R4]]]; rewrite R4 in *; cbn;
        (split; [reflexivity|]); (split; [exact Hna'|]);
        rewrite ?app_nil_r, ?Hcl; split_goal; try reflexivity; tauto.
    + destruct Ho as [Ho1 [Ho2 [Ho3 [Ho4 [Ho5 [Ho6 [Ho7 _]]]]]]].
      subst opened. rewrite Hbe in Ho1. rewrite Ho1. cbn [app andb negb orb].
      rewrite Ho3, Ho4, Hst, F3, F4, F5, F6, F8, F9, F10.
      assert (Hna' : no_Accumulate
                       (snd r ++ [sendStreamRequest (gracePeriod s)]
                        ++ snd (respond (finishing s4)))).
      { apply no_Accumulate_app; [exact Hna|].
        destruct R4 as [R4|[n [eof R4]]]; rewrite R4;
          intros st Hin; cbn in Hin; intuition discriminate. }
      destruct R4 as [R4|[n [eof R4]]]; rewrite R4 in *; cbn;
        (split; [reflexivity|]); (split; [exact Hna'|]);
        rewrite ?app_nil_r, ?Hcl; split_goal; try reflexivity; tauto.
  - (* both buffers are empty: continue *)
    apply openRequest_None in Hopen. destruct Hopen as [Ho1 Ho2].
    rewrite F1 in Ho1. rewrite Hbe in Ho2.
    intros H. inversion H; subst s' effs; clear H.
    exists (snd r). unfold opens. rewrite Ho1, Ho2. cbn.
    rewrite Hc, Ho1.
    split_goal; try reflexivity; try assumption.
Qed.


(** *** The [select] cases *)

Lemma writeEvent_spec (event : tracerEvent) (s : LoopState W) :
  control (writeEvent event s) = control s
  /\ metricsBuffer (writeEvent event s) = metricsBuffer s
  /\ (counters_ok s -> counters_ok (writeEvent event s))
  /\ (ringbuffer.blocks (buffer s) <> [] ->
      ringbuffer.blocks (buffer (writeEvent event s)) <> [])
  /\ (ringbuffer.blocks (buffer (writeEvent event s)) = [] ->
      stats (writeEvent event s) = stats s).
Proof.
  unfold writeEvent, control, counters_ok, ringbuffer.Insert. destruct s; cbn.
  destruct (_ <=? _); cbn; split_goal; try reflexivity;
    unfold is_u64 in *; try tauto.
  - intros _ H. apply app_eq_nil in H. destruct H as [_ H]. discriminate.
  - intros H. apply app_eq_nil in H. destruct H as [_ H]. discriminate.
Qed.

Lemma drainEvents_spec (queued : list tracerEvent) (s : LoopState W) :
  control (drainEvents queued s) = control s
  /\ metricsBuffer (drainEvents queued s) = metricsBuffer s
  /\ (counters_ok s -> counters_ok (drainEvents queued s))
  /\ (ringbuffer.blocks (buffer s) <> [] ->
      ringbuffer.blocks (buffer (drainEvents queued s)) <> [])
  /\ (ringbuffer.blocks (buffer (drainEvents queued s)) = [] ->
      stats (drainEvents queued s) = stats s).
Proof.
  revert s. induction queued as [|event queued IH]; intros s.
  - cbn. split_goal; try reflexivity; tauto.
  - change (drainEvents (event :: queued) s)
      with (drainEvents queued (writeEvent event s)).
    destruct (IH (writeEvent event s)) as [I1 [I2 [I3 [I4 I5]]]].
    destruct (writeEvent_spec event s) as [E1 [E2 [E3 [E4 E5]]]].
    rewrite I1, I2, E1, E2. split_goal; try reflexivity; try tauto.
    intros Hnil. rewrite (I5 Hnil). apply E5.
    destruct (ringbuffer.blocks (buffer (writeEvent event s))) eqn:Hb;
      [reflexivity|].
    exfalso. apply I4; [congruence | exact Hnil].
Qed.

Lemma writeMetrics_spec (s : LoopState W) :
  control (writeMetrics s) = control s
  /\ buffer (writeMetrics s) = buffer s
  /\ stats (writeMetrics s) = stats s
  /\ (counters_ok s -> counters_ok (writeMetrics s)).
Proof.
  unfold writeMetrics, control, counters_ok. destruct s; cbn -[fold_left].
  split_goal; try reflexivity; unfold is_u64 in *; tauto.
Qed.

(** Whether [Flush] is acknowledged at once. *)
Definition flushedAtOnce (c : Chan) (queued : list tracerEvent)
    (s : LoopState W) : bool :=
  let s' := drainEvents queued (set_flushed (Some c) s) in
  negb (requestActive s') && buffers_empty s'.

Definition select_flow (c : SelectCase) (s : LoopState W) : Flow :=
  match c with
  | caseConfigCommand _ => continueLoop
  | caseMetricsTimer | caseForceSendMetrics _ =>
      fallthrough (negb (gatheringMetrics s))
  | caseForceFlush c queued =>
      if flushedAtOnce c queued s then continueLoop else fallthrough false
  | _ => fallthrough false
  end.

Definition select_acks (c : SelectCase) (s : LoopState W) : list Chan :=
  match c with
  | caseForceFlush ch queued => if flushedAtOnce ch queued s then [ch] else []
  | caseRequestResult _ =>
      match sentMetrics s with
      | Some ch => if 0 <? requestBufMetricsets s then [ch] else []
      | None => []
      end
      ++ match flushed s with Some ch => [ch] | None => [] end
  | _ => []
  end.

Definition select_merged (c : SelectCase) (s : LoopState W)
    (shared : TracerStats) : TracerStats :=
  match c with
  | caseRequestResult (Some _) => incSendStream shared
  | caseRequestResult None =>
      addSent shared (requestBufTransactions s) (requestBufSpans s)
        (requestBufErrors s)
  | _ => shared
  end.

Definition is_result (c : SelectCase) : bool :=
  match c with caseRequestResult _ => true | _ => false end.

(** What a [select] case leaves, from a state at the head of the
    [for]. *)
Definition select_post (c : SelectCase) (s s1 : LoopState W) (flow : Flow)
    (effs : list Effect) : Prop :=
  select_ok s1
  /\ flow = select_flow c s
  /\ (flow = continueLoop -> stats s1 = zeroStats)
  /\ requestActive s1 = (if is_result c then false else requestActive s)
  /\ gracePeriod s1
     = match c with
       | caseRequestResult (Some _) => nextGracePeriod (gracePeriod s)
       | caseRequestResult None => -1
       | _ => gracePeriod s
       end
  /\ gatheringMetrics s1
     = match c with
       | caseGatheredMetrics => false
       | _ => gatheringMetrics s
       end
  /\ flushed s1
     = match c with
       | caseForceFlush ch _ => Some ch
       | caseRequestResult _ => None
       | _ => flushed s
       end
  /\ sentMetrics s1
     = match c with
       | caseForceSendMetrics ch => Some ch
       | caseRequestResult _ =>
           if 0 <? requestBufMetricsets s then None else sentMetrics s
       | _ => sentMetrics s
       end
  /\ signals effs = [] /\ gatherCalls effs = [] /\ returning effs = false
  /\ acksOf effs = select_acks c s
  /\ closesReader effs = is_result c
  /\ (forall shared, stats_wf shared ->
        merge_effects effs shared = select_merged c s shared).

Ltac select_exec :=
  repeat (inner_destruct; cbn -[timer_stopDrain]);
  let H := fresh "H" in
  intros H; inversion H; subst; clear H.

Ltac select_finish :=
  unfold select_post, loop_ok, select_ok, counters_ok, requestTimer_ok,
    metricsTimer_ok, select_flow, select_acks, select_merged, is_result,
    flushedAtOnce, buffers_empty, merge_effects in *;
  cbn -[timer_stopDrain] in *;
  repeat (inner_destruct; cbn -[timer_stopDrain] in * );
  split_ands; split_goal; try reflexivity; try assumption;
  try (intros; reflexivity); try discriminate; try tauto.

Lemma onConfigCommand_post (now : Time) (cmd : tracerConfigCommand)
    (s s1 : LoopState W) (flow : Flow) (effs : list Effect) :
  loop_ok s ->
  onConfigCommand now cmd s = Some (flow, s1, effs) ->
  select_post (caseConfigCommand cmd) s s1 flow effs.
Proof.
  intros Hok. unfold onConfigCommand.
  destruct s; cbn -[timer_stopDrain]. select_exec; select_finish.
  all: try (intros _; left; discriminate).
  all: try match goal with
           | H : timer_stopDrain ?tm = Some _ |- _ =>
               unfold timer_stopDrain, timer_Stop, timer_recv in H;
               cbn in H; destruct (armed tm), (pending tm);
               inversion H; subst; cbn
           end.
  all: try (intros Hx; exfalso; apply Hx; reflexivity).
Qed.

Lemma onEvent_post (event : tracerEvent) (s s1 : LoopState W) (flow : Flow)
    (effs : list Effect) :
  loop_ok s ->
  onEvent event s = Some (flow, s1, effs) ->
  select_post (caseEvent event) s s1 flow effs.
Proof.
  intros Hok. unfold onEvent, writeEvent.
  destruct s; cbn -[ringbuffer.Insert]. select_exec; select_finish.
Qed.

Lemma onRequestTimer_post (s s1 : LoopState W) (flow : Flow) (effs : list Effect) :
  loop_ok s ->
  onRequestTimer s = Some (flow, s1, effs) ->
  select_post caseRequestTimer s s1 flow effs.
Proof.
  intros Hok. unfold onRequestTimer, timer_recv.
  destruct s; cbn. select_exec; select_finish.
  match goal with H : if ?b then _ else _ |- _ => destruct b end;
    match goal with |- context [armed ?tm] => destruct tm as [a p] end;
    cbn in *; unfold idleTimer in *; subst;
    repeat match goal with H : _ \/ _ |- _ => destruct H end;
    split_ands; subst; try discriminate; try reflexivity; congruence.
Qed.

Lemma onMetricsTimer_post (s s1 : LoopState W) (flow : Flow) (effs : list Effect) :
  loop_ok s ->
  onMetricsTimer s = Some (flow, s1, effs) ->
  select_post caseMetricsTimer s s1 flow effs.
Proof.
  intros Hok. unfold onMetricsTimer, timer_recv.
  destruct s; cbn. select_exec; select_finish.
Qed.

Lemma onForceSendMetrics_post (sent : Chan) (s s1 : LoopState W) (flow : Flow)
    (effs : list Effect) :
  loop_ok s ->
  onForceSendMetrics sent s = Some (flow, s1, effs) ->
  select_post (caseForceSendMetrics sent) s s1 flow effs.
Proof.
  intros Hok. unfold onForceSendMetrics.
  destruct s; cbn -[timer_stopDrain]. select_exec; select_finish.
Qed.

Lemma onGatheredMetrics_post (now : Time) (s s1 : LoopState W) (flow : Flow)
    (effs : list Effect) :
  loop_ok s ->
  onGatheredMetrics now s = Some (flow, s1, effs) ->
  select_post caseGatheredMetrics s s1 flow effs.
Proof.
  intros Hok. unfold onGatheredMetrics, writeMetrics.
  destruct s; cbn -[fold_left]. select_exec; select_finish.
  all: try (intros _; left; discriminate).
Qed.

Lemma onReadRequest_post (bufLen : Z) (s s1 : LoopState W) (flow : Flow)
    (effs : list Effect) :
  loop_ok s ->
  onReadRequest bufLen s = Some (flow, s1, effs) ->
  select_post (caseReadRequest bufLen) s s1 flow effs.
Proof.
  intros Hok. unfold onReadRequest.
  destruct s; cbn. select_exec; select_finish.
Qed.


Lemma set_flushed_spec (c : option Chan) (s : LoopState W) :
  control (set_flushed c s)
  = {| c_requestActive := requestActive s; c_gracePeriod := gracePeriod s;
       c_gatheringMetrics := gatheringMetrics s; c_flushed := c;
       c_sentMetrics := sentMetrics s; c_requestTimer := requestTimer s;
       c_requestTimerActive := requestTimerActive s;
       c_metricsTimer := metricsTimer s;
       c_metricsTimerStart := metricsTimerStart s; c_cfg := cfg s |}
  /\ stats (set_flushed c s) = stats s
  /\ (counters_ok s -> counters_ok (set_flushed c s)).
Proof.
  unfold control, counters_ok. destruct s; cbn.
  split_goal; try reflexivity; tauto.
Qed.

Lemma set_closeRequest_spec (b : bool) (s : LoopState W) :
  control (set_closeRequest b s) = control s
  /\ stats (set_closeRequest b s) = stats s
  /\ (counters_ok s -> counters_ok (set_closeRequest b s)).
Proof.
  unfold control, counters_ok. destruct s; cbn.
  split_goal; try reflexivity; tauto.
Qed.

Lemma select_ok_of_control (s s1 : LoopState W) :
  select_ok s -> counters_ok s1 ->
  requestActive s1 = requestActive s -> requestTimer s1 = requestTimer s ->
  requestTimerActive s1 = requestTimerActive s ->
  metricsTimer s1 = metricsTimer s ->
  metricsTimerStart s1 = metricsTimerStart s ->
  select_ok s1.
Proof.
  unfold select_ok, requestTimer_ok, metricsTimer_ok.
  intros [_ [Ht [Hm Hi]]] Hc H1 H2 H3 H4 H5.
  rewrite H1, H2, H3, H4, H5. tauto.
Qed.

Lemma onForceFlush_post (c : Chan) (queued : list tracerEvent)
    (s s1 : LoopState W) (flow : Flow) (effs : list Effect) :
  loop_ok s ->
  onForceFlush c queued s = Some (flow, s1, effs) ->
  select_post (caseForceFlush c queued) s s1 flow effs.
Proof.
  intros [Hst Hok]. unfold onForceFlush. cbv zeta.
  destruct (set_flushed_spec (Some c) s) as [F1 [F2 F3]].
  destruct (drainEvents_spec queued (set_flushed (Some c) s))
    as [D1 [D2 [D3 [D4 D5]]]].
  rewrite F1 in D1. apply control_fields_of in D1. cbn in D1.
  destruct D1 as [A1 [A2 [A3 [A4 [A5 [A6 [A7 [A8 [A9 A10]]]]]]]]].
  set (sd := drainEvents queued (set_flushed (Some c) s)) in *.
  assert (Hsd : select_ok sd).
  { apply (select_ok_of_control s); try assumption. apply D3, F3, Hok. }
  unfold select_post, select_flow, select_acks, select_merged, is_result,
    flushedAtOnce. cbv zeta. fold sd.
  change ((ringbuffer.Len (buffer sd) =? 0)
          && (ringbuffer.Len (metricsBuffer sd) =? 0))
    with (buffers_empty sd).
  rewrite <- andb_assoc.
  change ((ringbuffer.Len (buffer sd) =? 0)
          && (ringbuffer.Len (metricsBuffer sd) =? 0))
    with (buffers_empty sd).
  destruct (negb (requestActive sd) && buffers_empty sd) eqn:Hnow.
  - intros H; inversion H; subst; clear H.
    split_goal; try reflexivity; try assumption.
    intros _. rewrite D5, F2; [exact Hst|].
    apply andb_true_iff in Hnow. destruct Hnow as [_ Hnow].
    unfold buffers_empty in Hnow. apply andb_true_iff in Hnow.
    destruct Hnow as [Hnow _]. apply Z.eqb_eq in Hnow.
    apply Len_zero_blocks. exact Hnow.
  - destruct (set_closeRequest_spec true sd) as [C1 [C2 C3]].
    apply control_fields in C1.
    destruct C1 as [B1 [B2 [B3 [B4 [B5 [B6 [B7 [B8 [B9 B10]]]]]]]]].
    remember (set_closeRequest true sd) as sc eqn:Hsc. clear Hsc.
    intros H; inversion H; subst; clear H.
    split_goal; try reflexivity; try congruence.
    all: try (intros H; discriminate).
    all: try (apply (select_ok_of_control sd); try assumption; apply C3, Hsd).
    all: rewrite ?B1, ?B2, ?B3, ?B4, ?B5; assumption.
Qed.

Lemma onRequestResult_post (err : option SendError) (s s1 : LoopState W)
    (flow : Flow) (effs : list Effect) :
  loop_ok s ->
  onRequestResult nextGracePeriod err s = Some (flow, s1, effs) ->
  select_post (caseRequestResult err) s s1 flow effs.
Proof.
  intros Hok.
  assert (Hd := timer_stopDrain_requestTimer s (proj1 (proj2 (proj2 Hok)))).
  assert (Hzero : forall shared, stats_wf shared ->
            (isZero (addSent zeroStats (requestBufTransactions s)
                       (requestBufSpans s) (requestBufErrors s)) = true ->
             shared = addSent shared (requestBufTransactions s)
                        (requestBufSpans s) (requestBufErrors s))
            /\ accumulate shared
                 (addSent zeroStats (requestBufTransactions s)
                    (requestBufSpans s) (requestBufErrors s))
               = addSent shared (requestBufTransactions s)
                   (requestBufSpans s) (requestBufErrors s)).
  { intros shared Hwf.
    destruct Hok as [_ [[Hc1 [Hc2 [Hc3 _]]] _]].
    pose proof (addSent_accumulate shared _ _ _ Hwf Hc1 Hc2 Hc3) as Hadd.
    split; [|exact Hadd].
    intros Hz. apply isZero_zeroStats in Hz. rewrite Hz in Hadd.
    rewrite accumulate_zeroStats in Hadd by assumption. exact Hadd. }
  pose proof incSendStream_accumulate as Hinc.
  destruct Hok as [Hst Hok].
  unfold onRequestResult, requestOutcome, mergeStats, ackSentMetrics, ackFlushed,
    resetRequest.
  destruct s; cbn -[timer_stopDrain] in *. subst.
  destruct err as [e|];
    [change (isZero (incSendStream zeroStats)) with false|];
    cbn -[timer_stopDrain]; select_exec.
  all: try (specialize (Hd eq_refl); injection Hd as Hd; subst).
  all: unfold select_post, select_ok, counters_ok, requestTimer_ok,
         metricsTimer_ok, select_flow, select_acks, select_merged, is_result,
         merge_effects in *;
       cbn -[timer_stopDrain] in *;
       split_ands; split_goal; try reflexivity; try assumption;
       try discriminate; try apply is_u64_0; try tauto.
  all: try match goal with
           | H : (0 <? _) = _ |- _ => rewrite H; cbn; try reflexivity
           end.
  all: try (intros shared Hwf; cbn; try apply Hinc; try apply Hzero;
            try assumption).
  all: try match goal with
           | H : negb (isZero _) = false |- _ => apply negb_false_iff in H; exact H
           end.
  all: try match goal with
           | |- context [if ?b then _ else _] => destruct b; reflexivity
           end.
Qed.


Lemma selectCase_post (now : Time) (c : SelectCase) (s s1 : LoopState W)
    (flow : Flow) (effs : list Effect) :
  loop_ok s ->
  selectCase nextGracePeriod now c s = Some (flow, s1, effs) ->
  select_post c s s1 flow effs.
Proof.
  intros Hok. destruct c; cbn [selectCase].
  - discriminate.
  - apply onConfigCommand_post; exact Hok.
  - apply onEvent_post; exact Hok.
  - apply onRequestTimer_post; exact Hok.
  - apply onMetricsTimer_post; exact Hok.
  - apply onForceSendMetrics_post; exact Hok.
  - apply onGatheredMetrics_post; exact Hok.
  - apply onForceFlush_post; exact Hok.
  - apply onReadRequest_post; exact Hok.
  - apply onRequestResult_post; exact Hok.
Qed.

Lemma afterSelect_ok (now : Time) (g : bool) (s s' : LoopState W)
    (effs0 effs : list Effect) :
  select_ok s ->
  afterSelect t now g s effs0 = Some (looping s' effs) ->
  loop_ok s'.
Proof.
  intros Hok Hafter.
  destruct (afterSelect_spec _ _ _ _ _ _ Hafter)
    as [rest [_ [_ [_ [_ [_ [_ [_ [Hc [Hst Hcnt]]]]]]]]]].
  apply control_fields_of in Hc. cbn in Hc.
  destruct Hc as [A1 [A2 [A3 [A4 [A5 [A6 [A7 [A8 [A9 A10]]]]]]]]].
  destruct Hok as [Hcn [Ht [Hm Hi]]].
  split; [exact Hst|].
  unfold select_ok, requestTimer_ok, metricsTimer_ok in *.
  rewrite A1, A6, A7, A8, A9.
  split; [apply Hcnt; exact Hcn|].
  unfold opens in *.
  destruct (requestActive s) eqn:Hact; cbn.
  - split; [exact Ht|]. split; [exact Hm|]. intros H; discriminate.
  - specialize (Hi eq_refl). rewrite Hi in Ht. rewrite Hi.
    destruct (buffers_empty s); cbn.
    + split; [exact Ht|]. split; [exact Hm|]. intros _. reflexivity.
    + split; [|split; [exact Hm | intros H; discriminate]].
      left. rewrite Ht. cbn. split; [discriminate | reflexivity].
Qed.

(** One iteration, from select to the end. *)
Lemma loop_iter_spec (now : Time) (c : SelectCase) (s s' : LoopState W)
    (effs : list Effect) :
  loop_ok s ->
  loop_iter nextGracePeriod t now c s = Some (looping s' effs) ->
  exists flow s1 effs1,
    selectCase nextGracePeriod now c s = Some (flow, s1, effs1)
    /\ select_post c s s1 flow effs1
    /\ match flow with
       | continueLoop => s' = s1 /\ effs = effs1
       | fallthrough g => afterSelect t now g s1 effs1 = Some (looping s' effs)
       end.
Proof.
  intros Hok Hiter. unfold loop_iter in Hiter.
  destruct c; try discriminate;
    match type of Hiter with
    | match ?x with _ => _ end = _ =>
        destruct x as [[[flow s1] effs1]|] eqn:Hsel; [|discriminate]
    end;
    exists flow, s1, effs1;
    (split; [reflexivity|]);
    (split; [apply (selectCase_post now _ s s1 flow effs1 Hok); exact Hsel|]);
    (destruct flow; [exact Hiter | inversion Hiter; subst; split; reflexivity]).
Qed.

Lemma loop_iter_ok (now : Time) (c : SelectCase) (s s' : LoopState W)
    (effs : list Effect) :
  loop_ok s ->
  loop_iter nextGracePeriod t now c s = Some (looping s' effs) ->
  loop_ok s'.
Proof.
  intros Hok Hiter.
  destruct (loop_iter_spec _ _ _ _ _ Hok Hiter)
    as [flow [s1 [effs1 [_ [Hpost Hflow]]]]].
  destruct flow as [g|].
  - apply (afterSelect_ok now g s1 s' effs1 effs); [apply Hpost | exact Hflow].
  - destruct Hflow as [Hs _]. subst s'.
    destruct Hpost as [H1 [_ [H3 _]]]. split; [apply H3; reflexivity | exact H1].
Qed.

End Phases.

(** ** The system: loop, sender, gatherers and callers *)
Section SystemFacts.

Context {W : Type} {ZW : ZlibWriter W}.

Variable nextGracePeriod : Duration -> Duration.

Variable t : TracerParams.

(** ** The effects of an iteration on the system *)

(** The parts of the system no effect of the loop touches. *)
Definition same_outside (y y' : Sys W) : Prop :=
  loopStatus y' = loopStatus y /\ threads y' = threads y
  /\ t_events y' = t_events y /\ requestResult y' = requestResult y
  /\ gatheredMetrics y' = gatheredMetrics y /\ t_closing y' = t_closing y
  /\ panicked y' = panicked y /\ nextChan y' = nextChan y.

(** The parts only the loop's return touches. *)
Definition same_lifecycle (y y' : Sys W) : Prop :=
  t_closed y' = t_closed y /\ t_active y' = t_active y
  /\ ctxDone y' = ctxDone y
  /\ sendStreamRequestClosed y' = sendStreamRequestClosed y.

Lemma same_outside_refl (y : Sys W) : same_outside y y.
Proof. unfold same_outside. tauto. Qed.

Lemma same_outside_trans (y1 y2 y3 : Sys W) :
  same_outside y1 y2 -> same_outside y2 y3 -> same_outside y1 y3.
Proof.
  unfold same_outside. intros H1 H2. split_ands. split_goal; congruence.
Qed.

Lemma apply_effect_spec (e : Effect) (y y' : Sys W) :
  apply_effect e y = Some y' ->
  same_outside y y'
  /\ t_stats y' = merge_effect (t_stats y) e
  /\ gathers y' = gathers y ++ gatherCalls [e]
  /\ (returning [e] = false -> same_lifecycle y y')
  /\ match signals [e] with
     | [] => sender y' = sender y
     | g :: _ => sender y = senderIdle /\ sender y' = senderReceived g
     end
  /\ acks y' = rev (acksOf [e]) ++ acks y
  /\ (closesReader [e] = true -> readerClosed y' = true).
Proof.
  unfold same_outside, same_lifecycle.
  destruct y; destruct e; cbn;
    repeat (inner_destruct; cbn); intros H; inversion H; subst; clear H; cbn;
    rewrite ?app_nil_r; split_goal; try reflexivity; try discriminate;
    try (intros; split_goal; reflexivity).
Qed.

Lemma apply_effects_spec (effs : list Effect) (y y' : Sys W) :
  apply_effects effs y = Some y' ->
  same_outside y y'
  /\ t_stats y' = merge_effects effs (t_stats y)
  /\ gathers y' = gathers y ++ gatherCalls effs
  /\ (returning effs = false -> same_lifecycle y y')
  /\ (signals effs = [] -> sender y' = sender y)
  /\ (forall g, signals effs = [g] ->
        sender y = senderIdle /\ sender y' = senderReceived g)
  /\ acks y' = rev (acksOf effs) ++ acks y.
Proof.
  revert y. induction effs as [|e effs IH]; intros y Happ.
  - cbn in Happ. inversion Happ; subst. cbn. rewrite app_nil_r.
    unfold same_lifecycle.
    split_goal; try reflexivity; try apply same_outside_refl.
    + intros; split_goal; reflexivity.
    + intros g H. discriminate.
  - cbn in Happ. destruct (apply_effect e y) as [y1|] eqn:He; [|discriminate].
    destruct (apply_effect_spec _ _ _ He) as [E1 [E2 [E3 [E4 [E5 [E6 _]]]]]].
    destruct (IH _ Happ) as [I1 [I2 [I3 [I4 [I5 [I6 I7]]]]]].
    change (e :: effs) with ([e] ++ effs).
    rewrite gatherCalls_app, signals_app, acksOf_app, returning_app,
      merge_effects_app.
    split; [eapply same_outside_trans; eassumption|].
    split; [rewrite I2, E2; reflexivity|].
    split; [rewrite I3, E3, app_assoc; reflexivity|].
    split.
    { intros Hret. apply orb_false_iff in Hret. destruct Hret as [R1 R2].
      specialize (E4 R1). specialize (I4 R2).
      unfold same_lifecycle in *. split_ands. split_goal; congruence. }
    split.
    { intros Hsig. apply app_eq_nil in Hsig. destruct Hsig as [S1 S2].
      rewrite S1 in E5. rewrite (I5 S2). exact E5. }
    split.
    { intros g Hsig.
      destruct (signals [e]) as [|g1 l1] eqn:Hs1.
      - cbn in Hsig. destruct (I6 g Hsig) as [J1 J2].
        split; congruence.
      - destruct E5 as [E5a E5b]. cbn in Hsig.
        injection Hsig as Hg Hrest. subst g1.
        destruct e; cbn in Hs1; try discriminate.
        injection Hs1 as Hg Hl. subst l1. cbn in Hrest.
        split; [exact E5a|]. rewrite (I5 Hrest). congruence. }
    rewrite I7, E6, rev_app_distr, app_assoc. reflexivity.
Qed.


(** ** What holds in every reachable state *)

Definition sender_busy (st : SenderState) : Prop :=
  match st with
  | senderReceived _ | senderGrace _ | senderSending | senderResult _ => True
  | senderIdle | senderExited => False
  end.

(** While a request is active the sending goroutine is at work on it
    or its result waits in [requestResult]; otherwise the goroutine
    waits for a signal and [requestResult] is empty. *)
Definition request_inv (s : LoopState W) (y : Sys W) : Prop :=
  if requestActive s
  then (sender_busy (sender y) /\ requestResult y = None)
       \/ (sender y = senderIdle /\ requestResult y <> None)
  else sender y = senderIdle /\ requestResult y = None.

(** While [gatheringMetrics] is set there is one cycle at work or its
    signal waits in [gatheredMetrics]; otherwise there is neither. *)
Definition gather_inv (s : LoopState W) (y : Sys W) : Prop :=
  if gatheringMetrics s
  then (exists cyc, gathers y = [cyc] /\ gatheredMetrics y = false)
       \/ (gathers y = [] /\ gatheredMetrics y = true)
  else gathers y = [] /\ gatheredMetrics y = false.

Definition sys_ok (y : Sys W) : Prop :=
  stats_wf (t_stats y)
  /\ match loopStatus y with
     | loopRunning s =>
         loop_ok s /\ request_inv s y /\ gather_inv s y
         /\ sendStreamRequestClosed y = false /\ t_closed y = false
         /\ t_active y = true /\ ctxDone y = false
     | loopAbsent =>
         t_closed y = true /\ t_active y = false /\ t_stats y = zeroStats
         /\ gathers y = [] /\ sender y = senderExited
     | loopExited =>
         t_closed y = true /\ t_closing y = true /\ t_active y = false
         /\ ctxDone y = true /\ readerClosed y = true
     end.

Lemma loop_ok_set_metrics (m : Metrics) (s : LoopState W) :
  loop_ok s -> loop_ok (set_metrics m s).
Proof.
  unfold loop_ok, select_ok, counters_ok, requestTimer_ok, metricsTimer_ok.
  destruct s; cbn. tauto.
Qed.

Lemma loop_ok_requestTimer_fire (tm : Timer) (s : LoopState W) :
  timer_fire (requestTimer s) = Some tm ->
  loop_ok s -> loop_ok (set_requestTimer tm s).
Proof.
  unfold loop_ok, select_ok, counters_ok, requestTimer_ok, metricsTimer_ok,
    timer_fire.
  destruct s; cbn.
  match goal with |- context [armed ?x] => destruct x as [a p] end. cbn.
  destruct a; [|discriminate]. intros H; inversion H; subst; clear H. cbn.
  intros [H1 [H2 [H3 [H4 H5]]]]. split_goal; try assumption; try tauto.
  match goal with |- context [if ?b then _ else _] => destruct b end.
  - right. split; reflexivity.
  - discriminate.
Qed.

Lemma loop_ok_metricsTimer_fire (tm : Timer) (s : LoopState W) :
  timer_fire (metricsTimer s) = Some tm ->
  loop_ok s -> loop_ok (set_metricsTimer tm s).
Proof.
  unfold loop_ok, select_ok, counters_ok, requestTimer_ok, metricsTimer_ok,
    timer_fire.
  destruct s; cbn.
  match goal with |- context [armed ?x] => destruct x as [a p] end. cbn.
  destruct a; [|discriminate]. intros H; inversion H; subst; clear H. cbn.
  intros [H1 [H2 [H3 [H4 H5]]]]. split_goal; try assumption; try tauto.
Qed.

Lemma loop_ok_initialLoop : loop_ok (initialLoop (W := W) t).
Proof.
  unfold loop_ok, select_ok, counters_ok, requestTimer_ok, metricsTimer_ok.
  cbn. split_goal; try reflexivity; try apply is_u64_0; tauto.
Qed.

Lemma sys_ok_newTracer (active : bool) (cmd : tracerConfigCommand) :
  sys_ok (newTracer t active cmd).
Proof.
  unfold sys_ok, newTracer. destruct active; cbn.
  - split; [apply stats_wf_zeroStats|].
    split; [apply loop_ok_initialLoop|].
    unfold request_inv, gather_inv. cbn. tauto.
  - split; [apply stats_wf_zeroStats|]. tauto.
Qed.


Lemma merge_effects_wf (effs : list Effect) (shared : TracerStats) :
  stats_wf shared -> stats_wf (merge_effects effs shared).
Proof.
  revert shared. induction effs as [|e effs IH]; intros shared Hwf; [exact Hwf|].
  cbn. apply IH. destruct e; cbn; try exact Hwf. apply accumulate_wf.
Qed.

Definition is_gathered (c : SelectCase) : bool :=
  match c with caseGatheredMetrics => true | _ => false end.

Lemma receive_spec (c : SelectCase) (y y1 : Sys W) :
  receive c y y1 ->
  sender y1 = sender y /\ gathers y1 = gathers y /\ t_stats y1 = t_stats y
  /\ loopStatus y1 = loopStatus y /\ same_lifecycle y y1
  /\ t_closing y1 = t_closing y /\ panicked y1 = panicked y
  /\ acks y1 = acks y /\ readerClosed y1 = readerClosed y
  /\ requestResult y1 = (if is_result c then None else requestResult y)
  /\ (forall err, c = caseRequestResult err -> requestResult y = Some err)
  /\ gatheredMetrics y1 = (if is_gathered c then false else gatheredMetrics y)
  /\ (c = caseGatheredMetrics -> gatheredMetrics y = true)
  /\ (c = caseClosing -> t_closing y = true /\ y1 = y).
Proof.
  unfold same_lifecycle.
  intros H; destruct H; destruct y; cbn in *; subst;
    split_goal; try reflexivity; try discriminate;
    try (intros; discriminate); try (intros; split; reflexivity).
  intros.
  match goal with
  | H : caseRequestResult _ = caseRequestResult _ |- _ => injection H as H; subst
  end.
  reflexivity.
Qed.

Lemma loop_iter_exited (now : Time) (c : SelectCase) (s : LoopState W)
    (effs : list Effect) :
  loop_iter nextGracePeriod t now c s = Some (exited effs) ->
  c = caseClosing /\ effs = onClosing.
Proof.
  assert (Hrest : forall r : Step,
            match r with
            | Some (continueLoop, s0, effs0) => Some (looping s0 effs0)
            | Some (fallthrough g, s0, effs0) => afterSelect t now g s0 effs0
            | None => None
            end <> Some (exited effs)).
  { intros [[[[g|] s1] effs1]|]; try discriminate.
    destruct (afterSelect_looping t now g s1 effs1) as [s' [effs' H]].
    rewrite H. discriminate. }
  unfold loop_iter.
  destruct c;
    [intros H; injection H as H; subst; split; reflexivity | ..];
    intros H; exfalso;
    match type of H with
    | match ?r with _ => _ end = _ => exact (Hrest r H)
    end.
Qed.

Lemma returning_merged (st : TracerStats) :
  returning (if isZero st then [] else [Accumulate st]) = false
  /\ signals (if isZero st then [] else [Accumulate st]) = []
  /\ gatherCalls (if isZero st then [] else [Accumulate st]) = []
  /\ acksOf (if isZero st then [] else [Accumulate st]) = []
  /\ closesReader (if isZero st then [] else [Accumulate st]) = false.
Proof. destruct (isZero st); cbn; tauto. Qed.

(** The effects of a whole iteration, by kind. *)
Lemma loop_iter_effects (now : Time) (c : SelectCase) (s s' : LoopState W)
    (effs : list Effect) :
  loop_ok s ->
  loop_iter nextGracePeriod t now c s = Some (looping s' effs) ->
  exists (s1 : LoopState W) (flow : Flow),
    select_flow c s = flow
    /\ requestActive s1 = (if is_result c then false else requestActive s)
    /\ gracePeriod s'
       = match c with
         | caseRequestResult (Some _) => nextGracePeriod (gracePeriod s)
         | caseRequestResult None => -1
         | _ => gracePeriod s
         end
    /\ let g := match flow with fallthrough g => g | continueLoop => false end in
       let o := match flow with fallthrough _ => opens s1 | continueLoop => false end in
       returning effs = false
       /\ signals effs = (if o then [gracePeriod s'] else [])
       /\ requestActive s' = requestActive s1 || o
       /\ (o = true -> requestActive s1 = false)
       /\ gatherCalls effs
          = (if g then [{| gc_timestamp := now;
                           gc_pending := metricsGatherers (cfg s1) |}] else [])
       /\ gatheringMetrics s'
          = g || (if is_gathered c then false else gatheringMetrics s)
       /\ acksOf effs = select_acks c s
       /\ flushed s'
          = match c with
            | caseForceFlush ch _ => Some ch
            | caseRequestResult _ => None
            | _ => flushed s
            end.
Proof.
  intros Hok Hiter.
  destruct (loop_iter_spec _ _ _ _ _ _ _ Hok Hiter)
    as [flow [s1 [effs1 [Hsel [Hpost Hflow]]]]].
  destruct Hpost as [P1 [P2 [P3 [P4 [P5 [P6 [P7 [P8 [P9 [P10 [P11 [P12 [P13 P14]]]]]]]]]]]]].
  exists s1, flow. split; [symmetry; exact P2|]. split; [exact P4|].
  assert (Hg6 : gatheringMetrics s1
                = (if is_gathered c then false else gatheringMetrics s)).
  { rewrite P6. destruct c; reflexivity. }
  destruct flow as [g|].
  - destruct (afterSelect_spec nextGracePeriod _ _ _ _ _ _ _ Hflow)
      as [rest [E1 [E2 [E3 [E4 [E5 [E6 [E7 [Hc [Hst Hcnt]]]]]]]]]].
    apply control_fields_of in Hc. cbn in Hc.
    destruct Hc as [A1 [A2 [A3 [A4 [A5 [A6 [A7 [A8 [A9 A10]]]]]]]]].
    destruct (returning_merged (stats s1)) as [M1 [M2 [M3 [M4 M5]]]].
    split; [rewrite A2; exact P5|].
    cbv zeta. subst effs.
    rewrite !returning_app, !signals_app, !gatherCalls_app, !acksOf_app.
    rewrite P9, P10, P11, P12, M1, M2, M3, M4, E3, E4, E5, E6, A1, A2, A3, A4,
      Hg6, P7.
    cbn. rewrite app_nil_r.
    split_goal; try reflexivity.
    unfold opens. intros Ho. apply andb_true_iff in Ho. destruct Ho as [Ho _].
    apply negb_true_iff in Ho. exact Ho.
  - destruct Hflow as [Hs He]. subst s' effs.
    split; [exact P5|]. cbv zeta.
    rewrite P9, P10, P11, P12, Hg6, P7, orb_false_r. cbn.
    split_goal; try reflexivity. intros H; discriminate.
Qed.


Lemma with_loopStatus_spec (st : LoopStatus W) (y : Sys W) :
  loopStatus (with_loopStatus st y) = st
  /\ sender (with_loopStatus st y) = sender y
  /\ requestResult (with_loopStatus st y) = requestResult y
  /\ gathers (with_loopStatus st y) = gathers y
  /\ gatheredMetrics (with_loopStatus st y) = gatheredMetrics y
  /\ t_stats (with_loopStatus st y) = t_stats y
  /\ same_lifecycle y (with_loopStatus st y)
  /\ t_closing (with_loopStatus st y) = t_closing y
  /\ panicked (with_loopStatus st y) = panicked y
  /\ acks (with_loopStatus st y) = acks y
  /\ threads (with_loopStatus st y) = threads y
  /\ readerClosed (with_loopStatus st y) = readerClosed y.
Proof. unfold same_lifecycle. destruct y; cbn. tauto. Qed.

(** An iteration of the loop keeps [sys_ok]. *)
Lemma step_loop_ok (y y1 y' : Sys W) (s : LoopState W) (now : Time)
    (c : SelectCase) (r : IterResult W) :
  sys_ok y ->
  loopStatus y = loopRunning s ->
  receive c y y1 ->
  loop_iter nextGracePeriod t now c s = Some r ->
  apply_effects (iter_effects r) (with_loopStatus (iter_status r) y1) = Some y' ->
  sys_ok y'.
Proof.
  intros [Hwf Hrun] Hs Hrecv Hiter Happ. rewrite Hs in Hrun.
  destruct Hrun as [Hok [Hreq [Hgat [Hcl [Hcd [Hact Hctx]]]]]].
  destruct (receive_spec _ _ _ Hrecv)
    as [R1 [R2 [R3 [R4 [R5 [R6 [R7 [R8 [R9 [R10 [R11 [R12 [R13 R14]]]]]]]]]]]]].
  destruct r as [effs|s' effs].
  - (* the loop returns *)
    destruct (loop_iter_exited _ _ _ _ Hiter) as [Hc He]. subst c effs.
    destruct (R14 eq_refl) as [Hclosing Hy]. subst y1.
    cbn in Happ. unfold sys_ok. destruct y; cbn in *.
    inversion Happ; subst; clear Happ. cbn. tauto.
  - (* the loop goes on *)
    unfold iter_effects, iter_status in Happ.
    destruct (with_loopStatus_spec (loopRunning s') y1)
      as [L1 [L2 [L3 [L4 [L5 [L6 [L7 [L8 [L9 [L10 [L11 L12]]]]]]]]]]].
    destruct (apply_effects_spec _ _ _ Happ) as [A1 [A2 [A3 [A4 [A5 [A6 A7]]]]]].
    destruct A1 as [B1 [B2 [B3 [B4 [B5 [B6 [B7 B8]]]]]]].
    pose proof (loop_iter_ok _ _ _ _ _ _ _ Hok Hiter) as Hok'.
    destruct (loop_iter_effects _ _ _ _ _ Hok Hiter)
      as [s1 [flow [F1 [F2 [F3 F4]]]]].
    cbv zeta in F4.
    destruct F4 as [G1 [G2 [G3 [G4 [G5 [G6 [G7 G8]]]]]]].
    specialize (A4 G1). unfold same_lifecycle in *.
    destruct A4 as [C1 [C2 [C3 C4]]]. destruct L7 as [D1 [D2 [D3 D4]]].
    destruct R5 as [E1 [E2 [E3 E4]]].
    unfold sys_ok. rewrite B1, L1.
    split; [rewrite A2; apply merge_effects_wf; rewrite L6, R3; exact Hwf|].
    split; [exact Hok'|].
    split.
    { (* the request *)
      unfold request_inv in *. rewrite B4, L3, R10, G3, F2.
      destruct (match flow with
                | fallthrough _ => opens s1
                | continueLoop => false
                end) eqn:Ho.
      - rewrite orb_true_r.
        destruct (A6 _ G2) as [S1 S2]. rewrite S2. left. split; [exact I|].
        specialize (G4 eq_refl). rewrite F2 in G4.
        destruct (is_result c); [reflexivity|].
        rewrite G4 in Hreq. apply Hreq.
      - rewrite orb_false_r. rewrite (A5 G2), L2, R1.
        destruct (is_result c) eqn:Hres.
        + destruct c; try discriminate.
          pose proof (R11 _ eq_refl) as Hr.
          destruct (requestActive s).
          * destruct Hreq as [[_ Hn]|[Hi _]]; [congruence | tauto].
          * destruct Hreq as [_ Hn]. congruence.
        + exact Hreq. }
    split.
    { (* the gathering cycle *)
      unfold gather_inv in *. rewrite A3, L4, R2, B5, L5, R12, G5, G6.
      assert (Hg : match flow with fallthrough g => g | continueLoop => false end
                   = match c with
                     | caseMetricsTimer | caseForceSendMetrics _ =>
                         negb (gatheringMetrics s)
                     | _ => false
                     end).
      { rewrite <- F1. unfold select_flow.
        destruct c; try reflexivity.
        match goal with |- context [if ?b then _ else _] => destruct b end;
          reflexivity. }
      rewrite Hg.
      destruct c; cbn [is_gathered]; rewrite ?orb_false_l, ?app_nil_r;
        try exact Hgat.
      - destruct (gatheringMetrics s); cbn; rewrite ?app_nil_r; [exact Hgat|].
        destruct Hgat as [H1 H2]. rewrite H1. left. eexists. split; [reflexivity | exact H2].
      - destruct (gatheringMetrics s); cbn; rewrite ?app_nil_r; [exact Hgat|].
        destruct Hgat as [H1 H2]. rewrite H1. left. eexists. split; [reflexivity | exact H2].
      - pose proof (R13 eq_refl) as Hgm.
        destruct (gatheringMetrics s).
        + destruct Hgat as [[cyc [_ Hn]]|[H1 _]]; [congruence | tauto].
        + destruct Hgat as [_ Hn]. congruence. }
    rewrite C4, D4, E4, C1, D1, E1, C2, D2, E2, C3, D3, E3. tauto.
Qed.


Lemma singleton_split {A : Type} (l1 l2 : list A) (x a : A) :
  l1 ++ x :: l2 = [a] -> l1 = [] /\ l2 = [] /\ x = a.
Proof.
  destruct l1 as [|b l1]; cbn; intros H.
  - injection H as H1 H2. tauto.
  - injection H as H1 H2. destruct l1; discriminate.
Qed.

Lemma nil_split {A : Type} (l1 l2 : list A) (x : A) : l1 ++ x :: l2 <> [].
Proof. destruct l1; discriminate. Qed.

Ltac sys_simpl :=
  unfold sys_ok, request_inv, gather_inv, update_metrics in *; cbn in *.

Ltac sys_open y :=
  destruct y as [cl cd ac st ev ls cx ssc sn rr rc rd gs gm ak th nc pn];
  sys_simpl; subst.

Ltac sender_case Hok ls :=
  let Hwf := fresh "Hwf" in
  let Hrun := fresh "Hrun" in
  let Hl := fresh "Hl" in
  let Hr := fresh "Hr" in
  let Hrest := fresh "Hrest" in
  let s := fresh "s" in
  destruct Hok as [Hwf Hrun]; split; [exact Hwf|];
  destruct ls as [|s|];
  [ destruct Hrun as [_ [_ [_ [_ Hrun]]]]; discriminate Hrun
  | destruct Hrun as [Hl [Hr Hrest]]; split; [exact Hl|]; split; [|exact Hrest];
    destruct (requestActive s); intuition congruence
  | exact Hrun ].

(** Every step keeps [sys_ok]. *)
Lemma sys_step_ok (y y' : Sys W) (l : Label) :
  sys_ok y -> sys_step nextGracePeriod t y l y' -> sys_ok y'.
Proof.
  intros Hok Hstep. destruct Hstep.
  - (* enqueue *) sys_open y. exact Hok.
  - (* the loop *) eapply step_loop_ok; eassumption.
  - (* request timer *)
    sys_open y. destruct Hok as [Hwf [Hl Hrest]].
    split; [exact Hwf|]. split; [apply loop_ok_requestTimer_fire; assumption|].
    destruct s; cbn in *. exact Hrest.
  - (* metrics timer *)
    sys_open y. destruct Hok as [Hwf [Hl Hrest]].
    split; [exact Hwf|]. split; [apply loop_ok_metricsTimer_fire; assumption|].
    destruct s; cbn in *. exact Hrest.
  - (* the sender waits *) sys_open y. sender_case Hok ls.
  - (* SendStream is called *) sys_open y. sender_case Hok ls.
  - (* SendStream returns *) sys_open y. sender_case Hok ls.
  - (* the result is handed over *) sys_open y. sender_case Hok ls.
  - (* the sender ends *)
    sys_open y. destruct Hok as [Hwf Hrun]. split; [exact Hwf|].
    destruct ls as [|s|]; [| |exact Hrun].
    + destruct Hrun as [_ [_ [_ [_ H2]]]]. discriminate H2.
    + destruct Hrun as [_ [_ [_ [H2 _]]]]. discriminate H2.
  - (* Read *) sys_open y. exact Hok.
  - (* Read returns EOF *) sys_open y. exact Hok.
  - (* a gatherer returns *)
    sys_open y. destruct Hok as [Hwf Hrun]. split; [exact Hwf|].
    destruct ls as [|s|]; [| |exact Hrun].
    + destruct Hrun as [_ [_ [_ [H2 _]]]]. exfalso. exact (nil_split _ _ _ H2).
    + destruct Hrun as [Hl [Hr [Hg Hrest]]].
      split; [apply loop_ok_set_metrics; exact Hl|].
      destruct s; cbn in *. split; [exact Hr|]. split; [|exact Hrest].
      match goal with |- if ?b then _ else _ => destruct b end.
      * destruct Hg as [[c0 [Hg1 Hg2]]|[Hg1 _]].
        -- apply singleton_split in Hg1. destruct Hg1 as [-> [-> _]].
           left. eexists. split; [reflexivity | exact Hg2].
        -- exfalso. exact (nil_split _ _ _ Hg1).
      * destruct Hg as [Hg1 _]. exfalso. exact (nil_split _ _ _ Hg1).
  - (* the cycle signals *)
    sys_open y. destruct Hok as [Hwf Hrun]. split; [exact Hwf|].
    destruct ls as [|s|]; [| |exact Hrun].
    + destruct Hrun as [_ [_ [_ [H2 _]]]]. exfalso. exact (nil_split _ _ _ H2).
    + destruct Hrun as [Hl [Hr [Hg Hrest]]].
      split; [apply loop_ok_set_metrics; exact Hl|].
      destruct s; cbn in *. split; [exact Hr|]. split; [|exact Hrest].
      match goal with |- if ?b then _ else _ => destruct b end.
      * destruct Hg as [[c0 [Hg1 Hg2]]|[Hg1 _]].
        -- apply singleton_split in Hg1. destruct Hg1 as [-> [-> _]].
           right. split; reflexivity.
        -- exfalso. exact (nil_split _ _ _ Hg1).
      * destruct Hg as [Hg1 _]. exfalso. exact (nil_split _ _ _ Hg1).
  - (* a call begins *)
    match goal with H : begins _ _ _ |- _ => destruct H end;
      sys_open y; exact Hok.
  - sys_open y. exact Hok.
  - (* close(t.closing) *)
    sys_open y. destruct Hok as [Hwf Hrun]. split; [exact Hwf|].
    destruct ls as [|s|]; try exact Hrun.
    destruct Hrun as [_ [H2 _]]. discriminate H2.
  - sys_open y. exact Hok.
  - sys_open y. exact Hok.
  - sys_open y. exact Hok.
  - sys_open y. exact Hok.
  - sys_open y. exact Hok.
  - sys_open y. exact Hok.
  - sys_open y. exact Hok.
  - sys_open y. exact Hok.
  - sys_open y. exact Hok.
  - exact Hok.
  - exact Hok.
Qed.

Lemma steps_ok (y y' : Sys W) (ls : list Label) :
  sys_ok y -> steps nextGracePeriod t y ls y' -> sys_ok y'.
Proof.
  intros Hok Hsteps. induction Hsteps as [|y ls y1 l y2 Hs IH Hstep].
  - exact Hok.
  - apply (sys_step_ok y1 y2 l); [apply IH; exact Hok | exact Hstep].
Qed.

Lemma reachable_ok (y : Sys W) : reachable nextGracePeriod t y -> sys_ok y.
Proof.
  intros [active [cmd [ls Hsteps]]].
  apply (steps_ok _ _ _ (sys_ok_newTracer active cmd) Hsteps).
Qed.

End SystemFacts.

(** * Sample tracers

    The concrete tracers the statements below are tried on: the sample
    compressor, a doubling grace period capped at a minute, and the
    configuration [newTracer] sends, with or without a default logger. *)

Definition sampleTracer : TracerParams :=
  {| bufferSize := 10000; metricsBufferSize := 1000; metadataLen := 100 |}.

Definition sampleGracePeriod : Duration -> Duration :=
  doublingGracePeriod 60000000000.

Definition sampleOptions (l : option Logger) : tracerConfigCommand :=
  fun cfg =>
    {| requestSize := 1000; requestDuration := 10000000000;
       metricsInterval := 0;
       cfg_logger := match l with Some _ => l | None => cfg_logger cfg end;
       metricsGatherers := [0%nat];
       preContext := 3; postContext := 3;
       sanitizedFieldNames := []; disabledMetrics := [] |}.

Definition transaction (n : positive) : tracerEvent :=
  {| eventType := transactionEvent; encodedLen := n |}.

(** The loop's variables after the cases [cases], from the start. *)
Definition loopAfter (cases : list (Time * SelectCase)) : LoopState HoldingWriter :=
  match run sampleGracePeriod sampleTracer cases (initialLoop sampleTracer) with
  | Some (looping s _) => s
  | _ => initialLoop sampleTracer
  end.

(** A request is open and carries one transaction; no logger is set. *)
Definition sampleStreaming : LoopState HoldingWriter :=
  Eval vm_compute in
    loopAfter [(1, caseConfigCommand (sampleOptions None));
               (2, caseEvent (transaction 500))].

(** The same with a logger. *)
Definition sampleStreamingLogged : LoopState HoldingWriter :=
  Eval vm_compute in
    loopAfter [(1, caseConfigCommand (sampleOptions (Some (logger 0))));
               (2, caseEvent (transaction 500))].

(** [SendMetrics] was called while the request was open; the gatherers
    have not returned. *)
Definition sampleSendMetricsPending : LoopState HoldingWriter :=
  Eval vm_compute in
    loopAfter [(1, caseConfigCommand (sampleOptions None));
               (2, caseEvent (transaction 500));
               (3, caseForceSendMetrics 7%nat)].

Definition sampleShared : TracerStats :=
  {| Errors := {| SendStream := 2 |};
     ErrorsSent := 0; ErrorsDropped := 0;
     TransactionsSent := 5; TransactionsDropped := 1;
     SpansSent := 9; SpansDropped := 0 |}.

Ltac sample_ok :=
  unfold loop_ok, select_ok, counters_ok, requestTimer_ok, metricsTimer_ok,
    stats_wf, is_u64, u64_mod;
  cbn; repeat split; try lia; try reflexivity; try discriminate;
  try (left; split; [discriminate | reflexivity]);
  try (intros H; exfalso; apply H; reflexivity).

Lemma loop_ok_sampleStreaming : loop_ok sampleStreaming.
Proof. sample_ok. Qed.

Lemma loop_ok_sampleStreamingLogged : loop_ok sampleStreamingLogged.
Proof. sample_ok. Qed.

Lemma loop_ok_sampleSendMetricsPending : loop_ok sampleSendMetricsPending.
Proof. sample_ok. Qed.

Lemma stats_wf_sampleShared : stats_wf sampleShared.
Proof. sample_ok. Qed.

(** * The result of a send (C5, C9) *)

Section ResultFacts.

Context {W : Type} {ZW : ZlibWriter W}.

Variable nextGracePeriod : Duration -> Duration.

Variable t : TracerParams.

Lemma openRequest_logged (s s' : LoopState W) (opened : list Effect) :
  openRequest t s = Some (s', opened) -> logged opened = [].
Proof.
  unfold openRequest.
  destruct (requestActive s); [intros H; inversion H; reflexivity|].
  destruct ((ringbuffer.Len (buffer s) =? 0) && (ringbuffer.Len (metricsBuffer s) =? 0));
    [discriminate|].
  intros H. inversion H. reflexivity.
Qed.

Lemma respond_logged (s : LoopState W) : logged (snd (respond s)) = [].
Proof.
  destruct (respond_spec nextGracePeriod s) as [_ [_ [_ [R|[n [eof R]]]]]]; rewrite R; reflexivity.
Qed.

Lemma mergeStats_logged (s : LoopState W) : logged (snd (mergeStats s)) = [].
Proof. unfold mergeStats. destruct (negb (isZero (stats s))); reflexivity. Qed.

(** Without a gathering cycle to start, the part of the iteration after
    the [select] logs nothing. *)
Lemma afterSelect_logged (now : Time) (s s' : LoopState W)
    (effs0 effs : list Effect) :
  afterSelect t now false s effs0 = Some (looping s' effs) ->
  logged effs = logged effs0.
Proof.
  unfold afterSelect. cbv zeta. cbn [fst snd].
  pose proof (mergeStats_logged s) as Hm.
  destruct (openRequest t (fst (mergeStats s))) as [[s3 opened]|] eqn:Hopen.
  - apply openRequest_logged in Hopen.
    destruct (streaming s3) as [s4|]; [|discriminate].
    intros H. inversion H; subst.
    rewrite !logged_app, Hm, Hopen, respond_logged. cbn.
    rewrite app_nil_r. reflexivity.
  - intros H. inversion H; subst.
    rewrite !logged_app, Hm. cbn. rewrite app_nil_r. reflexivity.
Qed.

(** The whole iteration on a failed send. *)
Lemma loop_iter_failure (now : Time) (s : LoopState W) (shared : TracerStats)
    (e : SendError) :
  loop_ok s -> stats_wf shared ->
  exists s' effs,
    loop_iter nextGracePeriod t now (caseRequestResult (Some e)) s
    = Some (looping s' effs)
    /\ merge_effects effs shared = incSendStream shared
    /\ gracePeriod s' = nextGracePeriod (gracePeriod s)
    /\ logged effs
       = match cfg_logger (cfg s) with
         | Some _ =>
             [(failureLogf e,
               requestFailedLine e (nextGracePeriod (gracePeriod s)))]
         | None => []
         end
    /\ loop_ok s'.
Proof.
  intros Hok Hwf.
  destruct (onRequestResult_failure nextGracePeriod s shared e Hok Hwf)
    as [s1 [effs1 [Hsel [Hmerge [Hst [Hg [Hlog _]]]]]]].
  destruct (afterSelect_looping t now false s1 effs1) as [s' [effs Hafter]].
  assert (Hiter : loop_iter nextGracePeriod t now (caseRequestResult (Some e)) s
                  = Some (looping s' effs)).
  { unfold loop_iter, selectCase. rewrite Hsel. exact Hafter. }
  exists s', effs. split; [exact Hiter|].
  destruct (afterSelect_spec nextGracePeriod t now false s1 s' effs1 effs Hafter)
    as [rest [E1 [E2 [_ [_ [_ [_ [_ [Hc _]]]]]]]]].
  apply control_fields_of in Hc. cbn in Hc.
  destruct Hc as [_ [A2 _]].
  split.
  { rewrite E1, Hst. cbn [isZero]. 
    change (isZero zeroStats) with true. cbn [app].
    rewrite merge_effects_app, Hmerge.
    apply merge_effects_none. exact E2. }
  split; [rewrite A2; exact Hg|].
  split; [rewrite (afterSelect_logged _ _ _ _ _ Hafter); exact Hlog|].
  exact (loop_iter_ok nextGracePeriod t now _ s s' effs Hok Hiter).
Qed.

End ResultFacts.

(** C9 (amended): every failed send adds one to the send-error counter
    of the shared statistics; when a logger is configured the failure
    is logged once, at debug severity, or at error severity when the
    error is an HTTP error with status 404, and when no logger is
    configured nothing is logged.  In both cases the iteration comes to
    its end with the loop still running: the grace period has advanced
    and the loop's invariant holds for the next iteration. *)
Theorem send_failure_absorbed {W : Type} {ZW : ZlibWriter W}
    (nextGracePeriod : Duration -> Duration) (t : TracerParams) (now : Time)
    (s : LoopState W) (shared : TracerStats) (e : SendError) :
  loop_ok s -> stats_wf shared ->
  exists s' effs,
    loop_iter nextGracePeriod t now (caseRequestResult (Some e)) s
    = Some (looping s' effs)
    /\ SendStream (Errors (merge_effects effs shared))
       = u64_add (SendStream (Errors shared)) 1
    /\ merge_effects effs shared = incSendStream shared
    /\ logged effs
       = match cfg_logger (cfg s) with
         | Some _ =>
             [(match e with HTTPError 404 => Errorf | _ => Debugf end,
               requestFailedLine e (nextGracePeriod (gracePeriod s)))]
         | None => []
         end
    /\ gracePeriod s' = nextGracePeriod (gracePeriod s)
    /\ loop_ok s'.
Proof.
  intros Hok Hwf.
  destruct (loop_iter_failure nextGracePeriod t now s shared e Hok Hwf)
    as [s' [effs [Hiter [Hmerge [Hg [Hlog Hok']]]]]].
  exists s', effs. split; [exact Hiter|].
  split; [rewrite Hmerge; reflexivity|].
  split; [exact Hmerge|].
  split; [exact Hlog|].
  split; [exact Hg | exact Hok'].
Qed.

(** C9, tried: a 404 from the server with a logger set. *)
Lemma send_failure_absorbed_witness :
  exists s' effs,
    loop_iter sampleGracePeriod sampleTracer 3
      (caseRequestResult (Some (HTTPError 404))) sampleStreamingLogged
    = Some (looping s' effs)
    /\ SendStream (Errors (merge_effects effs sampleShared))
       = u64_add (SendStream (Errors sampleShared)) 1
    /\ merge_effects effs sampleShared = incSendStream sampleShared
    /\ logged effs
       = [(Errorf, requestFailedLine (HTTPError 404) (sampleGracePeriod (-1)))]
    /\ gracePeriod s' = sampleGracePeriod (-1)
    /\ loop_ok s'.
Proof.
  apply (send_failure_absorbed sampleGracePeriod sampleTracer 3
           sampleStreamingLogged sampleShared (HTTPError 404)).
  - unfold loop_ok, select_ok, counters_ok, requestTimer_ok, metricsTimer_ok,
      is_u64, u64_mod.
    cbn. repeat split; try lia; try reflexivity; try discriminate.
    + left. split; [discriminate | reflexivity].
    + intros H. exfalso. apply H. reflexivity.
  - unfold stats_wf, is_u64, u64_mod. cbn. lia.
Defined.

(** C9 as stated fails: no logger is configured (the default), a send
    fails, and the iteration logs nothing, at any severity; the counter
    is incremented all the same. *)
Lemma send_failure_not_logged :
  cfg_logger (cfg sampleStreaming) = None
  /\ exists s' effs,
       loop_iter sampleGracePeriod sampleTracer 3
         (caseRequestResult (Some otherError)) sampleStreaming
       = Some (looping s' effs)
       /\ logged effs = []
       /\ SendStream (Errors (merge_effects effs sampleShared)) = 3.
Proof.
  split; [reflexivity|].
  eexists. eexists. split; [vm_compute; reflexivity|].
  split; reflexivity.
Qed.




(** * The inner loop (C2) *)

(** C2 (amended): in the streaming phase the loop takes the oldest
    block of the metrics buffer, or of the trace buffer once the metrics
    buffer is empty, and writes it to the compressor, as long as
    [requestBytesRead + requestBuf.Len()] is below [cfg.requestSize];
    that quantity counts the bytes the compressor has put out for the
    request (those the transport has read and those waiting in
    [requestBuf]), that is compressed bytes, not the bytes written to
    the compressor.  A request not marked for closing before, and not
    closed off for a pending [SendMetrics], is marked exactly when that
    count of compressed bytes has reached [cfg.requestSize]. *)
Theorem streaming_counts_compressed {W : Type} {ZW : ZlibWriter W}
    (s : LoopState W) :
  exists s',
    streaming s = Some s'
    /\ if negb (closeRequest s) || negb (zlibClosed s) then
         exists pm pt,
           ringbuffer.blocks (metricsBuffer s)
           = pm ++ ringbuffer.blocks (metricsBuffer s')
           /\ ringbuffer.blocks (buffer s) = pt ++ ringbuffer.blocks (buffer s')
           /\ (pt <> [] -> ringbuffer.blocks (metricsBuffer s') = [])
           /\ zlib_Writes (zlibWriter s) (blockWrites (pm ++ pt))
              = (zlibWriter s', requestBuf s' - requestBuf s)
           /\ requestBytesRead s' = requestBytesRead s
           /\ requestBytes s' = requestBytesAfter s (pm ++ pt)
           /\ (forall done b rest, pm ++ pt = done ++ b :: rest ->
                 requestBytesAfter s done < requestSize (cfg s))
           /\ (requestSize (cfg s) <= requestBytes s'
               \/ (ringbuffer.blocks (metricsBuffer s') = []
                   /\ ringbuffer.blocks (buffer s') = []))
           /\ closeRequest s'
              = closeRequest s
                || (isSome (sentMetrics s) && negb (isNil pm))
                || (requestSize (cfg s) <=? requestBytes s')
       else s' = s.
Proof.
  unfold streaming.
  destruct (negb (closeRequest s) || negb (zlibClosed s)) eqn:Hguard;
    [|exists s; split; reflexivity].
  destruct (streamBlocks_total (streamFuel s) s) as [s1 H1].
  { unfold streamFuel. lia. }
  rewrite H1.
  destruct (streamBlocks_spec _ _ _ H1)
    as [pm [pt [B1 [B2 [B3 [B4 [B5 [B6 [B7 B8]]]]]]]]].
  destruct B8 as [C1 [C2 _]].
  assert (Hbytes : requestBytes s1 = requestBytesAfter s (pm ++ pt)).
  { unfold requestBytes, requestBytesAfter. rewrite B4, C2. cbn [snd].
    f_equal. lia. }
  destruct (closeRequest s1) eqn:Hclose; cbn [negb].
  - exists s1. split; [reflexivity|]. exists pm, pt.
    split; [exact B1|]. split; [exact B2|]. split; [exact B3|].
    split; [exact B4|]. split; [exact C2|]. split; [exact Hbytes|].
    split; [exact B6|]. split; [exact B5|].
    rewrite Hclose, <- B7. reflexivity.
  - eexists. split; [reflexivity|]. exists pm, pt.
    rewrite <- B7. cbn [orb].
    set (b := requestSize (cfg s1) <=? requestBytes s1).
    destruct (set_closeRequest_same (fun d => d) b s1) as [S1 [S2 [S3 [S4 [S5 [S6 _]]]]]].
    destruct S1 as [_ [S1 _]].
    assert (Hrb : requestBytes (set_closeRequest b s1) = requestBytes s1).
    { unfold requestBytes. rewrite S1, S4. reflexivity. }
    rewrite S2, S3, S4, S5, S6, S1, Hrb.
    split; [exact B1|]. split; [exact B2|]. split; [exact B3|].
    split; [exact B4|]. split; [exact C2|]. split; [exact Hbytes|].
    split; [exact B6|]. split; [exact B5|].
    unfold b. rewrite C1. reflexivity.
Qed.

(** Two transactions of 500 bytes went into the open request. *)
Definition sampleTwoBlocks : LoopState HoldingWriter :=
  Eval vm_compute in
    loopAfter [(1, caseConfigCommand (sampleOptions None));
               (2, caseEvent (transaction 500));
               (3, caseEvent (transaction 500))].

(** C2 as stated fails: with a ceiling of 1000 bytes, the metadata (100
    bytes) and two transactions (501 bytes each with the newline) have
    been written to the compressor, 1102 bytes, of which the compressor
    has put out the two bytes of its header.  The next transaction is
    taken and compressed all the same, and the request is not marked
    for closing: 1603 bytes went in, the quantity compared with the
    ceiling is 2. *)
Lemma streaming_past_uncompressed_ceiling :
  requestSize (cfg sampleTwoBlocks) = 1000
  /\ held (zlibWriter sampleTwoBlocks) = 100 + 501 + 501
  /\ requestBytes sampleTwoBlocks = 2
  /\ exists s' effs,
       loop_iter sampleGracePeriod sampleTracer 4
         (caseEvent (transaction 500)) sampleTwoBlocks
       = Some (looping s' effs)
       /\ ringbuffer.blocks (buffer s') = []
       /\ requestBufTransactions s' = 3
       /\ held (zlibWriter s') = 100 + 501 + 501 + 501
       /\ requestBytes s' = 2
       /\ closeRequest s' = false.
Proof.
  split; [reflexivity|]. split; [reflexivity|]. split; [reflexivity|].
  eexists. eexists. split; [vm_compute; reflexivity|].
  repeat split.
Qed.


(** * Sample runs of the tracer *)

(** An active tracer, as [newTracer] leaves it. *)
Definition sampleSys0 : Sys HoldingWriter :=
  newTracer sampleTracer true (sampleOptions None).

(** The loop has taken the first configuration command. *)
Definition sampleSys1 : Sys HoldingWriter :=
  with_loopStatus
    (loopRunning (loopAfter [(1, caseConfigCommand (sampleOptions None))]))
    (with_threads [returned] sampleSys0).

(** A transaction of 500 bytes is in [t.events]. *)
Definition sampleSys2 : Sys HoldingWriter :=
  with_t_events [transaction 500] sampleSys1.

(** The loop has taken it, opened a request and signalled the sending
    goroutine. *)
Definition sampleSys3 : Sys HoldingWriter :=
  with_sender (senderReceived (-1))
    (with_loopStatus (loopRunning sampleStreaming)
       (with_t_events [] sampleSys2)).

Lemma sampleSys3_steps :
  steps sampleGracePeriod sampleTracer sampleSys0
    [L_loop 1 (caseConfigCommand (sampleOptions None)) [];
     L_enqueue (transaction 500);
     L_loop 2 (caseEvent (transaction 500)) [sendStreamRequest (-1)]]
    sampleSys3.
Proof.
  apply (steps_snoc _ _ sampleSys0
           [L_loop 1 (caseConfigCommand (sampleOptions None)) [];
            L_enqueue (transaction 500)] sampleSys2).
  - apply (steps_snoc _ _ sampleSys0
             [L_loop 1 (caseConfigCommand (sampleOptions None)) []] sampleSys1).
    + apply (steps_snoc _ _ sampleSys0 [] sampleSys0); [apply steps_nil|].
      apply (step_loop _ _ sampleSys0 (initialLoop sampleTracer) 1
               (caseConfigCommand (sampleOptions None))
               (with_threads [returned] sampleSys0)
               (looping
                  (loopAfter [(1, caseConfigCommand (sampleOptions None))]) [])).
      * reflexivity.
      * reflexivity.
      * apply (recv_newTracer sampleSys0 (sampleOptions None) [] []). reflexivity.
      * reflexivity.
      * reflexivity.
    + apply (step_enqueue _ _ sampleSys1 (transaction 500)).
      * reflexivity.
      * cbn. unfold tracerEventChannelCap. lia.
  - apply (step_loop _ _ sampleSys2
             (loopAfter [(1, caseConfigCommand (sampleOptions None))]) 2
             (caseEvent (transaction 500))
             (with_t_events [] sampleSys2)
             (looping sampleStreaming [sendStreamRequest (-1)])).
    + reflexivity.
    + reflexivity.
    + apply (recv_event sampleSys2 (transaction 500) []). reflexivity.
    + vm_compute. reflexivity.
    + reflexivity.
Qed.

Lemma sampleSys3_reachable : reachable sampleGracePeriod sampleTracer sampleSys3.
Proof.
  exists true, (sampleOptions None). eexists. exact sampleSys3_steps.
Qed.

(** * One request in flight (C1) *)

(** The sends under way: the sending goroutine is between the receipt
    of a signal and the delivery of its result, or a result waits in
    [requestResult]. *)
Definition sendsOutstanding {W : Type} (y : Sys W) : nat :=
  (match sender y with
   | senderReceived _ | senderGrace _ | senderSending | senderResult _ => 1
   | senderIdle | senderExited => 0
   end
   + match requestResult y with Some _ => 1 | None => 0 end)%nat.

Lemma sendsOutstanding_inv {W : Type} {ZW : ZlibWriter W}
    (s : LoopState W) (y : Sys W) :
  request_inv s y ->
  sendsOutstanding y = (if requestActive s then 1 else 0)%nat.
Proof.
  unfold request_inv, sendsOutstanding.
  destruct (requestActive s).
  - intros [[Hb Hr]|[Hi Hr]].
    + rewrite Hr. destruct (sender y); cbn in Hb; try contradiction; reflexivity.
    + rewrite Hi. destruct (requestResult y); [reflexivity | congruence].
  - intros [Hi Hr]. rewrite Hi, Hr. reflexivity.
Qed.

(** C1: in every reachable state with the loop running, one send is
    outstanding when [requestActive] is set and none otherwise.  An
    iteration of the loop signals the sending goroutine at most once,
    and only with [requestActive] false after the [select] (it was false
    before, or the case taken was the result of the send): no send is
    outstanding then and the goroutine waits for the signal.  The
    iteration that signals leaves [requestActive] set, and an iteration
    clears it only when it has received the result of the send. *)
Theorem single_request_in_flight {W : Type} {ZW : ZlibWriter W}
    (nextGracePeriod : Duration -> Duration) (t : TracerParams)
    (y : Sys W) (s : LoopState W) :
  reachable nextGracePeriod t y ->
  loopStatus y = loopRunning s ->
  sendsOutstanding y = (if requestActive s then 1 else 0)%nat
  /\ forall now c y1 s' effs,
       receive c y y1 ->
       loop_iter nextGracePeriod t now c s = Some (looping s' effs) ->
       (length (signals effs) <= 1)%nat
       /\ (signals effs <> [] ->
           (requestActive s = false \/ exists err, c = caseRequestResult err)
           /\ sendsOutstanding y1 = 0%nat
           /\ sender y1 = senderIdle
           /\ requestActive s' = true)
       /\ (requestActive s = true -> requestActive s' = false ->
           exists err, c = caseRequestResult err).
Proof.
  intros Hreach Hloop.
  pose proof (reachable_ok nextGracePeriod t y Hreach) as Hok.
  unfold sys_ok in Hok. rewrite Hloop in Hok.
  destruct Hok as [_ [Hl [Hreq _]]].
  split; [apply sendsOutstanding_inv; exact Hreq|].
  intros now c y1 s' effs Hrecv Hiter.
  destruct (loop_iter_effects nextGracePeriod t now c s s' effs Hl Hiter)
    as [s1 [flow [_ [Hact [_ Hrest]]]]].
  cbv zeta in Hrest.
  destruct Hrest as [_ [Hsig [Hact' [Hopen _]]]].
  destruct (receive_spec c y y1 Hrecv)
    as [R1 [_ [_ [_ [_ [_ [_ [_ [_ [R10 [R11 _]]]]]]]]]]].
  assert (Hres : is_result c = true -> exists err, c = caseRequestResult err).
  { destruct c; try discriminate. intros _. eexists. reflexivity. }
  set (o := match flow with
            | fallthrough _ => opens s1
            | continueLoop => false
            end) in *.
  split; [rewrite Hsig; destruct o; cbn; lia|].
  split.
  - intros Hne. destruct o; [|rewrite Hsig in Hne; congruence].
    specialize (Hopen eq_refl). rewrite Hopen in Hact.
    assert (Hidle : sender y = senderIdle /\ requestResult y1 = None).
    { rewrite R10. unfold request_inv in Hreq.
      destruct (is_result c) eqn:Hc.
      - destruct (Hres eq_refl) as [err Herr].
        pose proof (R11 err Herr) as Hr.
        destruct (requestActive s).
        + destruct Hreq as [[_ Hn]|[Hi _]]; [congruence | tauto].
        + destruct Hreq as [_ Hn]. congruence.
      - rewrite <- Hact in Hreq. exact Hreq. }
    destruct Hidle as [Hi Hn].
    split.
    { destruct (is_result c); [right; apply Hres; reflexivity | left; congruence]. }
    split; [unfold sendsOutstanding; rewrite R1, Hi, Hn; reflexivity|].
    split; [congruence|].
    rewrite Hact', Hopen. reflexivity.
  - intros Ht Hf. apply Hres.
    rewrite Hact' in Hf. apply orb_false_iff in Hf. destruct Hf as [Hf _].
    rewrite Hf in Hact. destruct (is_result c); [reflexivity | congruence].
Qed.

(** C1, tried on the sample tracer with its first request open. *)
Lemma single_request_in_flight_witness :
  sendsOutstanding sampleSys3 = 1%nat
  /\ forall now c y1 s' effs,
       receive c sampleSys3 y1 ->
       loop_iter sampleGracePeriod sampleTracer now c sampleStreaming
       = Some (looping s' effs) ->
       (length (signals effs) <= 1)%nat
       /\ (signals effs <> [] ->
           (true = false \/ exists err, c = caseRequestResult err)
           /\ sendsOutstanding y1 = 0%nat
           /\ sender y1 = senderIdle
           /\ requestActive s' = true)
       /\ (true = true -> requestActive s' = false ->
           exists err, c = caseRequestResult err).
Proof.
  apply (single_request_in_flight sampleGracePeriod sampleTracer
           sampleSys3 sampleStreaming).
  - exists true, (sampleOptions None). eexists. exact sampleSys3_steps.
  - reflexivity.
Defined.


(** * One gathering cycle (C8) *)










(** * Close (C6) *)

Section CloseFacts.

Context {W : Type} {ZW : ZlibWriter W}.

Variable nextGracePeriod : Duration -> Duration.

Variable t : TracerParams.

(** [t.closing] is closed and no call of [Close] stands between its
    look at [t.closing] and its [close(t.closing)]. *)
Definition closing_settled (y : Sys W) : Prop :=
  t_closing y = true /\ ~ In closeClosing (threads y) /\ panicked y = false.

Lemma In_replace {A : Type} (x a b : A) (l1 l2 : list A) :
  In x (l1 ++ b :: l2) -> x <> b -> In x (l1 ++ a :: l2).
Proof.
  intros Hin Hne. apply in_app_or in Hin. apply in_or_app.
  destruct Hin as [Hin|[Hin|Hin]]; [left; exact Hin | congruence |].
  right. right. exact Hin.
Qed.

Lemma receive_threads (c : SelectCase) (y y1 : Sys W) :
  receive c y y1 ->
  In closeClosing (threads y1) -> In closeClosing (threads y).
Proof.
  intros H; destruct H; destruct y; cbn in *; subst; intros Hin;
    try exact Hin; eapply In_replace; try exact Hin; discriminate.
Qed.

Lemma closing_settled_step (y y' : Sys W) (l : Label) :
  closing_settled y -> sys_step nextGracePeriod t y l y' ->
  closing_settled y' /\ l <> L_closePanics.
Proof.
  unfold closing_settled. intros [Hc [Hth Hp]] Hstep.
  split; [|destruct Hstep; try discriminate;
           exfalso; apply Hth;
           match goal with H : threads _ = _ |- _ => rewrite H end;
           apply in_or_app; right; left; reflexivity].
  destruct Hstep;
    try (destruct y; cbn in *; subst; split_goal; try assumption; try reflexivity;
         intros Hin; apply Hth; eapply In_replace; try exact Hin; discriminate).
  - (* the loop *)
    match goal with
    | H : apply_effects _ _ = Some _ |- _ =>
        destruct (apply_effects_spec _ _ _ H) as [Ho _]
    end.
    destruct Ho as [_ [O2 [_ [_ [_ [O6 [O7 _]]]]]]].
    match goal with
    | H : receive _ _ _ |- _ =>
        pose proof (receive_threads _ _ _ H) as Hrt;
        destruct (receive_spec _ _ _ H) as [_ [_ [_ [_ [_ [R6 [R7 _]]]]]]]
    end.
    rewrite O2, O6, O7.
    destruct y1; cbn in *. split_goal; try congruence.
    intros Hin. apply Hth. apply Hrt. exact Hin.
  - (* a call begins *)
    match goal with H : begins _ _ _ |- _ => destruct H end;
      destruct y; cbn in *; subst; split_goal; try assumption; try reflexivity;
      intros Hin; apply in_app_or in Hin;
      (destruct Hin as [Hin|[Hin|[]]]; [exact (Hth Hin) | discriminate]).
  - (* a second [close(t.closing)] *)
    exfalso. apply Hth.
    match goal with H : threads _ = _ |- _ => rewrite H end.
    apply in_or_app. right. left. reflexivity.
Qed.

Lemma closing_settled_steps (y y' : Sys W) (ls : list Label) :
  closing_settled y -> steps nextGracePeriod t y ls y' ->
  closing_settled y' /\ ~ In L_closePanics ls.
Proof.
  intros Hc Hsteps. induction Hsteps as [|y ls y1 l y2 Hs IH Hstep].
  - split; [exact Hc | intros []].
  - destruct (IH Hc) as [Hc1 Hn].
    destruct (closing_settled_step _ _ _ Hc1 Hstep) as [Hc2 Hl].
    split; [exact Hc2|]. intros Hin. apply in_app_or in Hin.
    destruct Hin as [Hin|[Hin|[]]]; [exact (Hn Hin) | congruence].
Qed.

End CloseFacts.

(** X5: Calls of [Close] that follow one another.  Once [t.closing] is
    closed and no call of [Close] stands between its look at
    [t.closing] and its [close(t.closing)], no call of [Close] panics,
    whatever is called and however the goroutines interleave; a call of
    [Close] returns only with [t.closed] closed, when the loop is no
    longer running.  On [<-t.closing] the loop cancels the send
    context, closes the read side of the stream with [io.EOF] and
    returns, with a send in flight or not: the goroutine of the send is
    left where it was, and from then on no [Read] of the transport is
    taken up by the loop, every [Read] returns [io.EOF]. *)
Theorem close_after_close {W : Type} {ZW : ZlibWriter W}
    (nextGracePeriod : Duration -> Duration) (t : TracerParams) (y : Sys W) :
  reachable nextGracePeriod t y ->
  (t_closing y = true -> ~ In closeClosing (threads y) -> panicked y = false ->
   forall ls y', steps nextGracePeriod t y ls y' ->
                 panicked y' = false /\ ~ In L_closePanics ls)
  /\ (forall y', sys_step nextGracePeriod t y (L_return closeWait) y' ->
                 t_closed y = true /\ forall s, loopStatus y <> loopRunning s)
  /\ (forall now effs y',
        sys_step nextGracePeriod t y (L_loop now caseClosing effs) y' ->
        t_closing y = true
        /\ effs = [cancelContext; CloseRead; closeSendStreamRequest;
                   storeInactive; closeClosed; cancelContext]
        /\ ctxDone y' = true /\ readerClosed y' = true
        /\ reading y' = notReading
        /\ t_closed y' = true /\ t_active y' = false
        /\ loopStatus y' = loopExited
        /\ sender y' = sender y /\ requestResult y' = requestResult y)
  /\ (loopStatus y = loopExited ->
      ctxDone y = true /\ readerClosed y = true
      /\ forall bufLen y', ~ sys_step nextGracePeriod t y (L_Read bufLen) y').
Proof.
  intros Hreach.
  pose proof (reachable_ok nextGracePeriod t y Hreach) as Hok.
  split.
  { intros Hc Hth Hp ls y' Hsteps.
    destruct (closing_settled_steps nextGracePeriod t y y' ls
                (conj Hc (conj Hth Hp)) Hsteps) as [[_ [_ Hp']] Hn].
    split; assumption. }
  split.
  { intros y' Hstep. inversion Hstep; subst.
    split; [assumption|]. intros s Hs.
    unfold sys_ok in Hok. rewrite Hs in Hok.
    destruct Hok as [_ [_ [_ [_ [_ [Hcl _]]]]]]. congruence. }
  split.
  { intros now effs y' Hstep.
    inversion Hstep as [ | y0 s now0 c y1 r y2 Hp Hl Hrecv Hiter Happ
                       | | | | | | | | | | | | | | | | | | | | | | | | | ];
      subst.
    destruct (receive_spec _ _ _ Hrecv)
      as [_ [_ [_ [_ [_ [_ [_ [_ [_ [_ [_ [_ [_ Hcl]]]]]]]]]]]]].
    destruct (Hcl eq_refl) as [Hc Hy]. subst y1.
    unfold loop_iter in Hiter. injection Hiter as Hr. subst r.
    split; [exact Hc|]. split; [reflexivity|].
    destruct y; cbn in Happ. injection Happ as Hy'. subst y'. cbn.
    repeat split. }
  intros Hex. unfold sys_ok in Hok. rewrite Hex in Hok.
  destruct Hok as [_ [_ [_ [_ [Hctx Hrd]]]]].
  split; [exact Hctx|]. split; [exact Hrd|].
  intros bufLen y' Hstep. inversion Hstep; subst. congruence.
Qed.

(** [Close] is called on the sample tracer while its first request is
    in flight, and has closed [t.closing]. *)
Definition sampleSysClosing : Sys HoldingWriter :=
  with_t_closing true (with_threads [returned; closeWait] sampleSys3).

Lemma sampleSysClosing_steps :
  steps sampleGracePeriod sampleTracer sampleSys0
    [L_loop 1 (caseConfigCommand (sampleOptions None)) [];
     L_enqueue (transaction 500);
     L_loop 2 (caseEvent (transaction 500)) [sendStreamRequest (-1)];
     L_call closeSelect; L_closeSelect; L_closeClosing]
    sampleSysClosing.
Proof.
  apply (steps_snoc _ _ sampleSys0
           [L_loop 1 (caseConfigCommand (sampleOptions None)) [];
            L_enqueue (transaction 500);
            L_loop 2 (caseEvent (transaction 500)) [sendStreamRequest (-1)];
            L_call closeSelect; L_closeSelect]
           (with_threads [returned; closeClosing] sampleSys3)).
  - apply (steps_snoc _ _ sampleSys0
             [L_loop 1 (caseConfigCommand (sampleOptions None)) [];
              L_enqueue (transaction 500);
              L_loop 2 (caseEvent (transaction 500)) [sendStreamRequest (-1)];
              L_call closeSelect]
             (with_threads [returned; closeSelect] sampleSys3)).
    + apply (steps_snoc _ _ sampleSys0
               [L_loop 1 (caseConfigCommand (sampleOptions None)) [];
                L_enqueue (transaction 500);
                L_loop 2 (caseEvent (transaction 500)) [sendStreamRequest (-1)]]
               sampleSys3).
      * exact sampleSys3_steps.
      * apply (step_call _ _ sampleSys3 closeSelect sampleSys3);
          [reflexivity | apply begins_Close].
    + apply (step_closeSelect _ _ (with_threads [returned; closeSelect] sampleSys3)
               [returned] []); reflexivity.
  - apply (step_closeClosing _ _
             (with_threads [returned; closeClosing] sampleSys3) [returned] []);
      reflexivity.
Qed.

(** Tried on the sample tracer closed with a request in flight. *)
Lemma close_after_close_witness :
  (t_closing sampleSysClosing = true ->
   ~ In closeClosing (threads sampleSysClosing) ->
   panicked sampleSysClosing = false ->
   forall ls y', steps sampleGracePeriod sampleTracer sampleSysClosing ls y' ->
                 panicked y' = false /\ ~ In L_closePanics ls)
  /\ (forall y',
        sys_step sampleGracePeriod sampleTracer sampleSysClosing
          (L_return closeWait) y' ->
        t_closed sampleSysClosing = true
        /\ forall s, loopStatus sampleSysClosing <> loopRunning s)
  /\ (forall now effs y',
        sys_step sampleGracePeriod sampleTracer sampleSysClosing
          (L_loop now caseClosing effs) y' ->
        t_closing sampleSysClosing = true
        /\ effs = [cancelContext; CloseRead; closeSendStreamRequest;
                   storeInactive; closeClosed; cancelContext]
        /\ ctxDone y' = true /\ readerClosed y' = true
        /\ reading y' = notReading
        /\ t_closed y' = true /\ t_active y' = false
        /\ loopStatus y' = loopExited
        /\ sender y' = sender sampleSysClosing
        /\ requestResult y' = requestResult sampleSysClosing)
  /\ (loopStatus sampleSysClosing = loopExited ->
      ctxDone sampleSysClosing = true /\ readerClosed sampleSysClosing = true
      /\ forall bufLen y',
           ~ sys_step sampleGracePeriod sampleTracer sampleSysClosing
               (L_Read bufLen) y').
Proof.
  apply (close_after_close sampleGracePeriod sampleTracer sampleSysClosing).
  exists true, (sampleOptions None). eexists. exact sampleSysClosing_steps.
Defined.

(** C6, the code where it breaks the claim: two goroutines call [Close]
    at the same time on the sample tracer, just constructed.  Both run
    the [select] while [t.closing] is open and take the [default]
    branch; the first closes [t.closing], the second closes it again
    and panics.  The [select] is there to keep a second call from
    closing the channel again, and misses the call that has looked at
    the channel before the first has closed it. *)
Lemma close_race_panics :
  exists y,
    steps sampleGracePeriod sampleTracer sampleSys0
      [L_call closeSelect; L_call closeSelect;
       L_closeSelect; L_closeSelect; L_closeClosing; L_closePanics] y
    /\ panicked y = true.
Proof.
  exists (with_panicked true
            (with_t_closing true
               (with_threads
                  [newTracerSend (sampleOptions None); closeWait; closeClosing]
                  sampleSys0))).
  split; [|reflexivity].
  apply (steps_snoc _ _ sampleSys0
           [L_call closeSelect; L_call closeSelect;
            L_closeSelect; L_closeSelect; L_closeClosing]
           (with_t_closing true
              (with_threads
                 [newTracerSend (sampleOptions None); closeWait; closeClosing]
                 sampleSys0))).
  - apply (steps_snoc _ _ sampleSys0
             [L_call closeSelect; L_call closeSelect;
              L_closeSelect; L_closeSelect]
             (with_threads
                [newTracerSend (sampleOptions None); closeClosing; closeClosing]
                sampleSys0)).
    + apply (steps_snoc _ _ sampleSys0
               [L_call closeSelect; L_call closeSelect; L_closeSelect]
               (with_threads
                  [newTracerSend (sampleOptions None); closeClosing; closeSelect]
                  sampleSys0)).
      * apply (steps_snoc _ _ sampleSys0
                 [L_call closeSelect; L_call closeSelect]
                 (with_threads
                    [newTracerSend (sampleOptions None); closeSelect; closeSelect]
                    sampleSys0)).
        -- apply (steps_snoc _ _ sampleSys0 [L_call closeSelect]
                    (with_threads
                       [newTracerSend (sampleOptions None); closeSelect]
                       sampleSys0)).
           ++ apply (steps_snoc _ _ sampleSys0 [] sampleSys0);
                [apply steps_nil|].
              apply (step_call _ _ sampleSys0 closeSelect sampleSys0);
                [reflexivity | apply begins_Close].
           ++ apply (step_call _ _
                       (with_threads
                          [newTracerSend (sampleOptions None); closeSelect]
                          sampleSys0)
                       closeSelect
                       (with_threads
                          [newTracerSend (sampleOptions None); closeSelect]
                          sampleSys0));
                [reflexivity | apply begins_Close].
        -- apply (step_closeSelect _ _
                    (with_threads
                       [newTracerSend (sampleOptions None); closeSelect; closeSelect]
                       sampleSys0)
                    [newTracerSend (sampleOptions None)] [closeSelect]);
             reflexivity.
      * apply (step_closeSelect _ _
                 (with_threads
                    [newTracerSend (sampleOptions None); closeClosing; closeSelect]
                    sampleSys0)
                 [newTracerSend (sampleOptions None); closeClosing] []);
          reflexivity.
    + apply (step_closeClosing _ _
               (with_threads
                  [newTracerSend (sampleOptions None); closeClosing; closeClosing]
                  sampleSys0)
               [newTracerSend (sampleOptions None)] [closeClosing]);
        reflexivity.
  - apply (step_closePanics _ _
             (with_t_closing true
                (with_threads
                   [newTracerSend (sampleOptions None); closeWait; closeClosing]
                   sampleSys0))
             [newTracerSend (sampleOptions None); closeWait] []);
      reflexivity.
Qed.


(** * The inactive tracer (C10) *)

Section Inactive.

Context {W : Type} {ZW : ZlibWriter W}.

Variable nextGracePeriod : Duration -> Duration.

Variable t : TracerParams.

(** What an inactive tracer is and stays: [closed] is closed, there is
    no loop, no sending goroutine and no gathering cycle, nothing was
    counted and nothing acknowledged. *)
Definition inactive (y : Sys W) : Prop :=
  loopStatus y = loopAbsent /\ t_closed y = true /\ t_active y = false
  /\ t_stats y = zeroStats /\ sender y = senderExited
  /\ requestResult y = None /\ gathers y = [] /\ acks y = []
  /\ gatheredMetrics y = false.

Lemma inactive_newTracer (cmd : tracerConfigCommand) :
  inactive (newTracer t false cmd).
Proof. unfold inactive. cbn. repeat split. Qed.

Lemma inactive_step (y y' : Sys W) (l : Label) :
  inactive y -> sys_step nextGracePeriod t y l y' -> inactive y'.
Proof.
  unfold inactive. intros Hin Hstep.
  destruct Hstep;
    try (match goal with H : begins _ _ _ |- _ => destruct H end);
    destruct y; cbn in *; split_ands; subst;
    try discriminate; try (exfalso; eapply nil_split; eassumption);
    try (split_goal; reflexivity).
  all: match goal with H : [] = _ ++ _ :: _ |- _ =>
         exfalso; revert H; apply app_cons_not_nil
       end.
Qed.

Lemma inactive_steps (y y' : Sys W) (ls : list Label) :
  inactive y -> steps nextGracePeriod t y ls y' -> inactive y'.
Proof.
  intros Hin Hsteps. induction Hsteps as [|y ls y1 l y2 Hs IH Hstep].
  - exact Hin.
  - exact (inactive_step _ _ _ (IH Hin) Hstep).
Qed.

(** A call begun on an inactive tracer comes back in at most three
    steps of its own. *)
Lemma inactive_call_returns (y y1 : Sys W) (th : Thread) :
  inactive y -> panicked y = false -> begins y th y1 ->
  exists ls y',
    steps nextGracePeriod t (with_threads (threads y1 ++ [th]) y1) ls y'
    /\ (length ls <= 3)%nat
    /\ threads y' = threads y1 ++ [returned]
    /\ panicked y' = false
    /\ t_events y' = t_events y
    /\ (forall l, In l ls ->
          l = L_closeSelect \/ l = L_closeClosing \/ exists th', l = L_return th').
Proof.
  unfold inactive. intros Hin Hp Hb.
  destruct Hb; destruct y as [cl cd ac st ev ls cx ssc sn rr rc rd gs gm ak th nc pn];
    cbn in *; split_ands; subst.
  - (* Close *)
    destruct cl.
    + eexists. eexists. split.
      { eapply steps_snoc.
        - eapply steps_snoc; [apply steps_nil|].
          eapply (step_closeSelect _ _ _ th []); reflexivity.
        - cbn. eapply (step_closeReturns _ _ _ th []); reflexivity. }
      cbn. split; [lia|]. split; [reflexivity|]. split; [reflexivity|].
      split; [reflexivity|].
      intros l [H|[H|[]]]; subst; [left; reflexivity|].
      right. right. eexists. reflexivity.
    + eexists. eexists. split.
      { eapply steps_snoc.
        - eapply steps_snoc.
          + eapply steps_snoc; [apply steps_nil|].
            eapply (step_closeSelect _ _ _ th []); reflexivity.
          + cbn. eapply (step_closeClosing _ _ _ th []); reflexivity.
        - cbn. eapply (step_closeReturns _ _ _ th []); reflexivity. }
      cbn. split; [lia|]. split; [reflexivity|]. split; [reflexivity|].
      split; [reflexivity|].
      intros l [H|[H|[H|[]]]]; subst;
        [left; reflexivity | right; left; reflexivity |].
      right. right. eexists. reflexivity.
  - (* Flush *)
    eexists. eexists. split.
    { eapply steps_snoc; [apply steps_nil|].
      eapply (step_flushClosed _ _ _ nc th []); reflexivity. }
    cbn. split; [lia|]. split; [reflexivity|]. split; [reflexivity|].
    split; [reflexivity|].
    intros l [H|[]]; subst. right. right. eexists. reflexivity.
  - (* SendMetrics *)
    eexists. eexists. split.
    { eapply steps_snoc; [apply steps_nil|].
      eapply (step_sendMetricsClosed _ _ _ nc th []); reflexivity. }
    cbn. split; [lia|]. split; [reflexivity|]. split; [reflexivity|].
    split; [reflexivity|].
    intros l [H|[]]; subst. right. right. eexists. reflexivity.
  - (* sendConfigCommand *)
    eexists. eexists. split.
    { eapply steps_snoc; [apply steps_nil|].
      eapply (step_configClosed _ _ _ cmd th []); [reflexivity | reflexivity |].
      right. reflexivity. }
    cbn. split; [lia|]. split; [reflexivity|]. split; [reflexivity|].
    split; [reflexivity|].
    intros l [H|[]]; subst. right. right. eexists. reflexivity.
Qed.

End Inactive.

(** C10: a tracer constructed inactive has [closed] closed and no loop;
    it stays so whatever is called on it: [Active] returns false and
    [Stats] the zero statistics, and a call of [Close], [Flush],
    [SendMetrics] or [sendConfigCommand] comes back after at most three
    steps of its own, none of them a step of another goroutine; there
    is no loop, no request and no gathering cycle before or after, and
    [t.events] is as it was. *)
Theorem inactive_tracer_returns {W : Type} {ZW : ZlibWriter W}
    (nextGracePeriod : Duration -> Duration) (t : TracerParams)
    (cmd : tracerConfigCommand) (ls : list Label) (y : Sys W) :
  steps nextGracePeriod t (newTracer t false cmd) ls y ->
  t_closed (newTracer t false cmd) = true
  /\ loopStatus (newTracer t false cmd) = (loopAbsent : LoopStatus W)
  /\ t_closed y = true /\ loopStatus y = loopAbsent /\ t_active y = false
  /\ sender y = senderExited /\ requestResult y = None /\ gathers y = []
  /\ (forall b y', sys_step nextGracePeriod t y (L_Active b) y' ->
                   b = false /\ y' = y)
  /\ (forall st y', sys_step nextGracePeriod t y (L_Stats st) y' ->
                    st = zeroStats /\ y' = y)
  /\ (panicked y = false ->
      forall th y1, begins y th y1 ->
      exists ls' y',
        steps nextGracePeriod t (with_threads (threads y1 ++ [th]) y1) ls' y'
        /\ (length ls' <= 3)%nat
        /\ threads y' = threads y1 ++ [returned]
        /\ panicked y' = false
        /\ t_events y' = t_events y
        /\ loopStatus y' = loopAbsent /\ t_stats y' = zeroStats
        /\ (forall l, In l ls' ->
              l = L_closeSelect \/ l = L_closeClosing
              \/ exists th', l = L_return th')).
Proof.
  intros Hsteps.
  pose proof (inactive_steps nextGracePeriod t _ _ _ (inactive_newTracer t cmd) Hsteps)
    as Hin.
  pose proof Hin as [I1 [I2 [I3 [I4 [I5 [I6 [I7 _]]]]]]].
  split; [reflexivity|]. split; [reflexivity|].
  split; [exact I2|]. split; [exact I1|]. split; [exact I3|].
  split; [exact I5|]. split; [exact I6|]. split; [exact I7|].
  split.
  { intros b y' Hstep. inversion Hstep; subst. split; [exact I3 | reflexivity]. }
  split.
  { intros st y' Hstep. inversion Hstep; subst. split; [exact I4 | reflexivity]. }
  intros Hp th y1 Hb.
  destruct (inactive_call_returns nextGracePeriod t y y1 th Hin Hp Hb)
    as [ls' [y' [Hs [Hlen [Hth [Hp' [Hev Hl]]]]]]].
  exists ls', y'.
  assert (Hin1 : inactive (with_threads (threads y1 ++ [th]) y1)).
  { destruct Hb; destruct y; exact Hin. }
  pose proof (inactive_steps nextGracePeriod t _ _ _ Hin1 Hs)
    as [J1 [_ [_ [J4 _]]]].
  split; [exact Hs|]. split; [exact Hlen|]. split; [exact Hth|].
  split; [exact Hp'|]. split; [exact Hev|]. split; [exact J1|].
  split; [exact J4 | exact Hl].
Qed.

(** An inactive tracer on which [Close] was called and has returned. *)
Definition sampleInactive : Sys HoldingWriter :=
  with_t_closing true
    (with_threads [returned] (newTracer sampleTracer false (sampleOptions None))).

Lemma sampleInactive_steps :
  steps sampleGracePeriod sampleTracer
    (newTracer sampleTracer false (sampleOptions None))
    [L_call closeSelect; L_closeSelect; L_closeClosing; L_return closeWait]
    sampleInactive.
Proof.
  apply (steps_snoc _ _ _ [L_call closeSelect; L_closeSelect; L_closeClosing]
           (with_t_closing true
              (with_threads [closeWait]
                 (newTracer sampleTracer false (sampleOptions None))))).
  - apply (steps_snoc _ _ _ [L_call closeSelect; L_closeSelect]
             (with_threads [closeClosing]
                (newTracer sampleTracer false (sampleOptions None)))).
    + apply (steps_snoc _ _ _ [L_call closeSelect]
               (with_threads [closeSelect]
                  (newTracer sampleTracer false (sampleOptions None)))).
      * apply (steps_snoc _ _ _ [] (newTracer sampleTracer false (sampleOptions None)));
          [apply steps_nil|].
        apply (step_call _ _ (newTracer sampleTracer false (sampleOptions None))
                 closeSelect (newTracer sampleTracer false (sampleOptions None)));
          [reflexivity | apply begins_Close].
      * apply (step_closeSelect _ _
                 (with_threads [closeSelect]
                    (newTracer sampleTracer false (sampleOptions None))) [] []);
          reflexivity.
    + apply (step_closeClosing _ _
               (with_threads [closeClosing]
                  (newTracer sampleTracer false (sampleOptions None))) [] []);
        reflexivity.
  - apply (step_closeReturns _ _
             (with_t_closing true
                (with_threads [closeWait]
                   (newTracer sampleTracer false (sampleOptions None)))) [] []);
      reflexivity.
Qed.

(** C10, tried on the sample tracer constructed inactive, after a call
    of [Close]. *)
Lemma inactive_tracer_returns_witness :
  t_closed (newTracer sampleTracer false (sampleOptions None)
            : Sys HoldingWriter) = true
  /\ loopStatus (newTracer sampleTracer false (sampleOptions None))
     = (loopAbsent : LoopStatus HoldingWriter)
  /\ t_closed sampleInactive = true /\ loopStatus sampleInactive = loopAbsent
  /\ t_active sampleInactive = false
  /\ sender sampleInactive = senderExited
  /\ requestResult sampleInactive = None /\ gathers sampleInactive = []
  /\ (forall b y',
        sys_step sampleGracePeriod sampleTracer sampleInactive (L_Active b) y' ->
        b = false /\ y' = sampleInactive)
  /\ (forall st y',
        sys_step sampleGracePeriod sampleTracer sampleInactive (L_Stats st) y' ->
        st = zeroStats /\ y' = sampleInactive)
  /\ (panicked sampleInactive = false ->
      forall th y1, begins sampleInactive th y1 ->
      exists ls' y',
        steps sampleGracePeriod sampleTracer
          (with_threads (threads y1 ++ [th]) y1) ls' y'
        /\ (length ls' <= 3)%nat
        /\ threads y' = threads y1 ++ [returned]
        /\ panicked y' = false
        /\ t_events y' = t_events sampleInactive
        /\ loopStatus y' = loopAbsent /\ t_stats y' = zeroStats
        /\ (forall l, In l ls' ->
              l = L_closeSelect \/ l = L_closeClosing
              \/ exists th', l = L_return th')).
Proof.
  apply (inactive_tracer_returns sampleGracePeriod sampleTracer
           (sampleOptions None)
           [L_call closeSelect; L_closeSelect; L_closeClosing; L_return closeWait]
           sampleInactive).
  exact sampleInactive_steps.
Defined.


(** * Flush (C4) *)


(** [Flush] was called while the first request of the sample tracer was
    open. *)
Definition sampleFlushPending : LoopState HoldingWriter :=
  Eval vm_compute in
    loopAfter [(1, caseConfigCommand (sampleOptions None));
               (2, caseEvent (transaction 500));
               (3, caseForceFlush 5%nat [])].





(** * The grace period (C3) *)



(** A send of the sample tracer has failed and the next request is
    open: the grace period is one second. *)
Definition sampleRetrying : LoopState HoldingWriter :=
  Eval vm_compute in
    loopAfter [(1, caseConfigCommand (sampleOptions None));
               (2, caseEvent (transaction 500));
               (3, caseRequestResult (Some otherError));
               (4, caseEvent (transaction 500))].



(** * The shared statistics (C7) *)

(** Counters added without the wrap, and cut to [uint64]. *)
Definition stats_plus (a d : TracerStats) : TracerStats :=
  {| Errors := {| SendStream := SendStream (Errors a) + SendStream (Errors d) |};
     ErrorsSent := ErrorsSent a + ErrorsSent d;
     ErrorsDropped := ErrorsDropped a + ErrorsDropped d;
     TransactionsSent := TransactionsSent a + TransactionsSent d;
     TransactionsDropped := TransactionsDropped a + TransactionsDropped d;
     SpansSent := SpansSent a + SpansSent d;
     SpansDropped := SpansDropped a + SpansDropped d |}.

Definition stats_mod (a : TracerStats) : TracerStats :=
  {| Errors := {| SendStream := SendStream (Errors a) mod u64_mod |};
     ErrorsSent := ErrorsSent a mod u64_mod;
     ErrorsDropped := ErrorsDropped a mod u64_mod;
     TransactionsSent := TransactionsSent a mod u64_mod;
     TransactionsDropped := TransactionsDropped a mod u64_mod;
     SpansSent := SpansSent a mod u64_mod;
     SpansDropped := SpansDropped a mod u64_mod |}.

Definition stats_nonneg (d : TracerStats) : Prop :=
  0 <= SendStream (Errors d)
  /\ 0 <= ErrorsSent d /\ 0 <= ErrorsDropped d
  /\ 0 <= TransactionsSent d /\ 0 <= TransactionsDropped d
  /\ 0 <= SpansSent d /\ 0 <= SpansDropped d.

(** No counter is past the largest [uint64]. *)
Definition stats_fits (a : TracerStats) : Prop :=
  SendStream (Errors a) < u64_mod
  /\ ErrorsSent a < u64_mod /\ ErrorsDropped a < u64_mod
  /\ TransactionsSent a < u64_mod /\ TransactionsDropped a < u64_mod
  /\ SpansSent a < u64_mod /\ SpansDropped a < u64_mod.

Lemma u64_mod_pos : 0 < u64_mod.
Proof. unfold u64_mod. lia. Qed.

Lemma accumulate_plus (a b : TracerStats) :
  accumulate a b = stats_mod (stats_plus a b).
Proof. reflexivity. Qed.

Lemma stats_plus_nonneg (a b : TracerStats) :
  stats_nonneg a -> stats_nonneg b -> stats_nonneg (stats_plus a b).
Proof. unfold stats_nonneg, stats_plus. cbn. lia. Qed.

(** Two additions modulo [2^64] are one. *)
Lemma stats_mod_plus_plus (a d1 d2 : TracerStats) :
  stats_mod (stats_plus (stats_mod (stats_plus a d1)) d2)
  = stats_mod (stats_plus a (stats_plus d1 d2)).
Proof.
  unfold stats_mod, stats_plus. cbn.
  rewrite !Z.add_mod_idemp_l by (unfold u64_mod; lia).
  rewrite !Z.add_assoc. reflexivity.
Qed.

Lemma stats_mod_wf (a : TracerStats) : stats_wf a -> stats_mod a = a.
Proof.
  destruct a as [[e] a b c d f g]. unfold stats_wf, is_u64, stats_mod. cbn.
  intros H. rewrite !Z.mod_small by tauto. reflexivity.
Qed.

Lemma stats_plus_zero (a : TracerStats) : stats_plus a zeroStats = a.
Proof.
  destruct a as [[e] a b c d f g]. unfold stats_plus. cbn.
  rewrite !Z.add_0_r. reflexivity.
Qed.

Lemma stats_le_plus (a d : TracerStats) :
  stats_wf a -> stats_nonneg d -> stats_fits (stats_plus a d) ->
  stats_le a (stats_mod (stats_plus a d)).
Proof.
  destruct a as [[e] a b c f g h]. destruct d as [[e'] a' b' c' f' g' h'].
  unfold stats_wf, is_u64, stats_nonneg, stats_fits, stats_le, stats_mod,
    stats_plus. cbn.
  intros Hwf Hd Hf. rewrite !Z.mod_small by lia. lia.
Qed.

(** ** What a run adds to the shared statistics

    The labels of a run name the effects of every iteration, the calls
    of [t.stats.accumulate] among them.  [merged] adds up, without the
    wrap, what the iterations of a run hand to [accumulate]. *)

Definition merged_effect (e : Effect) : TracerStats :=
  match e with
  | Accumulate st => st
  | _ => zeroStats
  end.

Definition merged_effects (effs : list Effect) : TracerStats :=
  fold_right (fun e d => stats_plus (merged_effect e) d) zeroStats effs.

Definition merged_label (l : Label) : TracerStats :=
  match l with
  | L_loop _ _ effs => merged_effects effs
  | _ => zeroStats
  end.

Definition merged (ls : list Label) : TracerStats :=
  fold_right (fun l d => stats_plus (merged_label l) d) zeroStats ls.

(** Every [accumulate] among the effects is handed counters in [uint64]. *)
Definition accs_wf (effs : list Effect) : Prop :=
  forall e, In e effs -> stats_wf (merged_effect e).

Lemma stats_plus_zero_l (a : TracerStats) : stats_plus zeroStats a = a.
Proof. destruct a as [[e] a b c d f g]. reflexivity. Qed.

Lemma stats_plus_assoc (a b c : TracerStats) :
  stats_plus a (stats_plus b c) = stats_plus (stats_plus a b) c.
Proof.
  unfold stats_plus. cbn. rewrite !Z.add_assoc. reflexivity.
Qed.

Lemma merged_app (l1 l2 : list Label) :
  merged (l1 ++ l2) = stats_plus (merged l1) (merged l2).
Proof.
  induction l1 as [|l l1 IH]; cbn.
  - rewrite stats_plus_zero_l. reflexivity.
  - fold (merged (l1 ++ l2)). fold (merged l1).
    rewrite IH. apply stats_plus_assoc.
Qed.

Lemma stats_nonneg_zeroStats : stats_nonneg zeroStats.
Proof. unfold stats_nonneg. cbn. lia. Qed.

Lemma stats_wf_nonneg (a : TracerStats) : stats_wf a -> stats_nonneg a.
Proof. unfold stats_wf, is_u64, stats_nonneg. tauto. Qed.

Lemma merged_effects_nonneg (effs : list Effect) :
  accs_wf effs -> stats_nonneg (merged_effects effs).
Proof.
  induction effs as [|e effs IH]; intros H; cbn.
  - apply stats_nonneg_zeroStats.
  - apply stats_plus_nonneg.
    + apply stats_wf_nonneg. apply H. left. reflexivity.
    + apply IH. intros e' Hin. apply H. right. exact Hin.
Qed.

(** The effects of an iteration on the shared statistics are one
    addition modulo [2^64] of what they hand to [accumulate]. *)
Lemma merge_effects_merged (effs : list Effect) (shared : TracerStats) :
  stats_wf shared ->
  merge_effects effs shared = stats_mod (stats_plus shared (merged_effects effs)).
Proof.
  revert shared. induction effs as [|e effs IH]; intros shared Hwf.
  - cbn. rewrite stats_plus_zero, stats_mod_wf by exact Hwf. reflexivity.
  - change (e :: effs) with ([e] ++ effs). rewrite merge_effects_app.
    assert (Hwf1 : stats_wf (merge_effects [e] shared))
      by (apply merge_effects_wf; exact Hwf).
    rewrite (IH _ Hwf1).
    change (merged_effects ([e] ++ effs))
      with (stats_plus (merged_effect e) (merged_effects effs)).
    destruct e; try (cbn [merged_effect]; rewrite stats_plus_zero_l; reflexivity).
    change (merge_effects [Accumulate s] shared) with (accumulate shared s).
    rewrite accumulate_plus. apply stats_mod_plus_plus.
Qed.

Lemma accs_wf_app (l1 l2 : list Effect) :
  accs_wf l1 -> accs_wf l2 -> accs_wf (l1 ++ l2).
Proof.
  intros H1 H2 e Hin. apply in_app_or in Hin.
  destruct Hin as [Hin|Hin]; [apply H1 | apply H2]; exact Hin.
Qed.

Lemma accs_wf_none (effs : list Effect) : no_Accumulate effs -> accs_wf effs.
Proof.
  intros H e Hin. destruct e; try apply stats_wf_zeroStats.
  exfalso. exact (H _ Hin).
Qed.

Lemma accs_wf_merged (st : TracerStats) :
  stats_wf st -> accs_wf (if isZero st then [] else [Accumulate st]).
Proof.
  intros Hwf e Hin. destruct (isZero st); [destruct Hin|].
  destruct Hin as [<-|[]]. exact Hwf.
Qed.

Lemma Evicted_wf (st : TracerStats) (h : Block) :
  stats_wf st -> stats_wf (Evicted st h).
Proof.
  unfold stats_wf, Evicted. intros H.
  destruct (blockTag h); cbn; split_ands; split_goal;
    try assumption; apply u64_add_range.
Qed.

Lemma fold_Evicted_wf (hs : list Block) (st : TracerStats) :
  stats_wf st -> stats_wf (fold_left Evicted hs st).
Proof.
  revert st. induction hs as [|h hs IH]; intros st H; [exact H|].
  cbn. apply IH. apply Evicted_wf. exact H.
Qed.

Ltac handler_exec :=
  repeat (inner_destruct; cbn -[timer_stopDrain]);
  let H := fresh "H" in
  intros H; inversion H; subst; clear H.

Section MergedFacts.

Context {W : Type} {ZW : ZlibWriter W}.

Variable nextGracePeriod : Duration -> Duration.

Variable t : TracerParams.

Lemma writeEvent_stats_wf (event : tracerEvent) (s : LoopState W) :
  stats_wf (stats s) -> stats_wf (stats (writeEvent event s)).
Proof.
  intros H. unfold writeEvent. destruct s; cbn in *.
  apply fold_Evicted_wf. exact H.
Qed.

Lemma drainEvents_stats_wf (queued : list tracerEvent) (s : LoopState W) :
  stats_wf (stats s) -> stats_wf (stats (drainEvents queued s)).
Proof.
  revert s. induction queued as [|event queued IH]; intros s H; [exact H|].
  change (drainEvents (event :: queued) s)
    with (drainEvents queued (writeEvent event s)).
  apply IH. apply writeEvent_stats_wf. exact H.
Qed.

Lemma selectCase_accs (now : Time) (c : SelectCase) (s s1 : LoopState W)
    (flow : Flow) (effs : list Effect) :
  loop_ok s ->
  selectCase nextGracePeriod now c s = Some (flow, s1, effs) ->
  stats_wf (stats s1) /\ accs_wf effs.
Proof.
  intros [Hz _].
  assert (Hwf : stats_wf (stats s)) by (rewrite Hz; apply stats_wf_zeroStats).
  assert (Hnil : accs_wf []) by (intros e []).
  destruct c; cbn [selectCase].
  - discriminate.
  - unfold onConfigCommand. destruct s; cbn -[timer_stopDrain] in *.
    handler_exec; split; assumption.
  - unfold onEvent. pose proof (writeEvent_stats_wf event s Hwf) as He.
    destruct (eventType event); intros H; inversion H; subst; clear H;
      (split; [|exact Hnil]); try exact He;
      destruct (writeEvent event s); exact He.
  - unfold onRequestTimer. destruct s; cbn in *.
    handler_exec; split; assumption.
  - unfold onMetricsTimer. destruct s; cbn in *.
    handler_exec; split; assumption.
  - unfold onForceSendMetrics. destruct s; cbn -[timer_stopDrain] in *.
    handler_exec; split; assumption.
  - unfold onGatheredMetrics, writeMetrics. destruct s; cbn in *.
    handler_exec; split; assumption.
  - unfold onForceFlush.
    pose proof (drainEvents_stats_wf queued (set_flushed (Some c) s)) as Hd.
    assert (Hd' : stats_wf (stats (drainEvents queued (set_flushed (Some c) s))))
      by (apply Hd; destruct s; exact Hwf).
    clear Hd. remember (drainEvents queued (set_flushed (Some c) s)) as sd eqn:Esd.
    clear Esd. destruct sd; cbn in *.
    handler_exec; split; try assumption.
    intros e [<-|[]]. apply stats_wf_zeroStats.
  - unfold onReadRequest. intros H; inversion H; subst; clear H.
    split; [destruct s; exact Hwf | exact Hnil].
  - unfold onRequestResult, requestOutcome, mergeStats, ackSentMetrics,
      ackFlushed, resetRequest.
    destruct s; cbn -[timer_stopDrain isZero] in *.
    match goal with H : ?x = zeroStats |- _ => subst x end.
    assert (Hs : forall a b c, stats_wf (addSent zeroStats a b c)).
    { intros a b c. unfold stats_wf, addSent. cbn.
      split_goal; try apply u64_add_range; apply is_u64_0. }
    assert (Hi : stats_wf (incSendStream zeroStats)).
    { unfold stats_wf, incSendStream. cbn.
      split_goal; first [apply u64_add_range | apply is_u64_0 | apply is_u64_1]. }
    handler_exec;
      (split; [first [apply stats_wf_zeroStats | apply Hs | exact Hi]|]).
    all: intros e Hin;
      repeat (apply in_app_or in Hin; destruct Hin as [Hin|Hin]);
      cbn in Hin;
      repeat match goal with
             | H : _ \/ _ |- _ => destruct H as [H|H]
             | H : False |- _ => destruct H
             end; subst;
      first [apply stats_wf_zeroStats | apply Hs | exact Hi].
Qed.

Lemma loop_iter_accs (now : Time) (c : SelectCase) (s : LoopState W)
    (r : IterResult W) :
  loop_ok s ->
  loop_iter nextGracePeriod t now c s = Some r ->
  accs_wf (iter_effects r).
Proof.
  intros Hok Hiter. destruct r as [effs|s' effs].
  - destruct (loop_iter_exited nextGracePeriod t now c s effs Hiter) as [_ He].
    subst effs. intros e Hin. cbn in Hin.
    repeat match goal with
           | H : _ \/ _ |- _ => destruct H as [H|H]
           | H : False |- _ => destruct H
           end; subst; apply stats_wf_zeroStats.
  - destruct (loop_iter_spec nextGracePeriod t now c s s' effs Hok Hiter)
      as [flow [s1 [effs1 [Hsel [_ Hflow]]]]].
    destruct (selectCase_accs now c s s1 flow effs1 Hok Hsel) as [Hwf Ha].
    destruct flow as [g|].
    + destruct (afterSelect_spec nextGracePeriod t now g s1 s' effs1 effs Hflow)
        as [rest [E1 [E2 _]]].
      cbn [iter_effects]. rewrite E1.
      apply accs_wf_app; [exact Ha|].
      apply accs_wf_app; [apply accs_wf_merged; exact Hwf|].
      apply accs_wf_none. exact E2.
    + destruct Hflow as [_ He]. cbn [iter_effects]. rewrite He. exact Ha.
Qed.

(** One step of the system adds to the shared statistics what its label
    names, modulo [2^64]. *)
Lemma sys_step_merged (y y' : Sys W) (l : Label) :
  sys_ok y -> sys_step nextGracePeriod t y l y' ->
  stats_nonneg (merged_label l)
  /\ t_stats y' = stats_mod (stats_plus (t_stats y) (merged_label l)).
Proof.
  intros Hok Hstep.
  assert (Hwf : stats_wf (t_stats y)) by (apply Hok).
  assert (Hsame : forall l0, merged_label l0 = zeroStats ->
                  t_stats y' = t_stats y ->
                  stats_nonneg (merged_label l0)
                  /\ t_stats y' = stats_mod (stats_plus (t_stats y) (merged_label l0))).
  { intros l0 Hl H. rewrite Hl. split; [apply stats_nonneg_zeroStats|].
    rewrite stats_plus_zero, stats_mod_wf by exact Hwf. exact H. }
  destruct Hstep;
    try (apply Hsame; [reflexivity|];
         try (match goal with H : begins _ _ _ |- _ => destruct H end);
         destruct y; reflexivity).
  match goal with
  | H : apply_effects _ _ = Some _ |- _ =>
      destruct (apply_effects_spec _ _ _ H) as [_ [Hst _]]
  end.
  match goal with
  | H : receive _ _ _ |- _ =>
      destruct (receive_spec _ _ _ H) as [_ [_ [R3 _]]]
  end.
  assert (Hl : loop_ok s).
  { unfold sys_ok in Hok.
    match goal with H : loopStatus _ = loopRunning _ |- _ => rewrite H in Hok end.
    apply Hok. }
  cbn [merged_label]. split.
  - apply merged_effects_nonneg.
    eapply loop_iter_accs; [exact Hl | eassumption].
  - rewrite Hst.
    replace (t_stats (with_loopStatus (iter_status r) y1)) with (t_stats y)
      by (rewrite <- R3; destruct y1; reflexivity).
    apply merge_effects_merged. exact Hwf.
Qed.

(** A run adds to the shared statistics the total of what its labels
    name, modulo [2^64]. *)
Lemma steps_merged (y y' : Sys W) (ls : list Label) :
  sys_ok y -> steps nextGracePeriod t y ls y' ->
  stats_nonneg (merged ls)
  /\ t_stats y' = stats_mod (stats_plus (t_stats y) (merged ls)).
Proof.
  intros Hok Hsteps. induction Hsteps as [|y ls y1 l y2 Hs IH Hstep].
  - split; [apply stats_nonneg_zeroStats|]. cbn.
    rewrite stats_plus_zero, stats_mod_wf by (apply Hok). reflexivity.
  - destruct (IH Hok) as [Hd1 H1].
    pose proof (steps_ok nextGracePeriod t _ _ _ Hok Hs) as Hok1.
    destruct (sys_step_merged y1 y2 l Hok1 Hstep) as [Hd2 H2].
    rewrite merged_app. cbn [merged fold_right]. rewrite stats_plus_zero.
    split; [apply stats_plus_nonneg; assumption|].
    rewrite H2, H1. apply stats_mod_plus_plus.
Qed.

End MergedFacts.

(** C7: every update of the shared statistics adds the loop's
    accumulator to it under the lock, counter by counter, and no step
    of any goroutine resets or lowers a counter: over any run the
    statistics grow by what the iterations of the run hand to
    [accumulate], in [uint64].  As long as no counter is carried past
    [2^64 - 1], the later of two calls of [Stats] returns, in every
    counter, the earlier result plus what was counted in between, so a
    result greater than or equal to the earlier one.  [Stats] returns
    the shared statistics as they are and changes nothing, with the
    loop running or returned. *)
Theorem stats_monotone_without_wrap {W : Type} {ZW : ZlibWriter W}
    (nextGracePeriod : Duration -> Duration) (t : TracerParams)
    (y y' : Sys W) (ls : list Label) :
  reachable nextGracePeriod t y ->
  steps nextGracePeriod t y ls y' ->
  stats_nonneg (merged ls)
  /\ t_stats y' = stats_mod (stats_plus (t_stats y) (merged ls))
  /\ (stats_fits (stats_plus (t_stats y) (merged ls)) ->
      t_stats y' = stats_plus (t_stats y) (merged ls)
      /\ stats_le (t_stats y) (t_stats y'))
  /\ (forall st y'',
        sys_step nextGracePeriod t y' (L_Stats st) y'' ->
        st = t_stats y' /\ y'' = y')
  /\ (panicked y' = false ->
      sys_step nextGracePeriod t y' (L_Stats (t_stats y')) y').
Proof.
  intros Hreach Hsteps.
  pose proof (reachable_ok nextGracePeriod t y Hreach) as Hok.
  destruct (steps_merged nextGracePeriod t y y' ls Hok Hsteps) as [Hd Hs].
  split; [exact Hd|]. split; [exact Hs|]. split; [|split].
  - intros Hfit.
    pose proof (stats_le_plus (t_stats y) (merged ls) (proj1 Hok) Hd Hfit) as Hle.
    rewrite <- Hs in Hle. split; [|exact Hle].
    rewrite Hs. apply stats_mod_wf.
    assert (Hwf : stats_wf (t_stats y)) by (apply Hok).
    clear - Hwf Hd Hfit.
    destruct (t_stats y) as [[e] a b c d f g].
    destruct (merged ls) as [[e'] a' b' c' d' f' g'].
    unfold stats_wf, is_u64, stats_nonneg, stats_fits, stats_plus in *.
    cbn in *. lia.
  - intros st y'' Hstep. inversion Hstep; subst. split; reflexivity.
  - intros Hp. apply step_Stats. exact Hp.
Qed.

(** ** Sends that fail, one after the other *)

Lemma steps_app {W : Type} {ZW : ZlibWriter W}
    (nextGracePeriod : Duration -> Duration) (t : TracerParams)
    (y1 y2 y3 : Sys W) (l1 l2 : list Label) :
  steps nextGracePeriod t y1 l1 y2 -> steps nextGracePeriod t y2 l2 y3 ->
  steps nextGracePeriod t y1 (l1 ++ l2) y3.
Proof.
  intros H1 H2. induction H2 as [|y ls ya l yb Hs IH Hstep].
  - rewrite app_nil_r. exact H1.
  - rewrite app_assoc. eapply steps_snoc; [apply IH; exact H1 | exact Hstep].
Qed.

(** The loop of the sample tracer after a failed send, with the grace
    period [g]: no request, both buffers empty. *)
Definition sampleFailed : LoopState HoldingWriter :=
  Eval vm_compute in
    loopAfter [(1, caseConfigCommand (sampleOptions None));
               (2, caseEvent (transaction 500));
               (3, caseRequestResult (Some otherError))].

Definition failedLoop (g : Duration) : LoopState HoldingWriter :=
  set_gracePeriod g sampleFailed.

(** The same with the next request open. *)
Definition retryingLoop (g : Duration) : LoopState HoldingWriter :=
  set_gracePeriod g sampleRetrying.

(** The sample tracer between two requests, with the shared statistics
    [st], and with the result of a failed send waiting. *)
Definition failedSys (st : TracerStats) (g : Duration) : Sys HoldingWriter :=
  with_t_stats st
    (with_sender senderIdle
       (with_loopStatus (loopRunning (failedLoop g)) sampleSys1)).

Definition failingSys (st : TracerStats) (g : Duration) : Sys HoldingWriter :=
  with_requestResult (Some (Some otherError))
    (with_loopStatus (loopRunning (retryingLoop g)) (failedSys st g)).

(** What a failed send adds to the statistics. *)
Definition oneSendError : TracerStats := incSendStream zeroStats.

(** From between two requests to the result of the next send, which
    fails. *)
Lemma failedSys_fails (st : TracerStats) (g : Duration) :
  exists ls,
    steps sampleGracePeriod sampleTracer (failedSys st g) ls (failingSys st g).
Proof.
  set (y2 := with_sender (senderReceived g)
               (with_loopStatus (loopRunning (retryingLoop g)) (failedSys st g))).
  eexists.
  eapply (steps_snoc _ _ _ _ (with_sender (senderResult (Some otherError)) y2)).
  eapply (steps_snoc _ _ _ _ (with_sender senderSending y2)).
  eapply (steps_snoc _ _ _ _ (with_sender (senderGrace (sendDelay g 0 1)) y2)).
  eapply (steps_snoc _ _ _ _ y2).
  eapply (steps_snoc _ _ _ _ (with_t_events [transaction 500] (failedSys st g))).
  eapply (steps_snoc _ _ _ _ (failedSys st g)); [apply steps_nil|].
  - apply (step_enqueue _ _ (failedSys st g) (transaction 500)).
    + reflexivity.
    + cbn. unfold tracerEventChannelCap. lia.
  - apply (step_loop _ _ (with_t_events [transaction 500] (failedSys st g))
             (failedLoop g) 4 (caseEvent (transaction 500))
             (failedSys st g)
             (looping (retryingLoop g) [sendStreamRequest g])).
    + reflexivity.
    + reflexivity.
    + apply (recv_event (with_t_events [transaction 500] (failedSys st g))
               (transaction 500) []). reflexivity.
    + vm_compute. reflexivity.
    + reflexivity.
  - apply (step_senderDelay _ _ y2 g 0 1); [reflexivity | reflexivity | lia].
  - apply (step_SendStream _ _ (with_sender (senderGrace (sendDelay g 0 1)) y2)
             (sendDelay g 0 1)); reflexivity.
  - apply (step_SendStreamReturns _ _ (with_sender senderSending y2)
             (Some otherError)); reflexivity.
  - apply (step_senderResult _ _
             (with_sender (senderResult (Some otherError)) y2) (Some otherError));
      reflexivity.
Qed.

Lemma retryingLoop_fails (next : Duration -> Duration) (g : Duration) :
  loop_iter next sampleTracer 5 (caseRequestResult (Some otherError))
    (retryingLoop g)
  = Some (looping (failedLoop (next g))
            [Accumulate oneSendError; CloseRead; NewReader]).
Proof. vm_compute. reflexivity. Qed.

(** The loop takes the result. *)
Lemma failingSys_step (st : TracerStats) (g : Duration) :
  sys_step sampleGracePeriod sampleTracer (failingSys st g)
    (L_loop 5 (caseRequestResult (Some otherError))
       [Accumulate oneSendError; CloseRead; NewReader])
    (failedSys (accumulate st oneSendError) (sampleGracePeriod g)).
Proof.
  apply (step_loop _ _ (failingSys st g) (retryingLoop g) 5
           (caseRequestResult (Some otherError))
           (with_requestResult None (failingSys st g))
           (looping (failedLoop (sampleGracePeriod g))
              [Accumulate oneSendError; CloseRead; NewReader])).
  - reflexivity.
  - reflexivity.
  - apply (recv_requestResult (failingSys st g) (Some otherError)). reflexivity.
  - apply retryingLoop_fails.
  - reflexivity.
Qed.

(** The first request of the sample tracer fails. *)
Lemma sampleSys3_fails :
  steps sampleGracePeriod sampleTracer sampleSys3
    [L_senderDelay 0; L_SendStream; L_SendStreamReturns (Some otherError);
     L_senderResult;
     L_loop 5 (caseRequestResult (Some otherError))
       [Accumulate oneSendError; CloseRead; NewReader]]
    (failedSys (accumulate zeroStats oneSendError) (sampleGracePeriod (-1))).
Proof.
  apply (steps_snoc _ _ _
           [L_senderDelay 0; L_SendStream; L_SendStreamReturns (Some otherError);
            L_senderResult]
           (failingSys zeroStats (-1))).
  - apply (steps_snoc _ _ _
             [L_senderDelay 0; L_SendStream; L_SendStreamReturns (Some otherError)]
             (with_sender (senderResult (Some otherError)) sampleSys3)).
    + apply (steps_snoc _ _ _ [L_senderDelay 0; L_SendStream]
               (with_sender senderSending sampleSys3)).
      * apply (steps_snoc _ _ _ [L_senderDelay 0]
                 (with_sender (senderGrace 0) sampleSys3)).
        -- apply (steps_snoc _ _ _ [] sampleSys3); [apply steps_nil|].
           apply (step_senderDelay _ _ sampleSys3 (-1) 0 1);
             [reflexivity | reflexivity | lia].
        -- apply (step_SendStream _ _ (with_sender (senderGrace 0) sampleSys3) 0);
             reflexivity.
      * apply (step_SendStreamReturns _ _ (with_sender senderSending sampleSys3)
                 (Some otherError)); reflexivity.
    + apply (step_senderResult _ _
               (with_sender (senderResult (Some otherError)) sampleSys3)
               (Some otherError)); reflexivity.
  - apply failingSys_step.
Qed.

(** The statistics after [k] failed sends and nothing else. *)
Definition sendErrors (k : Z) : TracerStats :=
  {| Errors := {| SendStream := k mod u64_mod |};
     ErrorsSent := 0; ErrorsDropped := 0;
     TransactionsSent := 0; TransactionsDropped := 0;
     SpansSent := 0; SpansDropped := 0 |}.

Lemma sendErrors_next (k : Z) :
  accumulate (sendErrors k) oneSendError = sendErrors (k + 1).
Proof.
  unfold accumulate, sendErrors, oneSendError, incSendStream, u64_add. cbn.
  f_equal. f_equal.
  change ((0 + 1) mod u64_mod) with 1.
  apply Z.add_mod_idemp_l. unfold u64_mod. lia.
Qed.

(** Any number of sends can fail in a row. *)
Lemma sendErrors_reachable (n : nat) :
  exists g,
    reachable sampleGracePeriod sampleTracer
      (failedSys (sendErrors (Z.of_nat n + 1)) g).
Proof.
  induction n as [|n [g [active [cmd [ls Hs]]]]].
  - exists (sampleGracePeriod (-1)), true, (sampleOptions None). eexists.
    eapply steps_app; [exact sampleSys3_steps|].
    exact sampleSys3_fails.
  - exists (sampleGracePeriod g), active, cmd.
    destruct (failedSys_fails (sendErrors (Z.of_nat n + 1)) g) as [ls1 Hs1].
    eexists.
    replace (Z.of_nat (S n) + 1) with (Z.of_nat n + 1 + 1) by lia.
    rewrite <- (sendErrors_next (Z.of_nat n + 1)).
    eapply steps_snoc; [eapply steps_app; [exact Hs | exact Hs1]|].
    apply failingSys_step.
Qed.

(** The counters are [uint64] and nothing in the loop bounds them: in
    the model, where any number of sends may fail, [2^64 - 1] failed
    sends are counted, one more failed send is merged into the shared
    statistics and the send-error counter is back at zero. *)
Lemma stats_wrap_decreases :
  exists y y' effs,
    reachable sampleGracePeriod sampleTracer y
    /\ sys_step sampleGracePeriod sampleTracer y
         (L_loop 5 (caseRequestResult (Some otherError)) effs) y'
    /\ sys_step sampleGracePeriod sampleTracer y (L_Stats (t_stats y)) y
    /\ sys_step sampleGracePeriod sampleTracer y' (L_Stats (t_stats y')) y'
    /\ SendStream (Errors (t_stats y)) = 18446744073709551615
    /\ SendStream (Errors (t_stats y')) = 0
    /\ ~ stats_le (t_stats y) (t_stats y').
Proof.
  assert (Hk : exists n, Z.of_nat n + 1 = u64_mod - 1).
  { exists (Z.to_nat (u64_mod - 2)). rewrite Z2Nat.id; unfold u64_mod; lia. }
  destruct Hk as [n Hn].
  destruct (sendErrors_reachable n) as [g [active [cmd [ls Hs]]]].
  rewrite Hn in Hs.
  destruct (failedSys_fails (sendErrors (u64_mod - 1)) g) as [ls1 Hs1].
  exists (failingSys (sendErrors (u64_mod - 1)) g),
    (failedSys (accumulate (sendErrors (u64_mod - 1)) oneSendError)
       (sampleGracePeriod g)),
    [Accumulate oneSendError; CloseRead; NewReader].
  split.
  { exists active, cmd. eexists. eapply steps_app; [exact Hs | exact Hs1]. }
  split; [apply failingSys_step|].
  split; [apply step_Stats; reflexivity|].
  split; [apply step_Stats; reflexivity|].
  assert (H1 : SendStream (Errors (t_stats (failingSys (sendErrors (u64_mod - 1)) g)))
               = 18446744073709551615) by reflexivity.
  assert (H2 : SendStream
                 (Errors (t_stats
                            (failedSys (accumulate (sendErrors (u64_mod - 1))
                                          oneSendError) (sampleGracePeriod g))))
               = 0) by reflexivity.
  split; [exact H1|]. split; [exact H2|].
  intros [Hle _]. rewrite H1, H2 in Hle. lia.
Qed.

(** The run of the sample tracer from its first request in flight to
    the failure of that request. *)
Definition sampleFailingRun : list Label :=
  [L_senderDelay 0; L_SendStream; L_SendStreamReturns (Some otherError);
   L_senderResult;
   L_loop 5 (caseRequestResult (Some otherError))
     [Accumulate oneSendError; CloseRead; NewReader]].

(** C7, tried on that run: one failed send is counted, no counter is
    near [2^64], and [Stats] after the run returns one send error more
    than before it. *)
Lemma stats_monotone_without_wrap_witness :
  stats_fits (stats_plus (t_stats sampleSys3) (merged sampleFailingRun))
  /\ merged sampleFailingRun = oneSendError
  /\ stats_nonneg (merged sampleFailingRun)
  /\ t_stats (failedSys (accumulate zeroStats oneSendError)
                (sampleGracePeriod (-1)))
     = stats_mod (stats_plus (t_stats sampleSys3) (merged sampleFailingRun))
  /\ (stats_fits (stats_plus (t_stats sampleSys3) (merged sampleFailingRun)) ->
      t_stats (failedSys (accumulate zeroStats oneSendError)
                 (sampleGracePeriod (-1)))
      = stats_plus (t_stats sampleSys3) (merged sampleFailingRun)
      /\ stats_le (t_stats sampleSys3)
           (t_stats (failedSys (accumulate zeroStats oneSendError)
                       (sampleGracePeriod (-1)))))
  /\ (forall st y'',
        sys_step sampleGracePeriod sampleTracer
          (failedSys (accumulate zeroStats oneSendError) (sampleGracePeriod (-1)))
          (L_Stats st) y'' ->
        st = t_stats (failedSys (accumulate zeroStats oneSendError)
                        (sampleGracePeriod (-1)))
        /\ y'' = failedSys (accumulate zeroStats oneSendError)
                   (sampleGracePeriod (-1)))
  /\ (panicked (failedSys (accumulate zeroStats oneSendError)
                  (sampleGracePeriod (-1))) = false ->
      sys_step sampleGracePeriod sampleTracer
        (failedSys (accumulate zeroStats oneSendError) (sampleGracePeriod (-1)))
        (L_Stats (t_stats (failedSys (accumulate zeroStats oneSendError)
                             (sampleGracePeriod (-1)))))
        (failedSys (accumulate zeroStats oneSendError) (sampleGracePeriod (-1)))).
Proof.
  split; [vm_compute; repeat split; reflexivity|].
  split; [reflexivity|].
  apply (stats_monotone_without_wrap sampleGracePeriod sampleTracer sampleSys3
           (failedSys (accumulate zeroStats oneSendError) (sampleGracePeriod (-1)))
           sampleFailingRun).
  - exists true, (sampleOptions None). eexists. exact sampleSys3_steps.
  - exact sampleSys3_fails.
Defined.


(** * Registering and deregistering metrics gatherers

    [RegisterMetricsGatherer] wraps the gatherer in a fresh
    pointer-to-struct and appends it to [cfg.metricsGatherers]; the
    function it returns sends the command [deregister], which ranges
    over the slice and cuts the wrapped gatherer out with
    [append(s[:i], s[i+1:]...)].  That [append] shifts the elements in
    place, in the array the [range] is still reading: the array and the
    length of the slice are modelled separately. *)

(** The command [RegisterMetricsGatherer] sends. *)
Definition registerGatherer (wrapped : MetricsGatherer) : tracerConfigCommand :=
  fun cfg =>
    {| requestSize := requestSize cfg; requestDuration := requestDuration cfg;
       metricsInterval := metricsInterval cfg; cfg_logger := cfg_logger cfg;
       metricsGatherers := metricsGatherers cfg ++ [wrapped];
       preContext := preContext cfg; postContext := postContext cfg;
       sanitizedFieldNames := sanitizedFieldNames cfg;
       disabledMetrics := disabledMetrics cfg |}.

(** [append(s[:i], s[i+1:]...)] on the slice of length [len] over the
    array [a]: the elements after [i] move one place down, the places
    from [len - 1] on keep what they held. *)
Definition cutAt (i : nat) (a : list MetricsGatherer) (len : nat)
    : list MetricsGatherer :=
  firstn i a ++ skipn (S i) (firstn len a) ++ skipn (len - 1) a.

(** The [range] of [deregister] over the indices [ix] of the slice as
    it was when the loop began; [None] is the panic of [s[i+1:]] with
    [i + 1] past the length of the slice. *)
Fixpoint deregisterRange (wrapped : MetricsGatherer) (ix : list nat)
    (a : list MetricsGatherer) (len : nat)
    : option (list MetricsGatherer * nat) :=
  match ix with
  | [] => Some (a, len)
  | i :: ix' =>
      match nth_error a i with
      | Some g =>
          if negb (Nat.eqb g wrapped) then deregisterRange wrapped ix' a len
          else if (i + 1 <=? len)%nat
               then deregisterRange wrapped ix' (cutAt i a len) (len - 1)
               else None
      | None => None
      end
  end.

(** [deregister] on the gatherers [l]. *)
Definition deregister (wrapped : MetricsGatherer) (l : list MetricsGatherer)
    : option (list MetricsGatherer) :=
  match deregisterRange wrapped (seq 0 (length l)) l (length l) with
  | Some (a, len) => Some (firstn len a)
  | None => None
  end.

Lemma deregisterRange_app (w : MetricsGatherer) (ix1 ix2 : list nat)
    (a : list MetricsGatherer) (len : nat) :
  deregisterRange w (ix1 ++ ix2) a len
  = match deregisterRange w ix1 a len with
    | Some (a', len') => deregisterRange w ix2 a' len'
    | None => None
    end.
Proof.
  revert a len. induction ix1 as [|i ix1 IH]; intros a len; [reflexivity|].
  cbn -[Nat.leb Nat.add]. destruct (nth_error a i) as [g|]; [|reflexivity].
  destruct (negb (Nat.eqb g w)); [apply IH|].
  destruct (i + 1 <=? len)%nat; [apply IH | reflexivity].
Qed.

(** Over places that do not hold the wrapped gatherer the [range] does
    nothing. *)
Lemma deregisterRange_skip (w : MetricsGatherer) (ix : list nat)
    (a : list MetricsGatherer) (len : nat) :
  (forall i, In i ix -> exists g, nth_error a i = Some g /\ g <> w) ->
  deregisterRange w ix a len = Some (a, len).
Proof.
  induction ix as [|i ix IH]; intros H; [reflexivity|].
  cbn -[Nat.leb Nat.add]. destruct (H i (or_introl eq_refl)) as [g [Hg Hne]].
  rewrite Hg. apply Nat.eqb_neq in Hne. rewrite Hne. cbn [negb].
  apply IH. intros j Hj. apply H. right. exact Hj.
Qed.

Lemma nth_error_notin (w : MetricsGatherer) (l : list MetricsGatherer) (i : nat) :
  ~ In w l -> (i < length l)%nat ->
  exists g, nth_error l i = Some g /\ g <> w.
Proof.
  intros Hn Hi. destruct (nth_error l i) as [g|] eqn:Hg.
  - exists g. split; [reflexivity|]. intros ->. apply Hn.
    eapply nth_error_In. exact Hg.
  - apply nth_error_None in Hg. lia.
Qed.

Lemma seq_split (n k : nat) :
  (k <= n)%nat -> seq 0 n = seq 0 k ++ seq k (n - k).
Proof.
  intros H. replace n with (k + (n - k))%nat at 1 by lia. apply seq_app.
Qed.

Lemma firstn_length_app {A : Type} (l r : list A) : firstn (length l) (l ++ r) = l.
Proof.
  rewrite firstn_app, firstn_all, Nat.sub_diag. cbn. apply app_nil_r.
Qed.

Lemma skipn_length_app {A : Type} (l r : list A) : skipn (length l) (l ++ r) = r.
Proof. rewrite skipn_app, skipn_all, Nat.sub_diag. reflexivity. Qed.

Lemma In_skipn {A : Type} (x : A) (k : nat) (l : list A) :
  In x (skipn k l) -> In x l.
Proof.
  intros H. rewrite <- (firstn_skipn k l). apply in_or_app. right. exact H.
Qed.

(** The array after the wrapped gatherer is cut out of
    [l1 ++ wrapped :: l2]. *)
Lemma cutAt_wrapped (w : MetricsGatherer) (l1 l2 : list MetricsGatherer) :
  cutAt (length l1) (l1 ++ w :: l2) (length (l1 ++ w :: l2))
  = (l1 ++ l2) ++ [last l2 w].
Proof.
  unfold cutAt. rewrite firstn_all, firstn_length_app.
  replace (l1 ++ w :: l2) with ((l1 ++ [w]) ++ l2) at 1
    by (rewrite <- app_assoc; reflexivity).
  replace (S (length l1)) with (length (l1 ++ [w]))
    by (rewrite length_app; cbn; lia).
  rewrite skipn_length_app. rewrite <- app_assoc. f_equal. f_equal.
  destruct (exists_last (l := w :: l2)) as [front [x Hx]]; [discriminate|].
  replace (l1 ++ w :: l2) with ((l1 ++ front) ++ [x])
    by (rewrite <- app_assoc, <- Hx; reflexivity).
  replace (length ((l1 ++ front) ++ [x]) - 1)%nat with (length (l1 ++ front))
    by (rewrite (length_app (l1 ++ front)); cbn; lia).
  rewrite skipn_length_app. f_equal.
  assert (Hl : last (w :: l2) w = x).
  { rewrite Hx. apply last_last. }
  rewrite <- Hl. destruct l2; reflexivity.
Qed.

(** X1: The gatherer registered once is cut out, the others stay in their
    order; a gatherer that is not registered leaves the list as it is;
    so [deregister] undoes [RegisterMetricsGatherer], and a second
    [deregister] changes nothing. *)
Theorem deregister_removes (wrapped : MetricsGatherer)
    (l1 l2 : list MetricsGatherer) :
  ~ In wrapped l1 -> ~ In wrapped l2 ->
  deregister wrapped (l1 ++ wrapped :: l2) = Some (l1 ++ l2)
  /\ deregister wrapped (l1 ++ l2) = Some (l1 ++ l2)
  /\ deregister wrapped
       (metricsGatherers (registerGatherer wrapped
          {| requestSize := 0; requestDuration := 0; metricsInterval := 0;
             cfg_logger := None; metricsGatherers := l1;
             preContext := 0; postContext := 0;
             sanitizedFieldNames := []; disabledMetrics := [] |}))
     = Some l1.
Proof.
  intros H1 H2.
  assert (Hnone : forall l, ~ In wrapped l -> deregister wrapped l = Some l).
  { intros l Hl. unfold deregister.
    rewrite deregisterRange_skip.
    - rewrite firstn_all. reflexivity.
    - intros i Hi. apply in_seq in Hi. apply nth_error_notin; [exact Hl | lia]. }
  assert (Hcut : forall l2', ~ In wrapped l2' ->
            deregister wrapped (l1 ++ wrapped :: l2') = Some (l1 ++ l2')).
  { intros l2' Hl2. unfold deregister.
    assert (Hn : length (l1 ++ wrapped :: l2')
                 = (length l1 + S (length l2'))%nat).
    { rewrite length_app. reflexivity. }
    rewrite (seq_split (length (l1 ++ wrapped :: l2')) (length l1)) by lia.
    rewrite deregisterRange_app, deregisterRange_skip.
    2:{ intros i Hi. apply in_seq in Hi.
        rewrite nth_error_app1 by lia.
        apply nth_error_notin; [exact H1 | lia]. }
    replace (length (l1 ++ wrapped :: l2') - length l1)%nat
      with (S (length l2')) by lia.
    cbn -[Nat.leb Nat.add cutAt length].
    replace (nth_error (l1 ++ wrapped :: l2') (length l1)) with (Some wrapped).
    2:{ rewrite nth_error_app2 by lia. rewrite Nat.sub_diag. reflexivity. }
    rewrite Nat.eqb_refl. cbn [negb].
    replace (length l1 + 1 <=? length (l1 ++ wrapped :: l2'))%nat with true
      by (symmetry; apply Nat.leb_le; lia).
    rewrite cutAt_wrapped.
    rewrite deregisterRange_skip.
    - replace (length (l1 ++ wrapped :: l2') - 1)%nat with (length (l1 ++ l2'))
        by (rewrite length_app; lia).
      rewrite firstn_length_app. reflexivity.
    - intros i Hi. apply in_seq in Hi.
      destruct l2' as [|x l2'']; [cbn in Hi; lia|].
      apply nth_error_notin.
      + intros Hin. apply in_app_or in Hin. destruct Hin as [Hin|Hin].
        * apply in_app_or in Hin. tauto.
        * destruct Hin as [Hin|[]]. apply Hl2. rewrite <- Hin.
          destruct (exists_last (l := x :: l2'')) as [front [z Hz]];
            [discriminate|].
          rewrite Hz. rewrite last_last.
          apply in_or_app. right. left. reflexivity.
      + rewrite !length_app. cbn in *. lia. }
  split; [apply Hcut; exact H2|].
  split.
  - apply Hnone. intros Hin. apply in_app_or in Hin. tauto.
  - cbn [registerGatherer metricsGatherers].
    rewrite (Hcut [] (fun x => x)). rewrite app_nil_r. reflexivity.
Qed.

(** Tried on three gatherers with the second one deregistered. *)
Lemma deregister_removes_witness :
  deregister 7%nat ([3%nat] ++ 7%nat :: [5%nat]) = Some ([3%nat] ++ [5%nat])
  /\ deregister 7%nat ([3%nat] ++ [5%nat]) = Some ([3%nat] ++ [5%nat])
  /\ deregister 7%nat
       (metricsGatherers (registerGatherer 7%nat
          {| requestSize := 0; requestDuration := 0; metricsInterval := 0;
             cfg_logger := None; metricsGatherers := [3%nat];
             preContext := 0; postContext := 0;
             sanitizedFieldNames := []; disabledMetrics := [] |}))
     = Some [3%nat].
Proof.
  apply (deregister_removes 7%nat [3%nat] [5%nat]).
  - cbn. intros [H|[]]. discriminate H.
  - cbn. intros [H|[]]. discriminate H.
Defined.


(** * The answer to a read of the transport *)

Lemma wrap_int_add_l (a b : Z) : wrap_int (wrap_int a + b) = wrap_int (a + b).
Proof.
  unfold wrap_int. f_equal.
  replace ((a + 2 ^ 63) mod 2 ^ 64 - 2 ^ 63 + b + 2 ^ 63)
    with ((a + 2 ^ 63) mod 2 ^ 64 + b) by lia.
  rewrite Z.add_mod_idemp_l by lia. f_equal. lia.
Qed.

(** X2: The loop answers the pending read only with the request buffer not
    empty and more than the two bytes of the zlib header put out for the
    request so far.  The answer carries as many bytes as the slice
    takes, or as the buffer holds when that is less; they go from
    [requestBuf] to [requestBytesRead], so that
    [requestBytesRead+requestBuf.Len()] stays as it was; the answer
    carries [io.EOF] exactly when the request is marked for closing and
    the buffer is left empty.  Without an answer nothing changes. *)
Theorem respond_moves_bytes {W : Type} {ZW : ZlibWriter W} (s : LoopState W) :
  0 <= requestBuf s ->
  (forall bufLen, req s = Some bufLen -> 0 <= bufLen) ->
  requestBytes (fst (respond s)) = requestBytes s
  /\ closeRequest (fst (respond s)) = closeRequest s
  /\ zlibWriter (fst (respond s)) = zlibWriter s
  /\ match snd (respond s) with
     | [] =>
         fst (respond s) = s
         /\ (req s = None \/ requestBuf s = 0 \/ requestBytes s <= 2)
     | [Respond n eof] =>
         exists bufLen,
           req s = Some bufLen /\ 0 < requestBuf s /\ 2 < requestBytes s
           /\ n = Z.min bufLen (requestBuf s)
           /\ requestBuf (fst (respond s)) = requestBuf s - n
           /\ requestBytesRead (fst (respond s))
              = (if 0 <? n then int_add (requestBytesRead s) n
                 else requestBytesRead s)
           /\ req (fst (respond s)) = None
           /\ eof = closeRequest s && (requestBuf s <=? bufLen)
     | _ => False
     end.
Proof.
  intros Hbuf Hreq. unfold respond.
  destruct (req s) as [bufLen|] eqn:Hr.
  2:{ cbn. repeat split; try reflexivity. left. reflexivity. }
  specialize (Hreq bufLen eq_refl).
  destruct (requestBuf s =? 0) eqn:H0.
  { apply Z.eqb_eq in H0. cbn. repeat split; try reflexivity.
    right. left. exact H0. }
  apply Z.eqb_neq in H0.
  unfold zlibHeaderLen.
  destruct (2 <? requestBytes s) eqn:H2.
  2:{ apply Z.ltb_ge in H2. cbn. repeat split; try reflexivity.
      right. right. exact H2. }
  apply Z.ltb_lt in H2.
  unfold buffer_Read. 
  destruct (requestBuf s =? 0) eqn:H0'; [apply Z.eqb_eq in H0'; lia|].
  cbv zeta. cbn [read_n read_rest read_EOF].
  set (n := Z.min bufLen (requestBuf s)).
  assert (Hn : 0 <= n <= requestBuf s) by (unfold n; lia).
  unfold requestBytes in *.
  destruct s; cbn in *. subst.
  destruct (0 <? n) eqn:Hpos; cbn.
  - split.
    { unfold int_add. rewrite wrap_int_add_l. f_equal. lia. }
    split; [reflexivity|]. split; [reflexivity|].
    exists bufLen. repeat split; try reflexivity; try lia.
    match goal with
    | |- (if ?c && true && _ then _ else _) = _ => destruct c; [|reflexivity]
    end.
    cbn [andb].
    match goal with
    | |- (if ?a - n =? 0 then _ else _) = _ =>
        destruct (a - n =? 0) eqn:E1; destruct (a <=? bufLen) eqn:E2
    end;
      try reflexivity;
      rewrite ?Z.eqb_eq, ?Z.eqb_neq, ?Z.leb_le, ?Z.leb_gt in *; unfold n in *; lia.
  - apply Z.ltb_ge in Hpos.
    split; [f_equal; lia|].
    split; [reflexivity|]. split; [reflexivity|].
    exists bufLen. repeat split; try reflexivity; try lia.
    match goal with
    | |- (if ?c && true && _ then _ else _) = _ => destruct c; [|reflexivity]
    end.
    cbn [andb].
    match goal with
    | |- (if ?a - n =? 0 then _ else _) = _ =>
        destruct (a - n =? 0) eqn:E1; destruct (a <=? bufLen) eqn:E2
    end;
      try reflexivity;
      rewrite ?Z.eqb_eq, ?Z.eqb_neq, ?Z.leb_le, ?Z.leb_gt in *; unfold n in *; lia.
Qed.

(** [Flush] has closed the first request of the sample tracer, and the
    transport asks for a hundred bytes. *)
Definition sampleReading : LoopState HoldingWriter :=
  Eval vm_compute in set_req (Some 100) sampleFlushPending.

(** Tried on it. *)
Lemma respond_moves_bytes_witness :
  requestBytes (fst (respond sampleReading)) = requestBytes sampleReading
  /\ closeRequest (fst (respond sampleReading)) = closeRequest sampleReading
  /\ zlibWriter (fst (respond sampleReading)) = zlibWriter sampleReading
  /\ match snd (respond sampleReading) with
     | [] =>
         fst (respond sampleReading) = sampleReading
         /\ (req sampleReading = None \/ requestBuf sampleReading = 0 \/ requestBytes sampleReading <= 2)
     | [Respond n eof] =>
         exists bufLen,
           req sampleReading = Some bufLen /\ 0 < requestBuf sampleReading /\ 2 < requestBytes sampleReading
           /\ n = Z.min bufLen (requestBuf sampleReading)
           /\ requestBuf (fst (respond sampleReading)) = requestBuf sampleReading - n
           /\ requestBytesRead (fst (respond sampleReading))
              = (if 0 <? n then int_add (requestBytesRead sampleReading) n
                 else requestBytesRead sampleReading)
           /\ req (fst (respond sampleReading)) = None
           /\ eof = closeRequest sampleReading && (requestBuf sampleReading <=? bufLen)
     | _ => False
     end.
Proof.
  apply (respond_moves_bytes sampleReading).
  - cbn. lia.
  - intros bufLen H. cbn in H. injection H as H. lia.
Defined.


(** * Invariants of the loop's variables, in every reachable state *)

Section Lifting.

Context {W : Type} {ZW : ZlibWriter W}.

Variable nextGracePeriod : Duration -> Duration.

Variable t : TracerParams.

(** A property of the loop's variables that holds at the start, that
    every iteration keeps, and that does not depend on the two timers
    and on the metrics snapshot, which other goroutines touch. *)
Variable P : LoopState W -> Prop.

Hypothesis P_init : P (initialLoop t).

Hypothesis P_iter :
  forall now c s s' effs,
    loop_ok s -> P s ->
    loop_iter nextGracePeriod t now c s = Some (looping s' effs) -> P s'.

Hypothesis P_requestTimer : forall tm s, P s -> P (set_requestTimer tm s).

Hypothesis P_metricsTimer : forall tm s, P s -> P (set_metricsTimer tm s).

Hypothesis P_metrics : forall m s, P s -> P (set_metrics m s).

Lemma sys_step_loop_invariant (y y' : Sys W) (l : Label) :
  sys_ok y ->
  (forall s, loopStatus y = loopRunning s -> P s) ->
  sys_step nextGracePeriod t y l y' ->
  forall s', loopStatus y' = loopRunning s' -> P s'.
Proof.
  intros Hok HP Hstep.
  destruct Hstep;
    try (match goal with H : begins _ _ _ |- _ => destruct H end);
    try (destruct y; cbn in *; exact HP).
  - (* the loop *)
    intros s' Hs'.
    match goal with
    | H : apply_effects _ _ = Some _ |- _ =>
        destruct (apply_effects_spec _ _ _ H) as [[Ho _] _]
    end.
    rewrite Ho in Hs'.
    destruct (with_loopStatus_spec (iter_status r) y1) as [Hl _].
    rewrite Hl in Hs'. destruct r as [effs|s1 effs]; [discriminate|].
    cbn in Hs'. injection Hs' as Hs'. subst s1.
    unfold sys_ok in Hok.
    match goal with H : loopStatus y = loopRunning _ |- _ =>
      rewrite H in Hok; specialize (HP _ H) end.
    destruct Hok as [_ [Hlok _]].
    eapply P_iter; eassumption.
  - (* the request timer *)
    intros s' Hs'.
    match goal with H : loopStatus y = loopRunning _ |- _ =>
      specialize (HP _ H) end.
    destruct y; cbn in *. injection Hs' as Hs'. subst s'.
    apply P_requestTimer. exact HP.
  - (* the metrics timer *)
    intros s' Hs'.
    match goal with H : loopStatus y = loopRunning _ |- _ =>
      specialize (HP _ H) end.
    destruct y; cbn in *. injection Hs' as Hs'. subst s'.
    apply P_metricsTimer. exact HP.
  - (* a gatherer *)
    intros s' Hs'. destruct y as [? ? ? ? ? ls ? ? ? ? ? ? ? ? ? ? ? ?]; cbn in *.
    destruct ls as [|s0|]; cbn in Hs'; try discriminate.
    injection Hs' as Hs'. subst s'. apply P_metrics. apply HP. reflexivity.
  - (* the cycle signals *)
    intros s' Hs'. destruct y as [? ? ? ? ? ls ? ? ? ? ? ? ? ? ? ? ? ?]; cbn in *.
    destruct ls as [|s0|]; cbn in Hs'; try discriminate.
    injection Hs' as Hs'. subst s'. apply P_metrics. apply HP. reflexivity.
Qed.

Lemma reachable_loop_invariant (y : Sys W) (s : LoopState W) :
  reachable nextGracePeriod t y -> loopStatus y = loopRunning s -> P s.
Proof.
  intros [active [cmd [ls Hsteps]]]. revert s.
  remember (newTracer t active cmd) as y0 eqn:Hy0.
  induction Hsteps as [|y0 ls y1 l y2 Hs IH Hstep].
  - subst. intros s Hs. destruct active; cbn in Hs; [|discriminate].
    injection Hs as Hs. subst s. exact P_init.
  - specialize (IH Hy0). subst y0.
    apply (sys_step_loop_invariant y1 y2 l); [|exact IH | exact Hstep].
    apply (steps_ok nextGracePeriod t _ _ _ (sys_ok_newTracer t active cmd) Hs).
Qed.

End Lifting.


(** * The request and the compressor *)

Ltac wire_done :=
  split; [reflexivity|]; split; intros Hx; first [exact Hx | reflexivity].

Section Wire.

Context {W : Type} {ZW : ZlibWriter W}.

Variable nextGracePeriod : Duration -> Duration.

Variable t : TracerParams.

(** The variables that say where the request stands. *)
Record Wire := {
  w_requestActive : bool;
  w_zlibClosed : bool;
  w_zlibFlushed : bool;
  w_zlibWriter : W;
  w_requestBuf : Z;
  w_requestBytesRead : Z;
  w_requestBufTransactions : Z;
  w_requestBufSpans : Z;
  w_requestBufErrors : Z;
  w_requestBufMetricsets : Z;
  w_metadata : option Z
}.

Definition wire (s : LoopState W) : Wire :=
  {| w_requestActive := requestActive s;
     w_zlibClosed := zlibClosed s;
     w_zlibFlushed := zlibFlushed s;
     w_zlibWriter := zlibWriter s;
     w_requestBuf := requestBuf s;
     w_requestBytesRead := requestBytesRead s;
     w_requestBufTransactions := requestBufTransactions s;
     w_requestBufSpans := requestBufSpans s;
     w_requestBufErrors := requestBufErrors s;
     w_requestBufMetricsets := requestBufMetricsets s;
     w_metadata := metadata s |}.

Lemma writeEvent_wire (event : tracerEvent) (s : LoopState W) :
  wire (writeEvent event s) = wire s
  /\ closeRequest (writeEvent event s) = closeRequest s
  /\ flushRequest (writeEvent event s) = flushRequest s
  /\ metricsBuffer (writeEvent event s) = metricsBuffer s.
Proof. unfold writeEvent, wire. destruct s; cbn. repeat split. Qed.

Lemma drainEvents_wire (queued : list tracerEvent) (s : LoopState W) :
  wire (drainEvents queued s) = wire s
  /\ closeRequest (drainEvents queued s) = closeRequest s
  /\ flushRequest (drainEvents queued s) = flushRequest s
  /\ metricsBuffer (drainEvents queued s) = metricsBuffer s.
Proof.
  revert s. induction queued as [|event queued IH]; intros s.
  - cbn. repeat split.
  - change (drainEvents (event :: queued) s)
      with (drainEvents queued (writeEvent event s)).
    destruct (IH (writeEvent event s)) as [I1 [I2 [I3 I4]]].
    destruct (writeEvent_wire event s) as [E1 [E2 [E3 E4]]].
    rewrite I1, I2, I3, I4, E1, E2, E3, E4. repeat split.
Qed.

Lemma writeMetrics_wire (s : LoopState W) :
  wire (writeMetrics s) = wire s
  /\ closeRequest (writeMetrics s) = closeRequest s
  /\ flushRequest (writeMetrics s) = flushRequest s
  /\ buffer (writeMetrics s) = buffer s.
Proof. unfold writeMetrics, wire. destruct s; cbn -[fold_left]. repeat split. Qed.

(** No case of the [select] but the result of the send touches the
    request or the compressor; [closeRequest] and [flushRequest] are
    set, never cleared. *)
Lemma selectCase_wire (now : Time) (c : SelectCase) (s s1 : LoopState W)
    (flow : Flow) (effs : list Effect) :
  is_result c = false ->
  selectCase nextGracePeriod now c s = Some (flow, s1, effs) ->
  wire s1 = wire s
  /\ (closeRequest s = true -> closeRequest s1 = true)
  /\ (flushRequest s = true -> flushRequest s1 = true).
Proof.
  intros Hres. destruct c; try discriminate; cbn.
  - (* a configuration command *)
    unfold onConfigCommand, wire. destruct s; cbn -[timer_stopDrain].
    repeat (inner_destruct; cbn -[timer_stopDrain]);
      intros H; inversion H; subst; cbn; wire_done.
  - (* an event *)
    unfold onEvent.
    destruct (writeEvent_wire event s) as [E1 [E2 [E3 _]]].
    rewrite <- E1, <- E2, <- E3. clear E1 E2 E3.
    remember (writeEvent event s) as s2 eqn:Es2. clear Es2.
    destruct (eventType event); intros H; injection H as H1 H2 H3;
      subst flow s1 effs; unfold wire; destruct s2; cbn; wire_done.
  - (* the request timer *)
    unfold onRequestTimer, wire. destruct s; cbn.
    repeat (inner_destruct; cbn); intros H; inversion H; subst; cbn; wire_done.
  - (* the metrics timer *)
    unfold onMetricsTimer, wire. destruct s; cbn.
    repeat (inner_destruct; cbn); intros H; inversion H; subst; cbn; wire_done.
  - (* SendMetrics *)
    unfold onForceSendMetrics, wire. destruct s; cbn -[timer_stopDrain].
    repeat (inner_destruct; cbn -[timer_stopDrain]);
      intros H; inversion H; subst; cbn; wire_done.
  - (* the metrics are gathered *)
    unfold onGatheredMetrics.
    destruct (writeMetrics_wire s) as [E1 [E2 [E3 _]]].
    rewrite <- E1, <- E2, <- E3. clear E1 E2 E3.
    remember (writeMetrics s) as s2 eqn:Es2. clear Es2.
    unfold wire. destruct s2; cbn.
    repeat (inner_destruct; cbn); intros H; inversion H; subst; cbn; wire_done.
  - (* Flush *)
    unfold onForceFlush. cbv zeta.
    destruct (drainEvents_wire queued (set_flushed (Some c) s)) as [E1 [E2 [E3 _]]].
    assert (F : wire (set_flushed (Some c) s) = wire s
                /\ closeRequest (set_flushed (Some c) s) = closeRequest s
                /\ flushRequest (set_flushed (Some c) s) = flushRequest s).
    { unfold wire. destruct s; cbn. repeat split. }
    destruct F as [F1 [F2 F3]]. rewrite F1 in E1. rewrite F2 in E2. rewrite F3 in E3.
    rewrite <- E1, <- E2, <- E3. clear E1 E2 E3 F1 F2 F3.
    remember (drainEvents queued (set_flushed (Some c) s)) as s2 eqn:Es2. clear Es2.
    destruct (negb (requestActive s2) && _ && _);
      intros H; injection H as H1 H2 H3;
      subst flow s1 effs; unfold wire; destruct s2; cbn; wire_done.
  - (* a read of the transport *)
    unfold onReadRequest, wire. destruct s; cbn.
    intros H; inversion H; subst; cbn; wire_done.
Qed.

(** ** Where the buffered blocks wait *)

Definition drained (s : LoopState W) : Prop :=
  ringbuffer.blocks (buffer s) = [] /\ ringbuffer.blocks (metricsBuffer s) = [].

(** At the head of the [for]: blocks wait in the buffers only while a
    request is in flight that is marked for closing; a request marked
    for closing has its compressor closed; and a flush that is still
    asked for finds the compressor flushed. *)
Definition stream_ok (s : LoopState W) : Prop :=
  (requestActive s = false -> drained s)
  /\ (requestActive s = true -> closeRequest s = false -> drained s)
  /\ (requestActive s = true -> closeRequest s = true -> zlibClosed s = true)
  /\ (requestActive s = true -> closeRequest s = false ->
      flushRequest s = true -> zlibFlushed s = true).

Lemma buffers_empty_drained (s : LoopState W) :
  buffers_empty s = true -> drained s.
Proof.
  unfold buffers_empty, drained. intros H. apply andb_true_iff in H.
  destruct H as [H1 H2]. apply Z.eqb_eq in H1. apply Z.eqb_eq in H2.
  split; apply Len_zero_blocks; assumption.
Qed.

Lemma streaming_stream (s s' : LoopState W) :
  streaming s = Some s' ->
  requestActive s' = requestActive s
  /\ (closeRequest s' = false -> drained s').
Proof.
  unfold streaming.
  destruct (negb (closeRequest s) || negb (zlibClosed s)) eqn:Hguard.
  2:{ intros H. injection H as H. subst s'. split; [reflexivity|].
      apply orb_false_iff in Hguard. destruct Hguard as [Hg _].
      apply negb_false_iff in Hg. congruence. }
  destruct (streamBlocks (streamFuel s) s) as [s1|] eqn:H1; [|discriminate].
  destruct (streamBlocks_spec _ _ _ H1)
    as [pm [pt [_ [_ [_ [_ [B5 [_ [_ B8]]]]]]]]].
  destruct B8 as [C1 [_ [_ [C4 _]]]].
  destruct (closeRequest s1) eqn:Hclose; cbn [negb].
  - intros H. injection H as H. subst s'. split; [exact C4 | congruence].
  - set (b := requestSize (cfg s1) <=? requestBytes s1).
    destruct (set_closeRequest_same nextGracePeriod b s1)
      as [S1 [S2 [S3 [_ [_ [S6 _]]]]]].
    destruct S1 as [_ [_ [_ [S1 _]]]].
    remember (set_closeRequest b s1) as sc eqn:Hsc. clear Hsc.
    intros H. injection H as H. subst s'.
    split; [rewrite S1; exact C4|].
    rewrite S6. unfold b. intros Hb. apply Z.leb_gt in Hb.
    unfold drained. rewrite S2, S3. rewrite C1 in Hb.
    destruct B5 as [B5|[B5a B5b]]; [lia | split; assumption].
Qed.

Lemma finishing_stream (s : LoopState W) :
  requestActive (finishing s) = requestActive s
  /\ closeRequest (finishing s) = closeRequest s
  /\ buffer (finishing s) = buffer s
  /\ metricsBuffer (finishing s) = metricsBuffer s
  /\ (closeRequest s = true -> zlibClosed (finishing s) = true)
  /\ (closeRequest s = false -> flushRequest (finishing s) = true ->
      zlibFlushed (finishing s) = true).
Proof.
  unfold finishing, zlibClose, zlibFlush. destruct s; cbn.
  repeat (inner_destruct; cbn); repeat split; try reflexivity;
    try discriminate; intros; try discriminate; try assumption;
    try reflexivity;
    repeat match goal with
           | H : negb ?b = _ |- _ => destruct b; cbn in H; try discriminate H
           | H : ?a && negb ?b = false |- _ =>
               destruct a; destruct b; cbn in H; try discriminate H
           end;
    try reflexivity; try discriminate.
Qed.

Lemma respond_stream (s : LoopState W) :
  requestActive (fst (respond s)) = requestActive s
  /\ closeRequest (fst (respond s)) = closeRequest s
  /\ buffer (fst (respond s)) = buffer s
  /\ metricsBuffer (fst (respond s)) = metricsBuffer s
  /\ zlibClosed (fst (respond s)) = zlibClosed s
  /\ zlibFlushed (fst (respond s)) = zlibFlushed s
  /\ flushRequest (fst (respond s)) = flushRequest s
  /\ zlibWriter (fst (respond s)) = zlibWriter s.
Proof.
  unfold respond. destruct s; cbn.
  repeat (inner_destruct; cbn); repeat split; reflexivity.
Qed.

(** Whatever the [select] left, the rest of the iteration establishes
    it. *)
Lemma afterSelect_stream_ok (now : Time) (g : bool) (s s' : LoopState W)
    (effs0 effs : list Effect) :
  afterSelect t now g s effs0 = Some (looping s' effs) -> stream_ok s'.
Proof.
  unfold afterSelect. cbv zeta.
  set (sg := fst (if g then startGather now (fst (mergeStats s))
                  else (fst (mergeStats s), []))).
  destruct (openRequest t sg) as [[s3 opened]|] eqn:Hopen.
  - assert (Hact : requestActive s3 = true).
    { pose proof (openRequest_spec nextGracePeriod t _ _ _ Hopen) as Ho.
      destruct (requestActive sg) eqn:Ha.
      - destruct Ho as [Ho _]. subst s3. exact Ha.
      - destruct Ho as [_ [_ [Ho _]]]. apply control_fields_of in Ho.
        destruct Ho as [Ho _]. exact Ho. }
    destruct (streaming s3) as [s4|] eqn:Hs4; [|discriminate].
    intros H. injection H as H _. subst s'.
    destruct (streaming_stream _ _ Hs4) as [S1 S2].
    destruct (finishing_stream s4) as [F1 [F2 [F3 [F4 [F5 F6]]]]].
    destruct (respond_stream (finishing s4)) as [R1 [R2 [R3 [R4 [R5 [R6 [R7 _]]]]]]].
    unfold stream_ok, drained.
    rewrite R1, R2, R3, R4, R5, R6, R7, F1, F2, F3, F4, S1, Hact.
    split; [discriminate|].
    split; [intros _ Hc; exact (S2 Hc)|].
    split; [intros _ Hc; exact (F5 Hc)|].
    intros _ Hc Hf. exact (F6 Hc Hf).
  - intros H. injection H as H _. subst s'.
    apply openRequest_None in Hopen. destruct Hopen as [Ha Hb].
    unfold stream_ok. rewrite Ha.
    split; [intros _; apply buffers_empty_drained; exact Hb|].
    split; [discriminate|]. split; discriminate.
Qed.

Lemma onConfigCommand_stream (now : Time) (cmd : tracerConfigCommand)
    (s s1 : LoopState W) (flow : Flow) (effs : list Effect) :
  onConfigCommand now cmd s = Some (flow, s1, effs) ->
  stream_ok s -> stream_ok s1.
Proof.
  unfold onConfigCommand, stream_ok, drained. destruct s; cbn -[timer_stopDrain].
  repeat (inner_destruct; cbn -[timer_stopDrain]);
    intros H; inversion H; subst; cbn; tauto.
Qed.

Lemma loop_iter_stream_ok (now : Time) (c : SelectCase) (s s' : LoopState W)
    (effs : list Effect) :
  loop_ok s -> stream_ok s ->
  loop_iter nextGracePeriod t now c s = Some (looping s' effs) ->
  stream_ok s'.
Proof.
  intros Hok Hs Hiter.
  destruct (loop_iter_spec nextGracePeriod t now c s s' effs Hok Hiter)
    as [flow [s1 [effs1 [Hsel [Hpost Hflow]]]]].
  destruct flow as [g|].
  - exact (afterSelect_stream_ok _ _ _ _ _ _ Hflow).
  - destruct Hflow as [Hs1 _]. subst s'.
    destruct Hpost as [_ [P2 _]].
    destruct c; cbn in P2; try discriminate.
    + exact (onConfigCommand_stream _ _ _ _ _ _ Hsel Hs).
    + cbn in Hsel. unfold onForceFlush in Hsel. cbv zeta in Hsel.
      remember (drainEvents queued (set_flushed (Some c) s)) as sd eqn:Esd.
      destruct (negb (requestActive sd) && (ringbuffer.Len (buffer sd) =? 0)
                && (ringbuffer.Len (metricsBuffer sd) =? 0)) eqn:Hnow;
        [|discriminate].
      injection Hsel as Hs1 _. subst s1.
      rewrite <- andb_assoc in Hnow. apply andb_true_iff in Hnow.
      destruct Hnow as [Ha Hb]. apply negb_true_iff in Ha.
      unfold stream_ok. rewrite Ha.
      split; [intros _; apply buffers_empty_drained; exact Hb|].
      split; [discriminate|]. split; discriminate.
Qed.

(** *** A request that is closed off *)

Lemma mergeStats_wire (s : LoopState W) :
  wire (fst (mergeStats s)) = wire s
  /\ closeRequest (fst (mergeStats s)) = closeRequest s
  /\ flushRequest (fst (mergeStats s)) = flushRequest s.
Proof.
  unfold mergeStats, wire. destruct s; cbn.
  destruct (negb (isZero _)); cbn; repeat split.
Qed.

Lemma startGather_wire (now : Time) (s : LoopState W) :
  wire (fst (startGather now s)) = wire s
  /\ closeRequest (fst (startGather now s)) = closeRequest s
  /\ flushRequest (fst (startGather now s)) = flushRequest s.
Proof. unfold startGather, wire. destruct s; cbn. repeat split. Qed.

Lemma respond_wire (s : LoopState W) :
  requestActive (fst (respond s)) = requestActive s
  /\ closeRequest (fst (respond s)) = closeRequest s
  /\ zlibClosed (fst (respond s)) = zlibClosed s
  /\ zlibWriter (fst (respond s)) = zlibWriter s
  /\ requestBufTransactions (fst (respond s)) = requestBufTransactions s
  /\ requestBufSpans (fst (respond s)) = requestBufSpans s
  /\ requestBufErrors (fst (respond s)) = requestBufErrors s
  /\ requestBufMetricsets (fst (respond s)) = requestBufMetricsets s
  /\ signals (snd (respond s)) = [].
Proof.
  unfold respond. destruct s; cbn.
  repeat (inner_destruct; cbn); repeat split; reflexivity.
Qed.

Lemma wire_fields (s s' : LoopState W) :
  wire s' = wire s ->
  requestActive s' = requestActive s /\ zlibClosed s' = zlibClosed s
  /\ zlibFlushed s' = zlibFlushed s /\ zlibWriter s' = zlibWriter s
  /\ requestBuf s' = requestBuf s /\ requestBytesRead s' = requestBytesRead s
  /\ requestBufTransactions s' = requestBufTransactions s
  /\ requestBufSpans s' = requestBufSpans s
  /\ requestBufErrors s' = requestBufErrors s
  /\ requestBufMetricsets s' = requestBufMetricsets s
  /\ metadata s' = metadata s.
Proof.
  unfold wire. intros H.
  injection H as H1 H2 H3 H4 H5 H6 H7 H8 H9 H10 H11. repeat split; assumption.
Qed.

(** With the request in flight closed off, the rest of the iteration
    writes nothing to the compressor and opens no request. *)
Lemma afterSelect_closed (now : Time) (g : bool) (s s' : LoopState W)
    (effs0 effs : list Effect) :
  requestActive s = true -> closeRequest s = true -> zlibClosed s = true ->
  afterSelect t now g s effs0 = Some (looping s' effs) ->
  requestActive s' = true /\ closeRequest s' = true /\ zlibClosed s' = true
  /\ zlibWriter s' = zlibWriter s
  /\ requestBufTransactions s' = requestBufTransactions s
  /\ requestBufSpans s' = requestBufSpans s
  /\ requestBufErrors s' = requestBufErrors s
  /\ requestBufMetricsets s' = requestBufMetricsets s
  /\ signals effs = signals effs0.
Proof.
  intros Ha Hc Hz. unfold afterSelect. cbv zeta.
  destruct (mergeStats_wire s) as [M1 [M2 _]].
  assert (Hm : signals (snd (mergeStats s)) = []).
  { unfold mergeStats. destruct (negb (isZero (stats s))); reflexivity. }
  set (r := if g then startGather now (fst (mergeStats s))
            else (fst (mergeStats s), [])).
  assert (Hr : wire (fst r) = wire s /\ closeRequest (fst r) = closeRequest s
               /\ signals (snd r) = []).
  { unfold r. destruct g.
    - destruct (startGather_wire now (fst (mergeStats s))) as [G1 [G2 _]].
      rewrite G1, G2, M1, M2.
      destruct (startGather_spec nextGracePeriod now (fst (mergeStats s)))
        as [_ [_ [_ [_ [_ [_ [_ [G8 _]]]]]]]].
      repeat split. exact G8.
    - cbn. rewrite M1, M2. repeat split. }
  destruct Hr as [R1 [R2 R3]].
  apply wire_fields in R1.
  destruct R1 as [W1 [W2 [_ [W4 [_ [_ [W7 [W8 [W9 [W10 _]]]]]]]]]].
  unfold openRequest. rewrite W1, Ha.
  unfold streaming. rewrite R2, W2, Hc, Hz. cbn [negb orb].
  unfold finishing. rewrite R2, W2, Hc, Hz. cbn [negb].
  intros H. injection H as Hs He. subst s' effs.
  destruct (respond_wire (fst r)) as [P1 [P2 [P3 [P4 [P5 [P6 [P7 [P8 P9]]]]]]]].
  rewrite P1, P2, P3, P4, P5, P6, P7, P8, W1, R2, W2, W4, W7, W8, W9, W10.
  rewrite !signals_app, Hm, R3, P9. cbn. rewrite app_nil_r.
  repeat split; assumption.
Qed.

Lemma stream_ok_initialLoop : stream_ok (initialLoop t).
Proof. unfold stream_ok, drained. cbn. repeat split; discriminate. Qed.

(** In every reachable state. *)
Lemma stream_ok_reachable (y : Sys W) (s : LoopState W) :
  reachable nextGracePeriod t y -> loopStatus y = loopRunning s -> stream_ok s.
Proof.
  apply (reachable_loop_invariant nextGracePeriod t stream_ok).
  - exact stream_ok_initialLoop.
  - intros now c s0 s' effs Hok Hs Hiter.
    exact (loop_iter_stream_ok now c s0 s' effs Hok Hs Hiter).
  - intros tm s0. unfold stream_ok, drained. destruct s0; cbn. tauto.
  - intros tm s0. unfold stream_ok, drained. destruct s0; cbn. tauto.
  - intros m s0. unfold stream_ok, drained. destruct s0; cbn. tauto.
Qed.

End Wire.


(** X3: Blocks wait in the buffers only while a request is in flight that
    has been closed off: in every reachable state with a block in the
    trace buffer or in the metrics buffer, a request is active, it is
    marked for closing and its compressor is closed.  With no request
    in flight, or one still open, both buffers are empty. *)
Theorem blocks_wait_only_for_closing_request {W : Type} {ZW : ZlibWriter W}
    (nextGracePeriod : Duration -> Duration) (t : TracerParams)
    (y : Sys W) (s : LoopState W) :
  reachable nextGracePeriod t y ->
  loopStatus y = loopRunning s ->
  (ringbuffer.blocks (buffer s) <> [] \/ ringbuffer.blocks (metricsBuffer s) <> [] ->
   requestActive s = true /\ closeRequest s = true /\ zlibClosed s = true)
  /\ (requestActive s = true -> closeRequest s = true -> zlibClosed s = true)
  /\ (requestActive s = true -> closeRequest s = false ->
      flushRequest s = true -> zlibFlushed s = true).
Proof.
  intros Hreach Hloop.
  destruct (stream_ok_reachable nextGracePeriod t y s Hreach Hloop)
    as [H1 [H2 [H3 H4]]].
  split; [|split; assumption].
  intros Hne. unfold drained in *.
  destruct (requestActive s) eqn:Ha.
  - destruct (closeRequest s) eqn:Hc.
    + split; [reflexivity|]. split; [reflexivity|]. apply H3; reflexivity.
    + exfalso. destruct (H2 eq_refl eq_refl) as [D1 D2]. tauto.
  - exfalso. destruct (H1 eq_refl) as [D1 D2]. tauto.
Qed.

(** X4: Once the request in flight is closed off, no iteration writes to
    its compressor or counts anything into it, and none opens another
    request, until the result of the send is received: the events that
    come meanwhile stay in the buffers. *)
Theorem closed_request_left_alone {W : Type} {ZW : ZlibWriter W}
    (nextGracePeriod : Duration -> Duration) (t : TracerParams) (now : Time)
    (c : SelectCase) (s s' : LoopState W) (effs : list Effect) :
  loop_ok s ->
  requestActive s = true -> closeRequest s = true -> zlibClosed s = true ->
  is_result c = false ->
  loop_iter nextGracePeriod t now c s = Some (looping s' effs) ->
  requestActive s' = true /\ closeRequest s' = true /\ zlibClosed s' = true
  /\ zlibWriter s' = zlibWriter s
  /\ requestBufTransactions s' = requestBufTransactions s
  /\ requestBufSpans s' = requestBufSpans s
  /\ requestBufErrors s' = requestBufErrors s
  /\ requestBufMetricsets s' = requestBufMetricsets s
  /\ signals effs = [].
Proof.
  intros Hok Ha Hc Hz Hres Hiter.
  destruct (loop_iter_spec nextGracePeriod t now c s s' effs Hok Hiter)
    as [flow [s1 [effs1 [Hsel [Hpost Hflow]]]]].
  destruct (selectCase_wire nextGracePeriod now c s s1 flow effs1 Hres Hsel)
    as [Hw [Hcl _]].
  apply wire_fields in Hw.
  destruct Hw as [W1 [W2 [_ [W4 [_ [_ [W7 [W8 [W9 [W10 _]]]]]]]]]].
  destruct Hpost as [_ [_ [_ [_ [_ [_ [_ [_ [P9 _]]]]]]]]].
  destruct flow as [g|].
  - destruct (afterSelect_closed nextGracePeriod t now g s1 s' effs1 effs)
      as [A1 [A2 [A3 [A4 [A5 [A6 [A7 [A8 A9]]]]]]]]; try assumption;
      try congruence; [exact (Hcl Hc)|].
    rewrite A4, A5, A6, A7, A8, A9, W4, W7, W8, W9, W10.
    repeat split; assumption.
  - destruct Hflow as [Hs He]. subst s' effs.
    rewrite W1, W2, W4, W7, W8, W9, W10, (Hcl Hc), Ha, Hz.
    repeat split. exact P9.
Qed.

(** Tried on the sample tracer with its first request in flight and
    still open: both buffers are empty. *)
Lemma blocks_wait_only_for_closing_request_witness :
  closeRequest sampleStreaming = false
  /\ ringbuffer.blocks (buffer sampleStreaming) = []
  /\ (ringbuffer.blocks (buffer sampleStreaming) <> []
      \/ ringbuffer.blocks (metricsBuffer sampleStreaming) <> [] ->
      requestActive sampleStreaming = true
      /\ closeRequest sampleStreaming = true
      /\ zlibClosed sampleStreaming = true)
  /\ (requestActive sampleStreaming = true ->
      closeRequest sampleStreaming = true -> zlibClosed sampleStreaming = true)
  /\ (requestActive sampleStreaming = true ->
      closeRequest sampleStreaming = false ->
      flushRequest sampleStreaming = true -> zlibFlushed sampleStreaming = true).
Proof.
  split; [reflexivity|]. split; [reflexivity|].
  apply (blocks_wait_only_for_closing_request sampleGracePeriod sampleTracer
           sampleSys3 sampleStreaming).
  - exact sampleSys3_reachable.
  - reflexivity.
Defined.

(** The sample tracer after [Flush] has closed off its first request
    takes one more transaction. *)
Definition sampleClosedEvent : LoopState HoldingWriter :=
  Eval vm_compute in
    loopAfter [(1, caseConfigCommand (sampleOptions None));
               (2, caseEvent (transaction 500));
               (3, caseForceFlush 5%nat []);
               (4, caseEvent (transaction 500))].

(** Tried on it: the transaction stays in the trace buffer. *)
Lemma closed_request_left_alone_witness :
  ringbuffer.blocks (buffer sampleFlushPending) = []
  /\ ringbuffer.blocks (buffer sampleClosedEvent) = [eventBlock (transaction 500)]
  /\ requestActive sampleClosedEvent = true
  /\ closeRequest sampleClosedEvent = true
  /\ zlibClosed sampleClosedEvent = true
  /\ zlibWriter sampleClosedEvent = zlibWriter sampleFlushPending
  /\ requestBufTransactions sampleClosedEvent
     = requestBufTransactions sampleFlushPending
  /\ requestBufSpans sampleClosedEvent = requestBufSpans sampleFlushPending
  /\ requestBufErrors sampleClosedEvent = requestBufErrors sampleFlushPending
  /\ requestBufMetricsets sampleClosedEvent
     = requestBufMetricsets sampleFlushPending
  /\ signals [] = [].
Proof.
  split; [reflexivity|]. split; [reflexivity|].
  apply (closed_request_left_alone sampleGracePeriod sampleTracer 4
           (caseEvent (transaction 500)) sampleFlushPending sampleClosedEvent []).
  - unfold loop_ok, select_ok, counters_ok, requestTimer_ok, metricsTimer_ok,
      is_u64, u64_mod.
    cbn. repeat split; try lia; try reflexivity; try discriminate.
    + left. split; [discriminate | reflexivity].
    + intros H. exfalso. apply H. reflexivity.
  - reflexivity.
  - reflexivity.
  - reflexivity.
  - reflexivity.
  - vm_compute. reflexivity.
Defined.

(** * The iteration comes to its end *)



(** * [Active] *)



(** * A flush that is asked for *)

Section FlushFacts.

Context {W : Type} {ZW : ZlibWriter W}.

Variable nextGracePeriod : Duration -> Duration.

Variable t : TracerParams.

Lemma openRequest_flushRequest (s s' : LoopState W) (effs : list Effect) :
  openRequest t s = Some (s', effs) -> flushRequest s' = flushRequest s.
Proof.
  unfold openRequest, zlibWrite. destruct s; cbn.
  repeat (inner_destruct; cbn); intros H; inversion H; subst; clear H; reflexivity.
Qed.

Lemma pullMetrics_flushRequest (blk : Block) (mb : ringbuffer.Buffer)
    (s : LoopState W) :
  flushRequest (pullMetrics blk mb s) = flushRequest s.
Proof.
  unfold pullMetrics, zlibWrite. destruct s; cbn.
  repeat (inner_destruct; cbn); reflexivity.
Qed.

Lemma pullTrace_flushRequest (h : Block) (b : ringbuffer.Buffer)
    (s : LoopState W) :
  flushRequest (pullTrace h b s) = flushRequest s.
Proof.
  unfold pullTrace, zlibWrite. destruct s; cbn.
  repeat (inner_destruct; cbn); reflexivity.
Qed.

Lemma streamBlocks_flushRequest (fuel : nat) (s s' : LoopState W) :
  streamBlocks fuel s = Some s' -> flushRequest s' = flushRequest s.
Proof.
  revert s. induction fuel as [|fuel IH]; intros s; [discriminate|].
  cbn [streamBlocks].
  destruct (requestBytes s <? requestSize (cfg s));
    [|intros H; injection H as <-; reflexivity].
  destruct (0 <? ringbuffer.Len (metricsBuffer s)).
  - destruct (ringbuffer.WriteBlockTo (metricsBuffer s)) as [[blk mb]|];
      intros H; rewrite (IH _ H); [apply pullMetrics_flushRequest | reflexivity].
  - destruct (ringbuffer.Len (buffer s) =? 0);
      [intros H; injection H as <-; reflexivity|].
    destruct (ringbuffer.WriteBlockTo (buffer s)) as [[h b]|];
      intros H; rewrite (IH _ H); [apply pullTrace_flushRequest | reflexivity].
Qed.

Lemma streaming_flushRequest (s s' : LoopState W) :
  streaming s = Some s' -> flushRequest s' = flushRequest s.
Proof.
  unfold streaming.
  destruct (negb (closeRequest s) || negb (zlibClosed s));
    [|intros H; injection H as <-; reflexivity].
  destruct (streamBlocks (streamFuel s) s) as [s1|] eqn:Hs; [|discriminate].
  pose proof (streamBlocks_flushRequest _ _ _ Hs) as Hf.
  destruct (negb (closeRequest s1)); intros H; injection H as <-;
    [|exact Hf].
  rewrite <- Hf. destruct s1; reflexivity.
Qed.

(** A request still open at the end of an iteration in which a flush
    was asked for has its compressor flushed. *)
Lemma afterSelect_flushes (now : Time) (g : bool) (s s' : LoopState W)
    (effs0 effs : list Effect) :
  flushRequest s = true ->
  afterSelect t now g s effs0 = Some (looping s' effs) ->
  requestActive s' = true -> closeRequest s' = false ->
  zlibFlushed s' = true.
Proof.
  intros Hf. unfold afterSelect. cbv zeta.
  destruct (mergeStats_wire s) as [_ [_ M3]].
  set (r := if g then startGather now (fst (mergeStats s))
            else (fst (mergeStats s), [])).
  assert (Hr : flushRequest (fst r) = true).
  { unfold r. destruct g.
    - destruct (startGather_wire now (fst (mergeStats s))) as [_ [_ G3]].
      rewrite G3, M3. exact Hf.
    - cbn. rewrite M3. exact Hf. }
  destruct (openRequest t (fst r)) as [[s3 opened]|] eqn:Hopen.
  - destruct (streaming s3) as [s4|] eqn:Hs4; [|discriminate].
    intros H. injection H as H _. subst s'.
    destruct (respond_stream (finishing s4)) as [_ [R2 [_ [_ [_ [R6 _]]]]]].
    rewrite R2, R6. intros _.
    pose proof (streaming_flushRequest _ _ Hs4) as F4.
    rewrite (openRequest_flushRequest _ _ _ Hopen), Hr in F4.
    unfold finishing.
    destruct (closeRequest s4) eqn:Hc.
    + destruct (negb (zlibClosed s4)); cbn; rewrite ?Hc;
        [destruct s4; cbn in *; congruence | congruence].
    + rewrite F4. intros _.
      destruct (zlibFlushed s4) eqn:Hz; cbn; [exact Hz|].
      destruct s4; reflexivity.
  - intros H. injection H as H _. subst s'.
    apply openRequest_None in Hopen. destruct Hopen as [Ha _].
    rewrite Ha. discriminate.
Qed.

End FlushFacts.

(** X8: An error is sent at once, and so are the metrics of a gathering
    cycle: at the end of the iteration that takes an error event or the
    gathered metrics, the request in flight, when it is not closed off,
    has its compressor flushed and both buffers are empty, so that all
    the loop has taken is in the request buffer; a request that is closed
    off has its compressor closed; and with no request in flight there
    is nothing in the buffers. *)
Theorem flush_request_served {W : Type} {ZW : ZlibWriter W}
    (nextGracePeriod : Duration -> Duration) (t : TracerParams) (now : Time)
    (c : SelectCase) (s s' : LoopState W) (effs : list Effect) :
  match c with
  | caseEvent event => eventType event = errorEvent
  | caseGatheredMetrics => True
  | _ => False
  end ->
  loop_iter nextGracePeriod t now c s = Some (looping s' effs) ->
  (requestActive s' = false -> drained s')
  /\ (requestActive s' = true -> closeRequest s' = true -> zlibClosed s' = true)
  /\ (requestActive s' = true -> closeRequest s' = false ->
      zlibFlushed s' = true /\ drained s').
Proof.
  intros Hc Hiter.
  assert (H : exists s1 effs1,
             flushRequest s1 = true
             /\ afterSelect t now false s1 effs1 = Some (looping s' effs)).
  { destruct c; try contradiction.
    - cbn in Hiter. unfold onEvent in Hiter. rewrite Hc in Hiter.
      exists (set_flushRequest true (writeEvent event s)), [].
      split; [|exact Hiter]. destruct (writeEvent event s); reflexivity.
    - cbn in Hiter. unfold onGatheredMetrics in Hiter. cbv zeta in Hiter.
      match type of Hiter with
      | (match (if ?b then Some (_, ?s1, _) else Some (_, ?s2, _)) with _ => _ end) = _ =>
          destruct b; [exists s1, [] | exists s2, []]
      end; (split; [|exact Hiter]); destruct (writeMetrics s); reflexivity. }
  destruct H as [s1 [effs1 [Hf Hafter]]].
  pose proof (afterSelect_stream_ok nextGracePeriod t now false s1 s' effs1 effs Hafter)
    as [S1 [S2 [S3 _]]].
  split; [exact S1|]. split; [exact S3|].
  intros Ha Hcl. split; [|exact (S2 Ha Hcl)].
  exact (afterSelect_flushes t now false s1 s' effs1 effs Hf Hafter Ha Hcl).
Qed.

(** An error as the sample tracer takes it. *)
Definition sampleError (size : positive) : tracerEvent :=
  {| eventType := errorEvent; encodedLen := size |}.

(** The sample tracer, its first request in flight, has taken an error. *)
Definition sampleErrorTaken : LoopState HoldingWriter :=
  Eval vm_compute in
    loopAfter [(1, caseConfigCommand (sampleOptions None));
               (2, caseEvent (transaction 500));
               (3, caseEvent (sampleError 300))].

(** Tried on it: the request stays open and the compressor is flushed. *)
Lemma flush_request_served_witness :
  (requestActive sampleErrorTaken = true
   /\ closeRequest sampleErrorTaken = false
   /\ zlibFlushed sampleStreaming = false)
  /\ (requestActive sampleErrorTaken = false -> drained sampleErrorTaken)
  /\ (requestActive sampleErrorTaken = true ->
      closeRequest sampleErrorTaken = true -> zlibClosed sampleErrorTaken = true)
  /\ (requestActive sampleErrorTaken = true ->
      closeRequest sampleErrorTaken = false ->
      zlibFlushed sampleErrorTaken = true /\ drained sampleErrorTaken).
Proof.
  split; [repeat split|].
  apply (flush_request_served sampleGracePeriod sampleTracer 3
           (caseEvent (sampleError 300)) sampleStreaming sampleErrorTaken []).
  - reflexivity.
  - vm_compute. reflexivity.
Defined.

(** * The goroutine of the sends *)

Section SenderFacts.

Context {W : Type} {ZW : ZlibWriter W}.

Variable nextGracePeriod : Duration -> Duration.

Variable t : TracerParams.

(** A send under way finds [requestResult] empty, and the loop that
    has returned has closed [sendStreamRequest]. *)
Definition sender_inv (y : Sys W) : Prop :=
  (sender_busy (sender y) -> requestResult y = None)
  /\ (loopStatus y = loopExited -> sendStreamRequestClosed y = true).

Lemma sender_inv_not_exited (y : Sys W) :
  sys_ok y -> loopStatus y <> loopExited -> sender_inv y.
Proof.
  unfold sys_ok, sender_inv. intros [_ Hok] Hne.
  split; [|intros H; contradiction].
  destruct (loopStatus y) as [|s|]; [| |contradiction].
  - destruct Hok as [_ [_ [_ [_ Hs]]]]. rewrite Hs. intros [].
  - destruct Hok as [_ [Hr _]]. unfold request_inv in Hr.
    destruct (requestActive s).
    + destruct Hr as [[_ Hr]|[Hr _]]; [intros _; exact Hr|].
      rewrite Hr. intros [].
    + destruct Hr as [Hr _]. rewrite Hr. intros [].
Qed.

Lemma sender_inv_step (y y' : Sys W) (l : Label) :
  sys_ok y -> sender_inv y -> sys_step nextGracePeriod t y l y' -> sender_inv y'.
Proof.
  intros Hok Hinv Hstep.
  pose proof (sys_step_ok nextGracePeriod t y y' l Hok Hstep) as Hok'.
  assert (Hex : loopStatus y' = loopExited \/ loopStatus y' <> loopExited).
  { destruct (loopStatus y'); [right|right|left]; try discriminate; reflexivity. }
  destruct Hex as [Hex|Hne]; [|apply sender_inv_not_exited; assumption].
  clear Hok'. destruct Hinv as [I1 I2].
  destruct Hstep;
    try (match goal with H : begins _ _ _ |- _ => destruct H end);
    try (destruct y; unfold sender_inv, update_metrics in *; cbn in *; subst;
         try discriminate;
         repeat match goal with
                | H : match ?x with _ => _ end = loopExited |- _ =>
                    destruct x; try discriminate H
                end;
         split; [first [exact I1 | intros [] | intros _; reflexivity
                        | intros _; apply I1; exact I] | first [exact I2 | intros _; apply I2; reflexivity]]).
  - (* the loop returns *)
    match goal with
    | H : apply_effects _ _ = Some _ |- _ =>
        pose proof H as Happ;
        destruct (apply_effects_spec _ _ _ H) as [[Hst _] _]
    end.
    assert (Hr : iter_status r = loopExited).
    { rewrite <- Hex, Hst. destruct y1; reflexivity. }
    destruct r as [effs|s' effs]; [|discriminate Hr].
    match goal with
    | H : loop_iter _ _ _ _ _ = Some _ |- _ =>
        destruct (loop_iter_exited nextGracePeriod t _ _ _ _ H) as [Hc He]
    end.
    subst c effs.
    match goal with
    | H : receive _ _ _ |- _ =>
        destruct (receive_spec _ _ _ H)
          as [_ [_ [_ [_ [_ [_ [_ [_ [_ [_ [_ [_ [_ Hcl]]]]]]]]]]]]]
    end.
    destruct (Hcl eq_refl) as [_ Hy]. subst y1.
    destruct y; cbn in Happ. injection Happ as Hy'. subst y'.
    unfold sender_inv. cbn in *. split; [exact I1 | reflexivity].
  - destruct y; cbn in Hex; discriminate Hex.
  - destruct y; cbn in Hex; discriminate Hex.
Qed.

Lemma sender_inv_reachable (y : Sys W) :
  reachable nextGracePeriod t y -> sender_inv y.
Proof.
  intros [active [cmd [ls Hsteps]]].
  remember (newTracer t active cmd) as y0 eqn:Hy0.
  induction Hsteps as [|y0 ls y1 l y2 Hs IH Hstep].
  - subst y. apply sender_inv_not_exited; [apply sys_ok_newTracer|].
    destruct active; discriminate.
  - specialize (IH Hy0). subst y0.
    apply (sender_inv_step y1 y2 l); [|exact IH | exact Hstep].
    apply (steps_ok nextGracePeriod t _ _ _ (sys_ok_newTracer t active cmd) Hs).
Qed.

(** The steps of the goroutine of the sends. *)
Definition is_sender_label (l : Label) : bool :=
  match l with
  | L_senderDelay _ | L_SendStream | L_SendStreamReturns _
  | L_senderResult | L_senderExit => true
  | _ => false
  end.

(** The goroutine of the sends can end within [k] steps of its own. *)
Definition ends_within (k : nat) (y : Sys W) : Prop :=
  exists ls y',
    steps nextGracePeriod t y ls y'
    /\ sender y' = senderExited
    /\ (length ls <= k)%nat
    /\ forallb is_sender_label ls = true.

Lemma ends_within_step (k : nat) (y y1 : Sys W) (l : Label) :
  sys_step nextGracePeriod t y l y1 -> is_sender_label l = true ->
  ends_within k y1 -> ends_within (S k) y.
Proof.
  intros Hstep Hl [ls [y' [Hs [He [Hk Hf]]]]].
  exists ([l] ++ ls), y'. split.
  - apply (steps_app nextGracePeriod t y y1 y'); [|exact Hs].
    apply (steps_snoc nextGracePeriod t y [] y); [apply steps_nil | exact Hstep].
  - split; [exact He|]. split; [cbn; lia|]. cbn. rewrite Hl, Hf. reflexivity.
Qed.

Lemma ends_within_le (k k' : nat) (y : Sys W) :
  (k <= k')%nat -> ends_within k y -> ends_within k' y.
Proof.
  intros Hle [ls [y' [Hs [He [Hk Hf]]]]]. exists ls, y'.
  split; [exact Hs|]. split; [exact He|]. split; [lia | exact Hf].
Qed.

Lemma ends_from_idle (y : Sys W) :
  panicked y = false -> sendStreamRequestClosed y = true ->
  sender y = senderIdle -> ends_within 1 y.
Proof.
  intros Hp Hc Hs.
  apply (ends_within_step 0 y (with_sender senderExited y) L_senderExit);
    [apply step_senderExit; assumption | reflexivity|].
  exists [], (with_sender senderExited y).
  split; [apply steps_nil|]. split; [destruct y; reflexivity|].
  split; [cbn; lia | reflexivity].
Qed.

Lemma ends_from_result (y : Sys W) (err : option SendError) :
  panicked y = false -> sendStreamRequestClosed y = true ->
  requestResult y = None ->
  sender y = senderResult err -> ends_within 2 y.
Proof.
  intros Hp Hc Hr Hs.
  apply (ends_within_step 1 y
           (with_sender senderIdle (with_requestResult (Some err) y))
           L_senderResult);
    [apply step_senderResult; assumption | reflexivity|].
  apply ends_from_idle; destruct y; cbn in *; first [assumption | reflexivity].
Qed.

Lemma ends_from_sending (y : Sys W) :
  panicked y = false -> sendStreamRequestClosed y = true ->
  requestResult y = None ->
  sender y = senderSending -> ends_within 3 y.
Proof.
  intros Hp Hc Hr Hs.
  apply (ends_within_step 2 y (with_sender (senderResult None) y)
           (L_SendStreamReturns None));
    [apply step_SendStreamReturns; assumption | reflexivity|].
  apply (ends_from_result _ None); destruct y; cbn in *;
    first [assumption | reflexivity].
Qed.

Lemma ends_from_grace (y : Sys W) (d : Duration) :
  panicked y = false -> sendStreamRequestClosed y = true ->
  requestResult y = None ->
  sender y = senderGrace d -> ends_within 4 y.
Proof.
  intros Hp Hc Hr Hs.
  apply (ends_within_step 3 y (with_sender senderSending y) L_SendStream);
    [apply (step_SendStream _ _ y d); assumption | reflexivity|].
  apply ends_from_sending; destruct y; cbn in *;
    first [assumption | reflexivity].
Qed.

Lemma ends_from_received (y : Sys W) (g : Duration) :
  panicked y = false -> sendStreamRequestClosed y = true ->
  requestResult y = None ->
  sender y = senderReceived g -> ends_within 5 y.
Proof.
  intros Hp Hc Hr Hs.
  apply (ends_within_step 4 y (with_sender (senderGrace (sendDelay g 0 1)) y)
           (L_senderDelay (sendDelay g 0 1)));
    [apply (step_senderDelay _ _ y g 0 1); [assumption | assumption | lia]
    | reflexivity|].
  apply (ends_from_grace _ (sendDelay g 0 1)); destruct y; cbn in *;
    first [assumption | reflexivity].
Qed.

End SenderFacts.

(** X9: The goroutine of the sends never waits to hand over its result,
    and [Close] does not leave it behind: in every reachable state a
    result of [SendStream] finds [requestResult] empty, and once the
    loop has returned, [sendStreamRequest] is closed and the goroutine
    ends within five steps of its own, whatever it was doing (a
    [SendStream] under way is taken to return). *)
Theorem sender_goroutine_ends {W : Type} {ZW : ZlibWriter W}
    (nextGracePeriod : Duration -> Duration) (t : TracerParams) (y : Sys W) :
  reachable nextGracePeriod t y ->
  panicked y = false ->
  (forall err, sender y = senderResult err ->
     requestResult y = None
     /\ sys_step nextGracePeriod t y L_senderResult
          (with_sender senderIdle (with_requestResult (Some err) y)))
  /\ (loopStatus y = loopExited ->
      sendStreamRequestClosed y = true
      /\ ends_within nextGracePeriod t 5 y).
Proof.
  intros Hreach Hp.
  destruct (sender_inv_reachable nextGracePeriod t y Hreach) as [I1 I2].
  split.
  - intros err Hs.
    assert (Hr : requestResult y = None) by (apply I1; rewrite Hs; exact I).
    split; [exact Hr|]. apply step_senderResult; assumption.
  - intros Hex. specialize (I2 Hex). split; [exact I2|].
    destruct (sender y) as [|g|d| |err|] eqn:Hs.
    + apply (ends_within_le nextGracePeriod t 1); [lia|].
      apply ends_from_idle; assumption.
    + apply (ends_from_received nextGracePeriod t y g); try assumption.
      apply I1. exact I.
    + apply (ends_within_le nextGracePeriod t 4); [lia|].
      apply (ends_from_grace nextGracePeriod t y d); try assumption.
      apply I1. exact I.
    + apply (ends_within_le nextGracePeriod t 3); [lia|].
      apply ends_from_sending; try assumption.
      apply I1. exact I.
    + apply (ends_within_le nextGracePeriod t 2); [lia|].
      apply (ends_from_result nextGracePeriod t y err); try assumption.
      apply I1. exact I.
    + exists [], y. split; [apply steps_nil|]. split; [exact Hs|].
      split; [cbn; lia | reflexivity].
Qed.

(** The sample tracer closed while its first request is in flight,
    after the loop has returned. *)
Definition sampleSysClosed : Sys HoldingWriter :=
  Eval vm_compute in
    match apply_effects onClosing (with_loopStatus loopExited sampleSysClosing) with
    | Some y => y
    | None => sampleSysClosing
    end.

Lemma sampleSysClosed_reachable :
  reachable sampleGracePeriod sampleTracer sampleSysClosed.
Proof.
  exists true, (sampleOptions None). eexists.
  eapply (steps_snoc _ _ _ _ sampleSysClosing (L_loop 4 caseClosing onClosing)).
  - exact sampleSysClosing_steps.
  - apply (step_loop _ _ sampleSysClosing sampleStreaming 4 caseClosing
             sampleSysClosing (exited onClosing)).
    + reflexivity.
    + reflexivity.
    + apply recv_closing. reflexivity.
    + reflexivity.
    + vm_compute. reflexivity.
Qed.

(** Tried on it: the loop has returned and the goroutine of the sends
    has its signal still to handle. *)
Lemma sender_goroutine_ends_witness :
  (loopStatus sampleSysClosed = loopExited
   /\ sender sampleSysClosed = senderReceived (-1))
  /\ (forall err, sender sampleSysClosed = senderResult err ->
        requestResult sampleSysClosed = None
        /\ sys_step sampleGracePeriod sampleTracer sampleSysClosed L_senderResult
             (with_sender senderIdle
                (with_requestResult (Some err) sampleSysClosed)))
  /\ (loopStatus sampleSysClosed = loopExited ->
      sendStreamRequestClosed sampleSysClosed = true
      /\ ends_within sampleGracePeriod sampleTracer 5 sampleSysClosed).
Proof.
  split; [split; reflexivity|].
  apply (sender_goroutine_ends sampleGracePeriod sampleTracer sampleSysClosed).
  - exact sampleSysClosed_reachable.
  - reflexivity.
Defined.

(** * A request that is to be closed *)

Section CloseRequestFacts.

Context {W : Type} {ZW : ZlibWriter W}.

Variable nextGracePeriod : Duration -> Duration.

Variable t : TracerParams.

Lemma openRequest_closeRequest (s s' : LoopState W) (effs : list Effect) :
  openRequest t s = Some (s', effs) ->
  closeRequest s' = closeRequest s /\ requestActive s' = true.
Proof.
  unfold openRequest, zlibWrite. destruct s; cbn.
  repeat (inner_destruct; cbn); intros H; inversion H; subst; clear H;
    split; reflexivity.
Qed.

Lemma streamBlocks_closeRequest (fuel : nat) (s s' : LoopState W) :
  streamBlocks fuel s = Some s' -> closeRequest s = true -> closeRequest s' = true.
Proof.
  revert s. induction fuel as [|fuel IH]; intros s; [discriminate|].
  cbn [streamBlocks].
  destruct (requestBytes s <? requestSize (cfg s));
    [|intros H; injection H as <-; tauto].
  destruct (0 <? ringbuffer.Len (metricsBuffer s)).
  - destruct (ringbuffer.WriteBlockTo (metricsBuffer s)) as [[blk mb]|];
      intros H Hc; apply (IH _ H); [|exact Hc].
    destruct (pullMetrics_spec blk mb s) as [_ [_ [_ [_ [P _]]]]].
    rewrite P, Hc. reflexivity.
  - destruct (ringbuffer.Len (buffer s) =? 0);
      [intros H; injection H as <-; tauto|].
    destruct (ringbuffer.WriteBlockTo (buffer s)) as [[h b]|];
      intros H Hc; apply (IH _ H); [|exact Hc].
    unfold pullTrace, zlibWrite. destruct s; cbn in *.
    destruct (blockTag h); exact Hc.
Qed.

Lemma streaming_closeRequest (s s' : LoopState W) :
  streaming s = Some s' -> closeRequest s = true -> closeRequest s' = true.
Proof.
  unfold streaming. intros H Hc. rewrite Hc in H. cbn [negb orb] in H.
  destruct (negb (zlibClosed s)); [|injection H as <-; exact Hc].
  destruct (streamBlocks (streamFuel s) s) as [s1|] eqn:Hs; [|discriminate].
  rewrite (streamBlocks_closeRequest _ _ _ Hs Hc) in H. cbn in H.
  injection H as <-. exact (streamBlocks_closeRequest _ _ _ Hs Hc).
Qed.

(** With a request in flight or something to send, an iteration that
    has marked the request for closing ends with the compressor
    closed. *)
Lemma afterSelect_closes (now : Time) (g : bool) (s s' : LoopState W)
    (effs0 effs : list Effect) :
  closeRequest s = true ->
  requestActive s = true \/ buffers_empty s = false ->
  afterSelect t now g s effs0 = Some (looping s' effs) ->
  requestActive s' = true /\ closeRequest s' = true /\ zlibClosed s' = true.
Proof.
  intros Hc Hsend Hafter.
  pose proof (afterSelect_stream_ok nextGracePeriod t now g s s' effs0 effs Hafter)
    as [_ [_ [S3 _]]].
  revert Hafter. unfold afterSelect. cbv zeta.
  destruct (mergeStats_wire s) as [M1 [M2 _]].
  set (r := if g then startGather now (fst (mergeStats s))
            else (fst (mergeStats s), [])).
  assert (Hr : wire (fst r) = wire s /\ closeRequest (fst r) = true).
  { unfold r. destruct g.
    - destruct (startGather_wire now (fst (mergeStats s))) as [G1 [G2 _]].
      rewrite G1, G2, M1, M2. split; [reflexivity | exact Hc].
    - cbn. rewrite M1, M2. split; [reflexivity | exact Hc]. }
  destruct Hr as [R1 R2].
  assert (Hb : buffers_empty (fst r) = buffers_empty s).
  { unfold r, buffers_empty, mergeStats, startGather.
    destruct g; destruct (negb (isZero (stats s))); destruct s; reflexivity. }
  apply wire_fields in R1. destruct R1 as [W1 _].
  destruct (openRequest t (fst r)) as [[s3 opened]|] eqn:Hopen.
  - destruct (streaming s3) as [s4|] eqn:Hs4; [|discriminate].
    intros H. injection H as H _.
    destruct (openRequest_closeRequest _ _ _ Hopen) as [O1 O2].
    destruct (streaming_stream nextGracePeriod _ _ Hs4) as [T1 _].
    pose proof (streaming_closeRequest _ _ Hs4) as T2.
    rewrite O1, R2 in T2. specialize (T2 eq_refl).
    destruct (finishing_stream s4) as [F1 [F2 _]].
    destruct (respond_stream (finishing s4)) as [P1 [P2 _]].
    assert (Ha' : requestActive s' = true)
      by (rewrite <- H, P1, F1, T1; exact O2).
    assert (Hc' : closeRequest s' = true)
      by (rewrite <- H, P2, F2; exact T2).
    split; [exact Ha'|]. split; [exact Hc'|]. exact (S3 Ha' Hc').
  - apply openRequest_None in Hopen. destruct Hopen as [Ha He].
    rewrite W1 in Ha. rewrite Hb in He.
    destruct Hsend as [Hs|Hs]; congruence.
Qed.

End CloseRequestFacts.

(** X10: A request is closed off when its time is up and when [Flush] is
    called: at the end of the iteration that takes the request timer,
    or a [Flush] that it does not acknowledge at once, a request is in
    flight, marked for closing, and its compressor is closed, so that
    the transport comes to the end of the stream once it has read the
    request buffer.  The request timer is taken only with a request in
    flight. *)
Theorem request_closed_off {W : Type} {ZW : ZlibWriter W}
    (nextGracePeriod : Duration -> Duration) (t : TracerParams) (now : Time)
    (c : SelectCase) (s s' : LoopState W) (effs : list Effect) :
  loop_ok s ->
  match c with
  | caseRequestTimer => True
  | caseForceFlush _ _ => acksOf effs = []
  | _ => False
  end ->
  loop_iter nextGracePeriod t now c s = Some (looping s' effs) ->
  requestActive s' = true /\ closeRequest s' = true /\ zlibClosed s' = true
  /\ (c = caseRequestTimer ->
      requestActive s = true /\ requestTimerActive s' = false).
Proof.
  intros Hok Hc Hiter. destruct c; try contradiction.
  - (* the request timer *)
    cbn in Hiter. unfold onRequestTimer in Hiter.
    destruct (timer_recv (requestTimer s)) as [tm|] eqn:Hrecv; [|discriminate].
    destruct Hok as [_ [_ [Hrt [_ Hidle]]]].
    assert (Hp : pending (requestTimer s) = true).
    { unfold timer_recv in Hrecv.
      destruct (pending (requestTimer s)); [reflexivity | discriminate]. }
    assert (Hta : requestTimerActive s = true).
    { unfold requestTimer_ok in Hrt.
      destruct (requestTimerActive s); [reflexivity|].
      rewrite Hrt in Hp. discriminate. }
    assert (Ha : requestActive s = true).
    { destruct (requestActive s); [reflexivity|].
      rewrite (Hidle eq_refl) in Hta. discriminate. }
    remember (set_closeRequest true
                (set_requestTimerActive false (set_requestTimer tm s))) as s1 eqn:Es1.
    assert (H1 : closeRequest s1 = true /\ requestActive s1 = true
                 /\ requestTimerActive s1 = false).
    { subst s1. destruct s; cbn in *. repeat split. exact Ha. }
    destruct H1 as [Hc1 [Ha1 Ht1]].
    destruct (afterSelect_closes nextGracePeriod t now false s1 s' [] effs Hc1
                (or_introl Ha1) Hiter) as [A1 [A2 A3]].
    split; [exact A1|]. split; [exact A2|]. split; [exact A3|].
    intros _. split; [exact Ha|].
    destruct (afterSelect_spec nextGracePeriod t now false s1 s' [] effs Hiter)
      as [rest [_ [_ [_ [_ [_ [_ [_ [Hctl _]]]]]]]]].
    apply control_fields_of in Hctl. cbn in Hctl.
    destruct Hctl as [C1 [_ [_ [_ [_ [_ [C7 _]]]]]]].
    rewrite C7. unfold opens. rewrite Ha1, Ht1. reflexivity.
  - (* Flush *)
    cbn in Hiter. unfold onForceFlush in Hiter. cbv zeta in Hiter.
    remember (drainEvents queued (set_flushed (Some c) s)) as sd eqn:Esd.
    destruct (negb (requestActive sd) && (ringbuffer.Len (buffer sd) =? 0)
              && (ringbuffer.Len (metricsBuffer sd) =? 0)) eqn:Hnow.
    + injection Hiter as _ He. subst effs. discriminate Hc.
    + remember (set_closeRequest true sd) as s1 eqn:Es1.
      assert (H1 : closeRequest s1 = true
                   /\ (requestActive s1 = true \/ buffers_empty s1 = false)).
      { subst s1. rewrite <- andb_assoc in Hnow. unfold buffers_empty.
        clear Esd. destruct sd; cbn in *. split; [reflexivity|].
        match goal with
        | H : negb ?a && ?b = false |- _ =>
            destruct a; [left; reflexivity | right; exact H]
        end. }
      destruct H1 as [Hc1 Hs1].
      destruct (afterSelect_closes nextGracePeriod t now false s1 s' [] effs Hc1
                  Hs1 Hiter) as [A1 [A2 A3]].
      split; [exact A1|]. split; [exact A2|]. split; [exact A3|].
      intros H. discriminate H.
Qed.

(** Tried on the sample tracer: [Flush] is called while the first
    request is in flight. *)
Lemma request_closed_off_witness :
  closeRequest sampleStreaming = false
  /\ requestActive sampleFlushPending = true
  /\ closeRequest sampleFlushPending = true
  /\ zlibClosed sampleFlushPending = true
  /\ (caseForceFlush 5%nat [] = caseRequestTimer ->
      requestActive sampleStreaming = true
      /\ requestTimerActive sampleFlushPending = false).
Proof.
  split; [reflexivity|].
  apply (request_closed_off sampleGracePeriod sampleTracer 3
           (caseForceFlush 5%nat []) sampleStreaming sampleFlushPending []).
  - exact loop_ok_sampleStreaming.
  - reflexivity.
  - vm_compute. reflexivity.
Defined.
